(** * Utopia Database (TypeScript): Document, Query and the in-memory adapter

    A shallow embedding of [src/database/Document.ts], [src/database/Query.ts],
    [src/database/adapter/MemoryAdapter.ts] and [src/database/Database.ts],
    the properties of the specification that concern them, and further
    properties of the code.

    Modelling conventions.
    - JavaScript values are the inductive type [value]: the JSON data model
      (undefined, null, booleans, numbers, strings, arrays, plain objects)
      together with instances of the two classes of the library, [Document]
      and [Query].
    - Numbers are the integers [Z]: NaN, the infinities and fractions are
      outside the model.
    - Strings are [string]: a sequence of code units below 256, compared
      code unit by code unit as JavaScript compares strings.
    - Objects are association lists in insertion order, which is the order
      [Object.entries] and [Map.prototype.values] enumerate (keys that look
      like array indices, which JavaScript enumerates first, are outside the
      model).
    - An object is its own properties; its prototype is [Object.prototype]
      and is no part of the value. An assignment [o[k] = v] at the key
      [__proto__] creates no own property ([Obj.assign]); that it replaces
      the prototype of [o] when [v] is an object or null, and what would
      then be read through the replaced prototype, is outside the model.
    - Exceptions are explicit: a function that can throw returns a [result].
    - The clock and the random source of [Database] are inputs of its
      methods.
    - Recursion that is not structural in the source ([Document.clone] re-reads
      its own export, [Query.fromJSON] rebuilds what it has just built,
      [JSON.parse] scans a text) is bounded by a fuel argument; running out of
      fuel is the separate outcome [Beyond OutOfFuel], never a result. *)

From Stdlib Require Import ZArith List String Ascii Bool Lia.
From Stdlib Require Import DecimalString DecimalPos.
From Stdlib Require Import DecimalZ Sorting.Sorted Sorting.Permutation.
Import ListNotations.

Set Warnings "-register-all".

Local Open Scope string_scope.
Local Open Scope Z_scope.

(** ** Outcomes *)

Inductive exn : Type :=
| TypeError (msg : string)
| Error (msg : string)
| SyntaxError (msg : string).

(** What the model does not decide. *)
Inductive limit : Type :=
| OutOfFuel
| NonStringAttribute
| NonStringKey
| NonIntegerNumber
| WideCodeUnit.

Inductive result (A : Type) : Type :=
| Ok (a : A)
| Throw (e : exn)
| Beyond (l : limit).

Arguments Ok {A} a.
Arguments Throw {A} e.
Arguments Beyond {A} l.

Definition bind {A B : Type} (r : result A) (k : A -> result B) : result B :=
  match r with
  | Ok a => k a
  | Throw e => Throw e
  | Beyond l => Beyond l
  end.

Notation "x <- e ;; k" := (bind e (fun x => k))
  (at level 61, e at next level, right associativity).

(** [Array.prototype.map] with a callback that may throw: left to right, the
    first exception ends the loop. *)
Fixpoint mapM {A B : Type} (f : A -> result B) (l : list A) : result (list B) :=
  match l with
  | [] => Ok []
  | x :: xs => y <- f x ;; ys <- mapM f xs ;; Ok (y :: ys)
  end.

(** [Array.prototype.every] and [some] with a callback that may throw. *)
Fixpoint everyM {A : Type} (f : A -> result bool) (l : list A) : result bool :=
  match l with
  | [] => Ok true
  | x :: xs => b <- f x ;; if b then everyM f xs else Ok false
  end.

Fixpoint someM {A : Type} (f : A -> result bool) (l : list A) : result bool :=
  match l with
  | [] => Ok false
  | x :: xs => b <- f x ;; if b then Ok true else someM f xs
  end.

(** [Array.prototype.filter] with a callback that may throw. *)
Fixpoint filterM {A : Type} (f : A -> result bool) (l : list A) : result (list A) :=
  match l with
  | [] => Ok []
  | x :: xs => b <- f x ;; ys <- filterM f xs ;; Ok (if b then x :: ys else ys)
  end.

(** ** JavaScript values *)

Inductive value : Type :=
| VUndefined
| VNull
| VBool (b : bool)
| VNumber (n : Z)
| VString (s : string)
| VArray (items : list value)
| VObject (props : list (string * value))
| VDocument (data : list (string * value))
| VQuery (method attribute : string) (values : list value).

(** A plain object, [Record<string, unknown>]. *)
Definition object : Type := list (string * value).

Module Obj.

(** [Object.prototype.hasOwnProperty.call(o, k)], and [k in o] for a key that
    [Object.prototype] has not. *)
Fixpoint has (k : string) (o : object) : bool :=
  match o with
  | [] => false
  | (k', _) :: rest => if String.eqb k k' then true else has k rest
  end.

(** [o[k]] when the property exists. *)
Fixpoint get (k : string) (o : object) : option value :=
  match o with
  | [] => None
  | (k', v) :: rest => if String.eqb k k' then Some v else get k rest
  end.

(** The own property [k] of [o] defined as [v]: an existing property keeps
    its place, a new one goes last. This is what [JSON.parse], an object
    literal and its spread do with every key, and what an assignment does
    with a key that reaches no setter. *)
Fixpoint set (k : string) (v : value) (o : object) : object :=
  match o with
  | [] => [(k, v)]
  | (k', v') :: rest =>
      if String.eqb k k' then (k, v) :: rest else (k', v') :: set k v rest
  end.

(** [o[k] = v] on an object whose prototype is [Object.prototype]. A
    property the object has, and a new one under any key but [__proto__], is
    written as [set] writes it. At the key [__proto__], when the object has
    no such property of its own, the assignment reaches the accessor of
    [Object.prototype]: no own property is created, whatever [v] is. *)
Definition assign (k : string) (v : value) (o : object) : object :=
  if (String.eqb k "__proto__" && negb (has k o))%bool then o else set k v o.

(** [delete o[k]]. *)
Fixpoint remove (k : string) (o : object) : object :=
  match o with
  | [] => []
  | (k', v') :: rest =>
      if String.eqb k k' then rest else (k', v') :: remove k rest
  end.

Definition keys (o : object) : list string := map fst o.

End Obj.

(** [o[k]]: [undefined] for a missing property. *)
Definition prop (k : string) (o : object) : value :=
  match Obj.get k o with
  | Some v => v
  | None => VUndefined
  end.

(** [v === undefined || v === null]. *)
Definition nullish (v : value) : bool :=
  match v with
  | VUndefined | VNull => true
  | _ => false
  end.


(** [typeof v === 'string'], [typeof v === 'number']. *)
Definition isString (v : value) : bool :=
  match v with
  | VString _ => true
  | _ => false
  end.

Definition isNumber (v : value) : bool :=
  match v with
  | VNumber _ => true
  | _ => false
  end.

(** [typeof v === 'object' && v !== null]. *)
Definition isObject (v : value) : bool :=
  match v with
  | VArray _ | VObject _ | VDocument _ | VQuery _ _ _ => true
  | _ => false
  end.

(** [a === b]. Primitives are compared by value. Arrays, objects and class
    instances are compared by reference: the values the library compares come
    out of distinct documents and queries, which are cloned on every read and
    write, so two of them are never one allocation. *)
Definition strict_equal (a b : value) : bool :=
  match a, b with
  | VUndefined, VUndefined => true
  | VNull, VNull => true
  | VBool x, VBool y => Bool.eqb x y
  | VNumber x, VNumber y => Z.eqb x y
  | VString x, VString y => String.eqb x y
  | _, _ => false
  end.

(** ** Strings and numbers *)

Module Str.

Definition dquote : ascii := "034"%char.
Definition backslash : ascii := "092"%char.

Definition code (c : ascii) : N := N_of_ascii c.

(** White space and line terminators, as [String.prototype.trim] and the
    string-to-number conversion skip them. *)
Definition isWhiteSpace (c : ascii) : bool :=
  let n := code c in
  (N.eqb n 9 || N.eqb n 10 || N.eqb n 11 || N.eqb n 12 || N.eqb n 13
   || N.eqb n 32 || N.eqb n 160)%bool.

Definition isDigit (c : ascii) : bool :=
  let n := code c in (N.leb 48 n && N.leb n 57)%bool.

Fixpoint trimStart (s : string) : string :=
  match s with
  | String c rest => if isWhiteSpace c then trimStart rest else s
  | EmptyString => EmptyString
  end.

Fixpoint rev_onto (s acc : string) : string :=
  match s with
  | String c rest => rev_onto rest (String c acc)
  | EmptyString => acc
  end.

Definition rev (s : string) : string := rev_onto s EmptyString.

Definition trim (s : string) : string := rev (trimStart (rev (trimStart s))).

Fixpoint allDigits (s : string) : bool :=
  match s with
  | String c rest => isDigit c && allDigits rest
  | EmptyString => true
  end.

(** [s.startsWith(p)], [s.endsWith(p)], [s.includes(p)]. *)
Definition startsWith (s p : string) : bool := String.prefix p s.

Definition endsWith (s p : string) : bool := String.prefix (rev p) (rev s).

Fixpoint includes (s p : string) : bool :=
  String.prefix p s
  || match s with
     | String _ rest => includes rest p
     | EmptyString => false
     end.

(** [s.toLowerCase()] on code units below 256. *)
Definition lowerChar (c : ascii) : ascii :=
  let n := code c in
  if (N.leb 65 n && N.leb n 90)%bool then ascii_of_N (n + 32)
  else if (N.leb 192 n && N.leb n 222 && negb (N.eqb n 215))%bool
       then ascii_of_N (n + 32)
       else c.

Fixpoint toLowerCase (s : string) : string :=
  match s with
  | String c rest => String (lowerChar c) (toLowerCase rest)
  | EmptyString => EmptyString
  end.

(** [items.join(sep)]. *)
Definition join (sep : string) (items : list string) : string :=
  String.concat sep items.

(** [s.slice(start, end)]: a negative index counts from the end and both
    are clamped to the length. *)
Definition slice (s : string) (start end_ : Z) : string :=
  let len := Z.of_nat (String.length s) in
  let clamp i := if i <? 0 then Z.max (len + i) 0 else Z.min i len in
  let from := clamp start in
  let to := clamp end_ in
  String.substring (Z.to_nat from) (Z.to_nat (Z.max (to - from) 0)) s.

(** The strings of one code unit a string is iterated as. *)
Fixpoint chars (s : string) : list string :=
  match s with
  | String c rest => String c EmptyString :: chars rest
  | EmptyString => []
  end.

End Str.

Module Num.

(** [String(n)] for an integral number: its decimal digits. (From 10^21 on
    JavaScript writes an exponent; such magnitudes are outside the model.) *)
Definition toString (n : Z) : string := NilZero.string_of_int (Z.to_int n).

Definition digitsValue (s : string) : option Z :=
  match s with
  | EmptyString => None
  | _ =>
      if Str.allDigits s then
        match NilEmpty.uint_of_string s with
        | Some d => Some (Z.of_uint d)
        | None => None
        end
      else None
  end.

(** [Number(s)]: white space is trimmed, the empty string is 0, an
    optionally signed run of decimal digits is its value, and anything else
    is NaN ([None]). Numeric strings that denote no integer (a fraction, an
    exponent, a radix prefix, Infinity) have no counterpart in [Z] and
    count as NaN here. *)
Definition ofString (s : string) : option Z :=
  match Str.trim s with
  | EmptyString => Some 0
  | String "-" rest => option_map Z.opp (digitsValue rest)
  | String "+" rest => digitsValue rest
  | t => digitsValue t
  end.

End Num.

(** ** JSON *)

Inductive json : Type :=
| JNull
| JBool (b : bool)
| JNumber (n : Z)
| JString (s : string)
| JArray (items : list json)
| JObject (members : list (string * json)).

Module LogicalMethods.

(** [Query.LOGICAL_METHODS.has(m)]. *)
Definition has (m : string) : bool :=
  (String.eqb m "and" || String.eqb m "or")%bool.

End LogicalMethods.

Module JSON.

Definition orNull (j : option json) : json :=
  match j with
  | Some x => x
  | None => JNull
  end.

Definition member (k : string) (j : option json) : list (string * json) :=
  match j with
  | Some x => [(k, x)]
  | None => []
  end.

(** The tree [JSON.stringify] writes for a value ([None] when it writes
    nothing, as for [undefined]). An instance with a [toJSON] method is
    replaced by what the method returns before it is written; the two
    methods of the library are unfolded here so that the recursion stays
    structural: [Document.toJSON] exports the entries of [data], nested
    documents included, and [Query.toJSON] exports the method, the
    attribute when it is not empty, and the values. A logical query holds
    Query instances only (the constructor throws otherwise); on an operand
    of another kind [Query.toJSON] would throw, which no constructed query
    comes to, and the tree has [null] in that place. [Query.toString] does
    not depend on it: it goes through [Qry.export], which throws there. *)
Fixpoint tree (v : value) : option json :=
  match v with
  | VUndefined => None
  | VNull => Some JNull
  | VBool b => Some (JBool b)
  | VNumber n => Some (JNumber n)
  | VString s => Some (JString s)
  | VArray items => Some (JArray (map (fun x => orNull (tree x)) items))
  | VObject props =>
      Some (JObject (flat_map (fun kv => member (fst kv) (tree (snd kv))) props))
  | VDocument data =>
      Some (JObject (flat_map (fun kv => member (fst kv) (tree (snd kv))) data))
  | VQuery m a vs =>
      let operand x :=
        if LogicalMethods.has m then
          match x with
          | VQuery _ _ _ | VDocument _ => orNull (tree x)
          | _ => JNull
          end
        else
          match x with
          | VDocument data =>
              (fix id (d : list (string * value)) : json :=
                 match d with
                 | [] => JString ""
                 | (k, i) :: rest =>
                     if String.eqb "$id" k then
                       match i with
                       | VUndefined | VNull => JString ""
                       | _ => orNull (tree i)
                       end
                     else id rest
                 end) data
          | _ => orNull (tree x)
          end in
      Some (JObject
              (("method", JString m)
                 :: (if String.eqb a "" then [] else [("attribute", JString a)])
                 ++ [("values", JArray (map operand vs))])%list)
  end.

Definition hexDigit (n : N) : ascii :=
  if N.ltb n 10 then ascii_of_N (48 + n) else ascii_of_N (87 + n).

(** One code unit of a string literal. *)
Definition quoteChar (c : ascii) : string :=
  let n := Str.code c in
  if Ascii.eqb c Str.dquote then String Str.backslash (String Str.dquote "")
  else if Ascii.eqb c Str.backslash then String Str.backslash (String Str.backslash "")
  else if N.eqb n 8 then String Str.backslash "b"
  else if N.eqb n 9 then String Str.backslash "t"
  else if N.eqb n 10 then String Str.backslash "n"
  else if N.eqb n 12 then String Str.backslash "f"
  else if N.eqb n 13 then String Str.backslash "r"
  else if N.ltb n 32 then
    String Str.backslash
      (String "u" (String "0" (String "0"
         (String (hexDigit (N.div n 16)) (String (hexDigit (N.modulo n 16)) "")))))
  else String c "".

Fixpoint quoteChars (s : string) : string :=
  match s with
  | String c rest => quoteChar c ++ quoteChars rest
  | EmptyString => EmptyString
  end.

Definition quote (s : string) : string :=
  String Str.dquote (quoteChars s ++ String Str.dquote "").

(** The text of a tree, without white space. *)
Fixpoint text (j : json) : string :=
  match j with
  | JNull => "null"
  | JBool true => "true"
  | JBool false => "false"
  | JNumber n => Num.toString n
  | JString s => quote s
  | JArray items => "[" ++ Str.join "," (map text items) ++ "]"
  | JObject members =>
      "{" ++ Str.join "," (map (fun kv => quote (fst kv) ++ ":" ++ text (snd kv)) members)
          ++ "}"
  end.

(** [JSON.stringify(v)]; [None] is [undefined]. *)
Definition stringify (v : value) : option string := option_map text (tree v).

(** *** [JSON.parse]

    A recursive-descent reader of JSON text. Numbers are read as integers: a
    fraction or an exponent, and a [\u] escape of a code unit above 255,
    denote nothing in the model and end the reading with [Beyond]. *)

Definition isSpace (c : ascii) : bool :=
  let n := Str.code c in
  (N.eqb n 32 || N.eqb n 9 || N.eqb n 10 || N.eqb n 13)%bool.

Fixpoint skipSpace (s : string) : string :=
  match s with
  | String c rest => if isSpace c then skipSpace rest else s
  | EmptyString => EmptyString
  end.

Definition hexValue (c : ascii) : option N :=
  let n := Str.code c in
  if (N.leb 48 n && N.leb n 57)%bool then Some (n - 48)%N
  else if (N.leb 97 n && N.leb n 102)%bool then Some (n - 87)%N
  else if (N.leb 65 n && N.leb n 70)%bool then Some (n - 55)%N
  else None.

Definition unexpected {A : Type} : result A :=
  Throw (SyntaxError "Unexpected token in JSON").

(** The characters of a string literal after its opening quote, and the text
    after its closing quote. *)
Fixpoint stringBody (s : string) : result (string * string) :=
  match s with
  | EmptyString => unexpected
  | String c rest =>
      if Ascii.eqb c Str.dquote then Ok (EmptyString, rest)
      else if Ascii.eqb c Str.backslash then
        match rest with
        | String e rest1 =>
            let simple (x : ascii) :=
              r <- stringBody rest1 ;; Ok (String x (fst r), snd r) in
            if Ascii.eqb e Str.dquote then simple Str.dquote
            else if Ascii.eqb e Str.backslash then simple Str.backslash
            else if Ascii.eqb e "/" then simple "/"%char
            else if Ascii.eqb e "b" then simple (ascii_of_N 8)
            else if Ascii.eqb e "f" then simple (ascii_of_N 12)
            else if Ascii.eqb e "n" then simple (ascii_of_N 10)
            else if Ascii.eqb e "r" then simple (ascii_of_N 13)
            else if Ascii.eqb e "t" then simple (ascii_of_N 9)
            else if Ascii.eqb e "u" then
              match rest1 with
              | String h1 (String h2 (String h3 (String h4 rest2))) =>
                  match hexValue h1, hexValue h2, hexValue h3, hexValue h4 with
                  | Some a, Some b, Some c, Some d =>
                      if (N.eqb a 0 && N.eqb b 0)%bool then
                        r <- stringBody rest2 ;;
                        Ok (String (ascii_of_N (16 * c + d)) (fst r), snd r)
                      else Beyond WideCodeUnit
                  | _, _, _, _ => unexpected
                  end
              | _ => unexpected
              end
            else unexpected
        | EmptyString => unexpected
        end
      else if N.ltb (Str.code c) 32 then unexpected
      else r <- stringBody rest ;; Ok (String c (fst r), snd r)
  end.

(** The longest run of digits at the head of a text, and what follows. *)
Fixpoint spanDigits (s : string) : string * string :=
  match s with
  | String c rest =>
      if Str.isDigit c then
        let r := spanDigits rest in (String c (fst r), snd r)
      else (EmptyString, s)
  | EmptyString => (EmptyString, EmptyString)
  end.

(** An integer without its sign: a single 0, or a run of digits that does
    not start with 0. *)
Definition natural (s : string) : result (Z * string) :=
  match s with
  | String c rest =>
      if Ascii.eqb c "0" then Ok (0%Z, rest)
      else if Str.isDigit c then
        let r := spanDigits s in
        match NilEmpty.uint_of_string (fst r) with
        | Some d => Ok (Z.of_uint d, snd r)
        | None => unexpected
        end
      else unexpected
  | EmptyString => unexpected
  end.

Definition number (s : string) : result (Z * string) :=
  r <- match s with
       | String "-" rest => r <- natural rest ;; Ok (- fst r, snd r)
       | _ => natural s
       end ;;
  match snd r with
  | String "." _ | String "e" _ | String "E" _ => Beyond NonIntegerNumber
  | _ => Ok r
  end.

(** An object literal defines its members one after the other; a key that
    comes twice keeps its first place and its last value. *)
Definition objectOf (members : list (string * value)) : value :=
  VObject (fold_left (fun o kv => Obj.set (fst kv) (snd kv) o) members []).

Fixpoint parseValue (fuel : nat) (s : string) : result (value * string) :=
  match fuel with
  | O => Beyond OutOfFuel
  | S fuel =>
      match skipSpace s with
      | String "n" (String "u" (String "l" (String "l" rest))) => Ok (VNull, rest)
      | String "t" (String "r" (String "u" (String "e" rest))) => Ok (VBool true, rest)
      | String "f" (String "a" (String "l" (String "s" (String "e" rest)))) =>
          Ok (VBool false, rest)
      | String "[" rest =>
          match skipSpace rest with
          | String "]" rest1 => Ok (VArray [], rest1)
          | _ => r <- parseElements fuel rest ;; Ok (VArray (fst r), snd r)
          end
      | String "{" rest =>
          match skipSpace rest with
          | String "}" rest1 => Ok (VObject [], rest1)
          | _ => r <- parseMembers fuel rest ;; Ok (objectOf (fst r), snd r)
          end
      | String c rest as t =>
          if Ascii.eqb c Str.dquote then
            r <- stringBody rest ;; Ok (VString (fst r), snd r)
          else if (Ascii.eqb c "-" || Str.isDigit c)%bool then
            r <- number t ;; Ok (VNumber (fst r), snd r)
          else unexpected
      | EmptyString => unexpected
      end
  end

with parseElements (fuel : nat) (s : string) : result (list value * string) :=
  match fuel with
  | O => Beyond OutOfFuel
  | S fuel =>
      v <- parseValue fuel s ;;
      match skipSpace (snd v) with
      | String "," rest =>
          r <- parseElements fuel rest ;; Ok (fst v :: fst r, snd r)
      | String "]" rest => Ok ([fst v], rest)
      | _ => unexpected
      end
  end

with parseMembers (fuel : nat) (s : string)
  : result (list (string * value) * string) :=
  match fuel with
  | O => Beyond OutOfFuel
  | S fuel =>
      match skipSpace s with
      | String c rest =>
          if Ascii.eqb c Str.dquote then
            k <- stringBody rest ;;
            match skipSpace (snd k) with
            | String ":" rest1 =>
                v <- parseValue fuel rest1 ;;
                match skipSpace (snd v) with
                | String "," rest2 =>
                    r <- parseMembers fuel rest2 ;;
                    Ok ((fst k, fst v) :: fst r, snd r)
                | String "}" rest2 => Ok ([(fst k, fst v)], rest2)
                | _ => unexpected
                end
            | _ => unexpected
            end
          else unexpected
      | EmptyString => unexpected
      end
  end.

(** [JSON.parse(text)]. *)
Definition parse (fuel : nat) (text : string) : result value :=
  r <- parseValue fuel text ;;
  match skipSpace (snd r) with
  | EmptyString => Ok (fst r)
  | _ => unexpected
  end.

End JSON.

(** ** Conversions and the relational operators *)

(** [String(v)]. An array joins the strings of its elements with commas,
    [null] and [undefined] elements giving the empty string; a plain object
    and a Document, which does not override [toString], give
    ["[object Object]"]; a Query overrides [toString] with its JSON text. *)
Fixpoint ToString (v : value) : string :=
  match v with
  | VUndefined => "undefined"
  | VNull => "null"
  | VBool true => "true"
  | VBool false => "false"
  | VNumber n => Num.toString n
  | VString s => s
  | VArray items =>
      Str.join ","
        (map (fun x => match x with
                       | VUndefined | VNull => ""
                       | _ => ToString x
                       end) items)
  | VObject _ | VDocument _ => "[object Object]"
  | VQuery _ _ _ =>
      match JSON.stringify v with
      | Some t => t
      | None => "undefined"
      end
  end.

(** The primitive an operand of [<] or [>] is converted to: an object has no
    primitive [valueOf], so its string is taken. *)
Definition ToPrimitive (v : value) : value :=
  if isObject v then VString (ToString v) else v.

(** [Number(v)] for a primitive; [None] is NaN. *)
Definition ToNumber (v : value) : option Z :=
  match ToPrimitive v with
  | VNull => Some 0
  | VBool b => Some (if b then 1 else 0)
  | VNumber n => Some n
  | VString s => Num.ofString s
  | _ => None
  end.

(** [a < b]: two strings are compared code unit by code unit, anything else
    as numbers, a comparison with NaN being false. *)
Definition lessThan (a b : value) : bool :=
  match ToPrimitive a, ToPrimitive b with
  | VString x, VString y => String.ltb x y
  | x, y =>
      match ToNumber x, ToNumber y with
      | Some n, Some m => Z.ltb n m
      | _, _ => false
      end
  end.

(** [a > b]. *)
Definition greaterThan (a b : value) : bool := lessThan b a.

(** ** Document.ts *)

Record Document : Type := mkDocument { data : object }.

Module Doc.

Definition RESERVED_KEYS : list string :=
  ["$id"; "$collection"; "$createdAt"; "$updatedAt"; "$permissions";
   "$tenant"; "$sequence"].

(** [(this.data.$id as string) ?? '']. *)
Definition getId (this : Document) : value :=
  let id := prop "$id" (data this) in
  if nullish id then VString "" else id.

Definition getCollection (this : Document) : value :=
  let c := prop "$collection" (data this) in
  if nullish c then VString "" else c.

Definition getAttribute (this : Document) (key : string) (defaultValue : value)
  : value :=
  if negb (Obj.has key (data this)) then defaultValue
  else prop key (data this).

Definition removeAttribute (this : Document) (key : string) : Document :=
  mkDocument (Obj.remove key (data this)).

(** The loop [for (const [k, v] of Object.entries(this.data)) result[k] = f(v)]
    of [toJSON]. The keys are the own keys of [data], which is written by
    assignment alone and so holds no key [__proto__], the one key at which an
    assignment is not [Obj.set]. *)
Definition assignEach (f : value -> value) (entries : list (string * value))
  (result : object) : object :=
  fold_left (fun result kv => Obj.set (fst kv) (f (snd kv)) result) entries result.

(** [toJSON], on the instance as a value: the entries of [data] are written
    into a fresh object, a Document value by its own export and an array
    with its Document items exported; any other value is written as it
    is. *)
Fixpoint export (v : value) : object :=
  match v with
  | VDocument entries =>
      assignEach
        (fun val =>
           match val with
           | VDocument _ => VObject (export val)
           | VArray items =>
               VArray
                 (map (fun item =>
                         match item with
                         | VDocument _ => VObject (export item)
                         | _ => item
                         end) items)
           | _ => val
           end) entries []
  | _ => []
  end.

Definition toJSON (this : Document) : object := export (VDocument (data this)).

(** [getAttributes], which like [toJSON] writes own keys of [data]. *)
Definition getAttributes (this : Document) : object :=
  fold_left
    (fun attributes kv =>
       if existsb (String.eqb (fst kv)) RESERVED_KEYS then attributes
       else Obj.set (fst kv) (snd kv) attributes)
    (data this) [].

(** The loop [for (const [k, v] of Object.entries(o)) target[k] = f(v)]. *)
Fixpoint assignAll (f : value -> result value) (entries : list (string * value))
  (target : object) : result object :=
  match entries with
  | [] => Ok target
  | (key, value) :: rest =>
      v <- f value ;; assignAll f rest (Obj.assign key v target)
  end.

(** [replace], with [prepareValue] as a parameter. *)
Fixpoint replaceWith (prepare : value -> result value)
  (input : list (string * value)) (data : object) : result object :=
  match input with
  | [] => Ok data
  | (key, value) :: rest =>
      data' <-
        (if (String.eqb key "$id" && negb (nullish value))%bool then
           if negb (isString value) then
             Throw (TypeError "$id must be of type string")
           else Ok (Obj.assign key value data)
         else if (String.eqb key "$permissions" && negb (nullish value))%bool then
           match value with
           | VArray items =>
               Ok (Obj.assign key (VArray (map (fun x => VString (ToString x)) items)) data)
           | _ => Throw (TypeError "$permissions must be an array")
           end
         else
           v <- prepare value ;; Ok (Obj.assign key v data)) ;;
      replaceWith prepare rest data'
  end.

(** The own enumerable properties of a Query instance. *)
Definition queryEntries (m a : string) (vs : list value) : object :=
  [("method", VString m); ("attribute", VString a); ("values", VArray vs)].

Fixpoint prepareValue (fuel : nat) (val : value) : result value :=
  match fuel with
  | O => Beyond OutOfFuel
  | S fuel =>
      let construct input := replaceWith (prepareValue fuel) input [] in
      let plain record :=
        if (Obj.has "$id" record || Obj.has "$collection" record)%bool then
          d <- construct record ;;
          c <- construct (export (VDocument d)) ;;
          Ok (VDocument c)
        else
          cloned <- assignAll (prepareValue fuel) record [] ;;
          Ok (VObject cloned) in
      match val with
      | VDocument _ =>
          c <- construct (export val) ;; Ok (VDocument c)
      | VArray items =>
          items' <- mapM (prepareValue fuel) items ;; Ok (VArray items')
      | VObject record => plain record
      | VQuery m a vs => plain (queryEntries m a vs)
      | _ => Ok val
      end
  end.

Definition replace (fuel : nat) (input : object) (data : object) : result object :=
  replaceWith (prepareValue fuel) input data.

(** [new Document(input)]. *)
Definition construct (fuel : nat) (input : object) : result Document :=
  d <- replace fuel input [] ;; Ok (mkDocument d).

Definition clone (fuel : nat) (this : Document) : result Document :=
  construct fuel (toJSON this).

Definition setAttribute (fuel : nat) (this : Document) (key : string)
  (val : value) : result Document :=
  v <- prepareValue fuel val ;; Ok (mkDocument (Obj.assign key v (data this))).

Definition PERMISSION_TYPES : list string := ["create"; "read"; "update"; "delete"].

(** What [new Set(v)] draws from [v]: the items of an array, the characters
    of a string; a number, a boolean, a plain object or an instance is not
    iterable. *)
Definition iterate (v : value) : result (list value) :=
  match v with
  | VArray items => Ok items
  | VString s => Ok (map VString (Str.chars s))
  | _ => Throw (TypeError "object is not iterable")
  end.

(** [set.add(x)] on the insertion-ordered content of a Set. *)
Definition setAdd (content : list value) (x : value) : list value :=
  if existsb (strict_equal x) content then content else (content ++ [x])%list.

(** [Array.from(new Set(items))]. *)
Definition unique (items : list value) : list value := fold_left setAdd items [].

Definition getPermissions (this : Document) : result (list value) :=
  let stored := prop "$permissions" (data this) in
  permissions <- (if nullish stored then Ok [] else iterate stored) ;;
  Ok (unique permissions).

(** [permission.startsWith(prefix)] and [permission.slice(n, -1)] are calls
    of string methods: on a permission that is no string there is no such
    method to call. *)
Definition getPermissionsByType (this : Document) (type : string)
  : result (list value) :=
  let prefix := type ++ "(" in
  permissions <- getPermissions this ;;
  kept <- filterM
            (fun permission =>
               match permission with
               | VString p => Ok (Str.startsWith p prefix)
               | _ => Throw (TypeError "permission.startsWith is not a function")
               end) permissions ;;
  mapM
    (fun permission =>
       match permission with
       | VString p => Ok (VString (Str.slice p (Z.of_nat (String.length prefix)) (-1)))
       | _ => Throw (TypeError "permission.slice is not a function")
       end) kept.

Definition getRead (this : Document) := getPermissionsByType this "read".
Definition getCreate (this : Document) := getPermissionsByType this "create".
Definition getUpdate (this : Document) := getPermissionsByType this "update".
Definition getDelete (this : Document) := getPermissionsByType this "delete".

End Doc.

(** ** Query.ts *)

Record Query : Type :=
  mkQuery { method : string; attribute : string; values : list value }.

Module Qry.

Definition TYPE_EQUAL := "equal".
Definition TYPE_NOT_EQUAL := "notEqual".
Definition TYPE_LESS_THAN := "lessThan".
Definition TYPE_LESS_THAN_EQUAL := "lessThanEqual".
Definition TYPE_GREATER_THAN := "greaterThan".
Definition TYPE_GREATER_THAN_EQUAL := "greaterThanEqual".
Definition TYPE_CONTAINS := "contains".
Definition TYPE_NOT_CONTAINS := "notContains".
Definition TYPE_SEARCH := "search".
Definition TYPE_NOT_SEARCH := "notSearch".
Definition TYPE_IS_NULL := "isNull".
Definition TYPE_IS_NOT_NULL := "isNotNull".
Definition TYPE_BETWEEN := "between".
Definition TYPE_STARTS_WITH := "startsWith".
Definition TYPE_NOT_STARTS_WITH := "notStartsWith".
Definition TYPE_ENDS_WITH := "endsWith".
Definition TYPE_NOT_ENDS_WITH := "notEndsWith".
Definition TYPE_LIMIT := "limit".
Definition TYPE_OFFSET := "offset".
Definition TYPE_ORDER_ASC := "orderAsc".
Definition TYPE_ORDER_DESC := "orderDesc".
Definition TYPE_SELECT := "select".
Definition TYPE_AND := "and".
Definition TYPE_OR := "or".

Definition LOGICAL_METHODS : list string := [TYPE_AND; TYPE_OR].

Definition VALID_METHODS : list string :=
  [TYPE_EQUAL; TYPE_NOT_EQUAL; TYPE_LESS_THAN; TYPE_LESS_THAN_EQUAL;
   TYPE_GREATER_THAN; TYPE_GREATER_THAN_EQUAL; TYPE_CONTAINS;
   TYPE_NOT_CONTAINS; TYPE_SEARCH; TYPE_NOT_SEARCH; TYPE_IS_NULL;
   TYPE_IS_NOT_NULL; TYPE_BETWEEN; TYPE_STARTS_WITH; TYPE_NOT_STARTS_WITH;
   TYPE_ENDS_WITH; TYPE_NOT_ENDS_WITH; TYPE_LIMIT; TYPE_OFFSET;
   TYPE_ORDER_ASC; TYPE_ORDER_DESC; TYPE_SELECT; TYPE_AND; TYPE_OR].

(** [Query.LOGICAL_METHODS.has(m)]. *)
Definition isLogical (m : string) : bool := LogicalMethods.has m.

Definition isMethod (m : string) : bool := existsb (String.eqb m) VALID_METHODS.

(** The instance as a value. *)
Definition instance (q : Query) : value :=
  VQuery (method q) (attribute q) (values q).

(** [json.k] for whatever [json] is at run time and [k] one of [method],
    [attribute] and [values]: reading a property of [null] or [undefined]
    throws, a Query instance has its three fields, and a primitive or a
    Document has none of the three names. Neither has an array, but for
    [values], which [fromJSON] never reads on one: it reads [method] first
    and rejects the array for it. *)
Definition field (json : value) (k : string) : result value :=
  match json with
  | VUndefined | VNull =>
      Throw (TypeError ("Cannot read properties of " ++ ToString json))
  | VObject props => Ok (prop k props)
  | VQuery m a vs => Ok (prop k (Doc.queryEntries m a vs))
  | _ => Ok VUndefined
  end.

(** The constructor, and [fromJSON], which ends in a call to it. Fuel is
    spent on the nested calls of a logical query; a query of another method
    makes none. *)
Fixpoint construct (fuel : nat) (method attribute : string) (values : list value)
  : result Query :=
  if isLogical method then
    match fuel with
    | O => Beyond OutOfFuel
    | S fuel =>
        vs <- mapM
                (fun val =>
                   match val with
                   | VQuery m a vs =>
                       c <- construct fuel m a vs ;; Ok (instance c)
                   | VArray _ | VObject _ | VDocument _ =>
                       q <- fromJSON fuel val ;; Ok (instance q)
                   | _ =>
                       Throw (TypeError "Logical queries must contain Query instances")
                   end) values ;;
        Ok (mkQuery method attribute vs)
    end
  else Ok (mkQuery method attribute values)

with fromJSON (fuel : nat) (json : value) : result Query :=
  match fuel with
  | O => Beyond OutOfFuel
  | S fuel =>
      m <- field json "method" ;;
      match m with
      | VString method =>
          if negb (isMethod method) then
            Throw (Error ("Invalid query method: " ++ method))
          else
            a <- field json "attribute" ;;
            attribute <-
              (match a with
               | VUndefined | VNull => Ok ""
               | VString s => Ok s
               | _ => Beyond NonStringAttribute
               end) ;;
            vs <- field json "values" ;;
            entries <-
              (match vs with
               | VUndefined | VNull => Ok []
               | VArray items => Ok items
               | _ => Throw (TypeError "(json.values ?? []).map is not a function")
               end) ;;
            values <- mapM
                        (fun entry =>
                           if isLogical method then
                             q <- fromJSON fuel entry ;; Ok (instance q)
                           else Ok entry) entries ;;
            construct fuel method attribute values
      | _ => Throw (Error ("Invalid query method: " ++ ToString m))
      end
  end.

Definition clone (fuel : nat) (this : Query) : result Query :=
  construct fuel (method this) (attribute this) (values this).

Definition getMethod (this : Query) : string := method this.
Definition getAttribute (this : Query) : string := attribute this.
Definition getValues (this : Query) : list value := values this.

(** [toJSON], on the instance as a value. *)
Fixpoint export (v : value) : result object :=
  match v with
  | VQuery m a vs =>
      vals <-
        (if isLogical m then
           mapM (fun val =>
                   match val with
                   | VQuery _ _ _ => j <- export val ;; Ok (VObject j)
                   | VDocument _ => Ok (VObject (Doc.export val))
                   | _ => Throw (TypeError "value.toJSON is not a function")
                   end) vs
         else
           Ok (map (fun val =>
                      match val with
                      | VDocument d => Doc.getId (mkDocument d)
                      | _ => val
                      end) vs)) ;;
      Ok (("method", VString m)
            :: (if String.eqb a "" then [] else [("attribute", VString a)])
            ++ [("values", VArray vals)])%list
  | _ => Throw (TypeError "not a Query")
  end.

Definition toJSON (this : Query) : result object := export (instance this).

Definition toString (this : Query) : result string :=
  j <- toJSON this ;;
  match JSON.stringify (VObject j) with
  | Some t => Ok t
  | None => Throw (TypeError "undefined")
  end.

Definition parse (fuel : nat) (text : string) : result Query :=
  parsed <- JSON.parse fuel text ;; fromJSON fuel parsed.

(** The static factories. [Array.isArray(value) ? value : [value]]. *)
Definition asArray (val : value) : list value :=
  match val with
  | VArray items => items
  | _ => [val]
  end.

Definition equal (attribute : string) (values : list value) :=
  construct 0 TYPE_EQUAL attribute values.
Definition notEqual (attribute : string) (val : value) :=
  construct 0 TYPE_NOT_EQUAL attribute (asArray val).
Definition lessThan (attribute : string) (val : value) :=
  construct 0 TYPE_LESS_THAN attribute [val].
Definition lessThanEqual (attribute : string) (val : value) :=
  construct 0 TYPE_LESS_THAN_EQUAL attribute [val].
Definition greaterThan (attribute : string) (val : value) :=
  construct 0 TYPE_GREATER_THAN attribute [val].
Definition greaterThanEqual (attribute : string) (val : value) :=
  construct 0 TYPE_GREATER_THAN_EQUAL attribute [val].
Definition notContains (attribute : string) (val : value) :=
  construct 0 TYPE_NOT_CONTAINS attribute (asArray val).
Definition search (attribute : string) (val : string) :=
  construct 0 TYPE_SEARCH attribute [VString val].
Definition notSearch (attribute : string) (val : string) :=
  construct 0 TYPE_NOT_SEARCH attribute [VString val].
Definition isNull (attribute : string) :=
  construct 0 TYPE_IS_NULL attribute [].
Definition isNotNull (attribute : string) :=
  construct 0 TYPE_IS_NOT_NULL attribute [].
Definition between (attribute : string) (start end_ : value) :=
  construct 0 TYPE_BETWEEN attribute [start; end_].
Definition startsWith (attribute : string) (val : string) :=
  construct 0 TYPE_STARTS_WITH attribute [VString val].
Definition notStartsWith (attribute : string) (val : string) :=
  construct 0 TYPE_NOT_STARTS_WITH attribute [VString val].
Definition endsWith (attribute : string) (val : string) :=
  construct 0 TYPE_ENDS_WITH attribute [VString val].
Definition notEndsWith (attribute : string) (val : string) :=
  construct 0 TYPE_NOT_ENDS_WITH attribute [VString val].
Definition limit (val : Z) :=
  construct 0 TYPE_LIMIT "" [VNumber val].
Definition offset (val : Z) :=
  construct 0 TYPE_OFFSET "" [VNumber val].
Definition orderAsc (attribute : string) :=
  construct 0 TYPE_ORDER_ASC attribute [].
Definition orderDesc (attribute : string) :=
  construct 0 TYPE_ORDER_DESC attribute [].
Definition select (fields : list string) :=
  construct 0 TYPE_SELECT "" (map VString fields).
Definition and (fuel : nat) (queries : list Query) :=
  construct fuel TYPE_AND "" (map instance queries).
Definition or (fuel : nat) (queries : list Query) :=
  construct fuel TYPE_OR "" (map instance queries).

End Qry.

(** ** adapter/Adapter.ts *)

Record AttributeSchema : Type :=
  mkAttributeSchema {
      attr_key : string;
      attr_type : string;
      attr_required : option bool;
      attr_default : option value }.

Record IndexSchema : Type :=
  mkIndexSchema {
      index_key : string;
      index_attributes : list string;
      index_type : option string }.

Record CollectionSchema : Type :=
  mkCollectionSchema {
      name : string;
      attributes : option (list AttributeSchema);
      indexes : option (list IndexSchema) }.

(** ** [Map<string, V>]: keys in insertion order *)

Module JsMap.

Section Map.

Context {V : Type}.

Definition t : Type := list (string * V).

Fixpoint get (k : string) (m : t) : option V :=
  match m with
  | [] => None
  | (k', v) :: rest => if String.eqb k k' then Some v else get k rest
  end.

(** [m.set(k, v)]: a key already present keeps its position. *)
Fixpoint set (k : string) (v : V) (m : t) : t :=
  match m with
  | [] => [(k, v)]
  | (k', v') :: rest =>
      if String.eqb k k' then (k, v) :: rest else (k', v') :: set k v rest
  end.

Definition has (k : string) (m : t) : bool :=
  match get k m with
  | Some _ => true
  | None => false
  end.

(** [m.delete(k)]: the map without [k]; the boolean [m.delete] returns is
    [has k m]. *)
Fixpoint delete (k : string) (m : t) : t :=
  match m with
  | [] => []
  | (k', v') :: rest =>
      if String.eqb k k' then rest else (k', v') :: delete k rest
  end.

Definition values (m : t) : list V := map snd m.

End Map.

Arguments t V : clear implicits.

End JsMap.

(** ** adapter/MemoryAdapter.ts *)

Record StoredCollection : Type :=
  mkStoredCollection {
      schema : CollectionSchema;
      documents : JsMap.t Document }.

Record MemoryAdapter : Type :=
  mkMemoryAdapter { collections : JsMap.t StoredCollection }.

Inductive direction : Type := asc | desc.

(** [Array.prototype.slice(start, end)]: a negative index counts from the end
    and both are clamped to the length. *)
Definition slice {A : Type} (l : list A) (start : Z) (end_ : option Z) : list A :=
  let len := Z.of_nat (List.length l) in
  let clamp i := if i <? 0 then Z.max (len + i) 0 else Z.min i len in
  let k := clamp start in
  let final := match end_ with
               | Some e => clamp e
               | None => len
               end in
  firstn (Z.to_nat (Z.max (final - k) 0)) (skipn (Z.to_nat k) l).

(** [Array.prototype.sort(cmp)], which is stable: a stable insertion sort. An
    element is placed before the first one it does not compare greater than,
    so that elements comparing equal keep their order. The language fixes
    the outcome for a comparator that is a consistent order, on which every
    stable sort returns the same array; for any other the outcome is the
    engine's choice, and this is one such choice. *)
Fixpoint insertSorted {A : Type} (cmp : A -> A -> Z) (x : A) (l : list A) : list A :=
  match l with
  | [] => [x]
  | y :: rest =>
      if cmp x y <=? 0 then x :: l else y :: insertSorted cmp x rest
  end.

Fixpoint sort {A : Type} (cmp : A -> A -> Z) (l : list A) : list A :=
  match l with
  | [] => []
  | x :: rest => insertSorted cmp x (sort cmp rest)
  end.

Module Adapter.

Definition compareValues (a b : value) : Z :=
  if strict_equal a b then 0
  else if nullish a then -1
  else if nullish b then 1
  else
    match a, b with
    | VNumber x, VNumber y => x - y
    | _, _ =>
        let aString := ToString a in
        let bString := ToString b in
        if String.eqb aString bString then 0
        else if String.ltb bString aString then 1 else -1
    end.

Definition containsValue (source : value) (candidates : list value) : bool :=
  match source with
  | VArray items =>
      forallb (fun candidate =>
                 existsb (fun item => compareValues item candidate =? 0) items)
        candidates
  | _ => existsb (fun candidate => compareValues source candidate =? 0) candidates
  end.

(** [needle] is declared a string; [needle.toLowerCase()] throws on anything
    else. *)
Definition search (source needle : value) : result bool :=
  match source with
  | VString s =>
      match needle with
      | VString n => Ok (Str.includes (Str.toLowerCase s) (Str.toLowerCase n))
      | _ => Throw (TypeError "needle.toLowerCase is not a function")
      end
  | _ => Ok false
  end.

Definition startsWith (source prefix : value) : bool :=
  match source with
  | VString s => Str.startsWith s (ToString prefix)
  | _ => false
  end.

Definition endsWith (source suffix : value) : bool :=
  match source with
  | VString s => Str.endsWith s (ToString suffix)
  | _ => false
  end.

Definition negM (r : result bool) : result bool := b <- r ;; Ok (negb b).

(** [evaluate], on the query as a value: the operands of a logical query are
    values, and calling [getMethod] on one that is no Query throws. *)
Fixpoint evaluateValue (document : Document) (query : value) : result bool :=
  match query with
  | VQuery method attribute values =>
      if (String.eqb method Qry.TYPE_AND || String.eqb method Qry.TYPE_OR)%bool then
        if String.eqb method Qry.TYPE_AND
        then everyM (fun nested => evaluateValue document nested) values
        else someM (fun nested => evaluateValue document nested) values
      else
        let val := Doc.getAttribute document attribute VUndefined in
        let first := nth 0 values VUndefined in
        let second := nth 1 values VUndefined in
        if String.eqb method Qry.TYPE_EQUAL then
          Ok (existsb (fun candidate => compareValues val candidate =? 0) values)
        else if String.eqb method Qry.TYPE_NOT_EQUAL then
          Ok (forallb (fun candidate => negb (compareValues val candidate =? 0)) values)
        else if String.eqb method Qry.TYPE_LESS_THAN then
          Ok (compareValues val first <? 0)
        else if String.eqb method Qry.TYPE_LESS_THAN_EQUAL then
          Ok (compareValues val first <=? 0)
        else if String.eqb method Qry.TYPE_GREATER_THAN then
          Ok (compareValues val first >? 0)
        else if String.eqb method Qry.TYPE_GREATER_THAN_EQUAL then
          Ok (compareValues val first >=? 0)
        else if String.eqb method Qry.TYPE_CONTAINS then
          Ok (containsValue val values)
        else if String.eqb method Qry.TYPE_NOT_CONTAINS then
          Ok (negb (containsValue val values))
        else if String.eqb method Qry.TYPE_SEARCH then
          search val first
        else if String.eqb method Qry.TYPE_NOT_SEARCH then
          negM (search val first)
        else if String.eqb method Qry.TYPE_IS_NULL then
          Ok (nullish val)
        else if String.eqb method Qry.TYPE_IS_NOT_NULL then
          Ok (negb (nullish val))
        else if String.eqb method Qry.TYPE_BETWEEN then
          Ok ((compareValues val first >=? 0) && (compareValues val second <=? 0))%bool
        else if String.eqb method Qry.TYPE_STARTS_WITH then
          Ok (startsWith val first)
        else if String.eqb method Qry.TYPE_NOT_STARTS_WITH then
          Ok (negb (startsWith val first))
        else if String.eqb method Qry.TYPE_ENDS_WITH then
          Ok (endsWith val first)
        else if String.eqb method Qry.TYPE_NOT_ENDS_WITH then
          Ok (negb (endsWith val first))
        else Ok true
  | _ => Throw (TypeError "query.getMethod is not a function")
  end.

Definition evaluate (document : Document) (query : Query) : result bool :=
  evaluateValue document (Qry.instance query).

Definition signed (d : direction) (z : Z) : Z :=
  match d with
  | asc => z
  | desc => - z
  end.

Fixpoint compareDocuments (a b : Document) (order : list (string * direction)) : Z :=
  match order with
  | [] => 0
  | (attribute, direction) :: rest =>
      let aValue := Doc.getAttribute a attribute VUndefined in
      let bValue := Doc.getAttribute b attribute VUndefined in
      if strict_equal aValue bValue then compareDocuments a b rest
      else if nullish aValue then
        match direction with asc => -1 | desc => 1 end
      else if nullish bValue then
        match direction with asc => 1 | desc => -1 end
      else if greaterThan aValue bValue then
        match direction with asc => 1 | desc => -1 end
      else if lessThan aValue bValue then
        match direction with asc => -1 | desc => 1 end
      else compareDocuments a b rest
  end.

Definition applySelect (fuel : nat) (document : Document) (select : list string)
  : result Document :=
  let selected :=
    fold_left
      (fun selected field =>
         Obj.assign field (Doc.getAttribute document field VUndefined) selected)
      select [] in
  let selected := Obj.assign "$id" (Doc.getId document) selected in
  let selected := Obj.assign "$collection" (Doc.getCollection document) selected in
  Doc.construct fuel selected.

(** What the first loop of [applyQueries] collects. *)
Record plan : Type :=
  mkPlan {
      filters : list Query;
      order : list (string * direction);
      limit : option Z;
      offset : Z;
      select : option (list string) }.

Definition emptyPlan : plan := mkPlan [] [] None 0 None.

Definition stringsOf (vs : list value) : option (list string) :=
  fold_right
    (fun v acc =>
       match v, acc with
       | VString s, Some l => Some (s :: l)
       | _, _ => None
       end) (Some []) vs.

Definition collect (p : plan) (query : Query) : plan :=
  let m := Qry.getMethod query in
  if String.eqb m Qry.TYPE_LIMIT then
    match nth 0 (Qry.getValues query) VUndefined with
    | VNumber n => mkPlan (filters p) (order p) (Some n) (offset p) (select p)
    | _ => p
    end
  else if String.eqb m Qry.TYPE_OFFSET then
    match nth 0 (Qry.getValues query) VUndefined with
    | VNumber n => mkPlan (filters p) (order p) (limit p) n (select p)
    | _ => p
    end
  else if (String.eqb m Qry.TYPE_ORDER_ASC || String.eqb m Qry.TYPE_ORDER_DESC)%bool then
    mkPlan (filters p)
      (order p ++ [(Qry.getAttribute query,
                     if String.eqb m Qry.TYPE_ORDER_ASC then asc else desc)])%list
      (limit p) (offset p) (select p)
  else if String.eqb m Qry.TYPE_SELECT then
    match stringsOf (Qry.getValues query) with
    | Some fields => mkPlan (filters p) (order p) (limit p) (offset p) (Some fields)
    | None => p
    end
  else mkPlan (filters p ++ [query])%list (order p) (limit p) (offset p) (select p).

Definition partition (queries : list Query) : plan :=
  fold_left collect queries emptyPlan.

(** The documents that pass every filter, in the order asked for. *)
Definition filterAndOrder (p : plan) (documents : list Document)
  : result (list Document) :=
  kept <- filterM
            (fun document => everyM (fun f => evaluate document f) (filters p))
            documents ;;
  Ok (match order p with
      | [] => kept
      | _ => sort (fun a b => compareDocuments a b (order p)) kept
      end).

Definition paginate (p : plan) (res : list Document) : list Document :=
  let res := if offset p =? 0 then res else slice res (offset p) None in
  match limit p with
  | Some n => slice res 0 (Some n)
  | None => res
  end.

Definition project (fuel : nat) (p : plan) (res : list Document)
  : result (list Document) :=
  match select p with
  | Some (f :: fs) => mapM (fun document => applySelect fuel document (f :: fs)) res
  | _ => Ok res
  end.

Definition applyQueries (fuel : nat) (documents : list Document)
  (queries : list Query) : result (list Document) :=
  let p := partition queries in
  res <- filterAndOrder p documents ;;
  project fuel p (paginate p res).

End Adapter.

(** The methods of the adapter. Each takes the adapter and returns what the
    call produces (a rejected promise is a [Throw]) with the adapter after the
    call. *)
Module Memory.

Definition call (A : Type) : Type := MemoryAdapter -> result A * MemoryAdapter.

Definition createCollection (schema : CollectionSchema) : call unit :=
  fun this =>
    let normalised :=
      mkCollectionSchema (name schema)
        (Some match attributes schema with
              | Some l => l
              | None => []
              end)
        (Some match indexes schema with
              | Some l => l
              | None => []
              end) in
    (Ok tt,
      mkMemoryAdapter
        (JsMap.set (name schema) (mkStoredCollection normalised []) (collections this))).

Definition deleteCollection (name : string) : call unit :=
  fun this => (Ok tt, mkMemoryAdapter (JsMap.delete name (collections this))).

Definition listCollections : call (list CollectionSchema) :=
  fun this => (Ok (map schema (JsMap.values (collections this))), this).

Definition requireCollection (this : MemoryAdapter) (name : string)
  : result StoredCollection :=
  match JsMap.get name (collections this) with
  | Some collection => Ok collection
  | None => Throw (Error ("Collection '" ++ name ++ "' does not exist"))
  end.

(** [stored.documents.set(id, document)] on the collection [collection] of
    the adapter. *)
Definition store (this : MemoryAdapter) (collection : string)
  (stored : StoredCollection) (id : string) (document : Document) : MemoryAdapter :=
  mkMemoryAdapter
    (JsMap.set collection
       (mkStoredCollection (schema stored) (JsMap.set id document (documents stored)))
       (collections this)).

(** The key is [document.getId()], which is read before the clone is made.
    [getId] gives a string unless [$id] was set to something else through
    [setAttribute], and on such a Document the clone throws: only a string
    reaches [Map.set], and the branch [NonStringKey] is there for the match
    to be complete. *)
Definition createDocument (fuel : nat) (collection : string) (document : Document)
  : call Document :=
  fun this =>
    match requireCollection this collection with
    | Ok stored =>
        let id := Doc.getId document in
        match Doc.clone fuel document with
        | Ok copy =>
            match id with
            | VString id =>
                let this' := store this collection stored id copy in
                (Doc.clone fuel document, this')
            | _ => (Beyond NonStringKey, this)
            end
        | Throw e => (Throw e, this)
        | Beyond l => (Beyond l, this)
        end
    | Throw e => (Throw e, this)
    | Beyond l => (Beyond l, this)
    end.

Definition updateDocument (fuel : nat) (collection : string) (document : Document)
  : call Document :=
  fun this =>
    match requireCollection this collection with
    | Ok stored =>
        let id := Doc.getId document in
        match Doc.clone fuel document with
        | Ok copy =>
            match id with
            | VString id =>
                let this' := store this collection stored id copy in
                (Doc.clone fuel document, this')
            | _ => (Beyond NonStringKey, this)
            end
        | Throw e => (Throw e, this)
        | Beyond l => (Beyond l, this)
        end
    | Throw e => (Throw e, this)
    | Beyond l => (Beyond l, this)
    end.

Definition deleteDocument (collection : string) (id : string) : call bool :=
  fun this =>
    match requireCollection this collection with
    | Ok stored =>
        (Ok (JsMap.has id (documents stored)),
          mkMemoryAdapter
            (JsMap.set collection
               (mkStoredCollection (schema stored) (JsMap.delete id (documents stored)))
               (collections this)))
    | Throw e => (Throw e, this)
    | Beyond l => (Beyond l, this)
    end.

(** [Document | null]: [None] is [null]. *)
Definition getDocument (fuel : nat) (collection : string) (id : string)
  : call (option Document) :=
  fun this =>
    match JsMap.get collection (collections this) with
    | None => (Ok None, this)
    | Some stored =>
        match JsMap.get id (documents stored) with
        | Some document =>
            (c <- Doc.clone fuel document ;; Ok (Some c), this)
        | None => (Ok None, this)
        end
    end.

Definition listDocuments (fuel : nat) (collection : string) (queries : list Query)
  : call (list Document) :=
  fun this =>
    match JsMap.get collection (collections this) with
    | None => (Ok [], this)
    | Some stored =>
        (documents <- mapM (Doc.clone fuel) (JsMap.values (documents stored)) ;;
         Adapter.applyQueries fuel documents queries, this)
    end.

End Memory.

(** ** Database.ts

    The facade is written against the interface [Adapter] of
    [adapter/Adapter.ts]: a class of the eight methods over the state of
    the backend, of which [MemoryAdapter] is the instance. The clock and the
    random source are inputs: [now] is what [new Date().toISOString()] gives
    at the call and [generated] what [generateId()] would return. *)

Class AdapterOps (S : Type) : Type :=
  mkAdapterOps {
      ops_createCollection : CollectionSchema -> S -> result unit * S;
      ops_deleteCollection : string -> S -> result unit * S;
      ops_listCollections : S -> result (list CollectionSchema) * S;
      ops_createDocument : string -> Document -> S -> result Document * S;
      ops_updateDocument : string -> Document -> S -> result Document * S;
      ops_deleteDocument : string -> string -> S -> result bool * S;
      ops_getDocument : string -> string -> S -> result (option Document) * S;
      ops_listDocuments : string -> list Query -> S -> result (list Document) * S }.

(** [MemoryAdapter implements Adapter], with the fuel its clones run on. *)
Definition memoryOps (fuel : nat) : AdapterOps MemoryAdapter :=
  mkAdapterOps MemoryAdapter
    Memory.createCollection
    Memory.deleteCollection
    Memory.listCollections
    (Memory.createDocument fuel)
    (Memory.updateDocument fuel)
    Memory.deleteDocument
    (Memory.getDocument fuel)
    (Memory.listDocuments fuel).

Record CreateDocumentOptions : Type :=
  mkCreateDocumentOptions {
      options_id : option string;
      options_permissions : option (list string) }.

Record ListDocumentsOptions : Type :=
  mkListDocumentsOptions { options_queries : option (list Query) }.

Record Database (S : Type) : Type :=
  mkDatabase { namespace : string; adapter : S }.

Arguments mkDatabase {S} namespace adapter.
Arguments namespace {S} d.
Arguments adapter {S} d.

Module Db.

Section Facade.

Context {S : Type} (ops : AdapterOps S).

Definition call (A : Type) : Type := Database S -> result A * Database S.

(** A call handed over to the adapter: its outcome, and the database around
    the adapter after the call. *)
Definition delegate {A : Type} (this : Database S) (run : S -> result A * S)
  : result A * Database S :=
  let (outcome, after) := run (adapter this) in
  (outcome, mkDatabase (namespace this) after).

Definition construct (adapter : S) : Database S := mkDatabase "default" adapter.

Definition setNamespace (namespace : string) : call unit :=
  fun this => (Ok tt, mkDatabase namespace (adapter this)).

Definition getNamespace (this : Database S) : string := namespace this.

Definition createCollection (schema : CollectionSchema) : call unit :=
  fun this => delegate this (ops_createCollection schema).

Definition deleteCollection (name : string) : call unit :=
  fun this => delegate this (ops_deleteCollection name).

Definition listCollections : call (list CollectionSchema) :=
  fun this => delegate this ops_listCollections.

(** The object literal [{ ...data, $id, $collection, $createdAt, $updatedAt }]
    of [createDocument], which defines the own properties of [data] and then
    the four keys, with [$permissions] assigned when the options have
    them. *)
Definition payload (now generated : string) (collection : string) (data : object)
  (options : CreateDocumentOptions) : object :=
  let id := match options_id options with
            | Some id => id
            | None => generated
            end in
  let payload := data in
  let payload := Obj.set "$id" (VString id) payload in
  let payload := Obj.set "$collection" (VString collection) payload in
  let payload := Obj.set "$createdAt" (VString now) payload in
  let payload := Obj.set "$updatedAt" (VString now) payload in
  match options_permissions options with
  | Some permissions =>
      Obj.assign "$permissions" (VArray (map VString permissions)) payload
  | None => payload
  end.

Definition createDocument (fuel : nat) (now generated : string) (collection : string)
  (data : object) (options : CreateDocumentOptions) : call Document :=
  fun this =>
    match Doc.construct fuel (payload now generated collection data options) with
    | Ok document => delegate this (ops_createDocument collection document)
    | Throw e => (Throw e, this)
    | Beyond l => (Beyond l, this)
    end.

(** What [updateDocument] builds the new Document from: the export of the
    stored one, the entries of [data] written over it, and the time. *)
Definition merge (now : string) (existing : Document) (data : object) : object :=
  let merged := Doc.toJSON existing in
  let merged :=
    fold_left (fun merged kv => Obj.assign (fst kv) (snd kv) merged) data merged in
  Obj.assign "$updatedAt" (VString now) merged.

Definition missing (collection id : string) : exn :=
  Error ("Document '" ++ id ++ "' not found in collection '" ++ collection ++ "'").

Definition updateDocument (fuel : nat) (now : string) (collection id : string)
  (data : object) : call Document :=
  fun this =>
    let (found, this) := delegate this (ops_getDocument collection id) in
    match found with
    | Ok (Some existing) =>
        match Doc.construct fuel (merge now existing data) with
        | Ok document => delegate this (ops_updateDocument collection document)
        | Throw e => (Throw e, this)
        | Beyond l => (Beyond l, this)
        end
    | Ok None => (Throw (missing collection id), this)
    | Throw e => (Throw e, this)
    | Beyond l => (Beyond l, this)
    end.

Definition getDocument (collection id : string) : call (option Document) :=
  fun this => delegate this (ops_getDocument collection id).

Definition deleteDocument (collection id : string) : call bool :=
  fun this => delegate this (ops_deleteDocument collection id).

Definition listDocuments (fuel : nat) (collection : string)
  (options : ListDocumentsOptions) : call (list Document) :=
  fun this =>
    let queries := match options_queries options with
                   | Some queries => queries
                   | None => []
                   end in
    match mapM (Qry.clone fuel) queries with
    | Ok clones => delegate this (ops_listDocuments collection clones)
    | Throw e => (Throw e, this)
    | Beyond l => (Beyond l, this)
    end.

End Facade.

End Db.

(** * Notions the properties are stated with *)

(** ** Kinds of value

    The kinds the comparison of [compareDocuments] and the comparator
    [compareValues] treat alike: a missing value, a boolean, a number, and
    text, which is a string or anything compared through its string. *)

Inductive kind : Type := KMissing | KBoolean | KNumber | KText.

Definition kindOf (v : value) : kind :=
  match v with
  | VUndefined | VNull => KMissing
  | VBool _ => KBoolean
  | VNumber _ => KNumber
  | _ => KText
  end.

Definition kind_eqb (k l : kind) : bool :=
  match k, l with
  | KMissing, KMissing | KBoolean, KBoolean | KNumber, KNumber | KText, KText => true
  | _, _ => false
  end.

(** One of the two is missing, or they are of one kind. *)
Definition comparable (a b : value) : bool :=
  (nullish a || nullish b || kind_eqb (kindOf a) (kindOf b))%bool.

(** ** Operands of [contains] *)

(** [candidate] is found among [items]: the comparator gives 0 on one of
    them. *)
Definition found (candidate : value) (items : list value) : Prop :=
  exists item, In item items /\ Adapter.compareValues item candidate = 0.


(** ** Queries by method *)

Definition hasMethod (m : string) (q : Query) : bool := String.eqb (Qry.getMethod q) m.

(** ** The error of [requireCollection] *)

Definition notFound (collection : string) : exn :=
  Error ("Collection '" ++ collection ++ "' does not exist").

(** ** Deep equality

    Structural equality of two values as a strict deep-equal assertion
    decides it: the same sort of value on both sides, arrays item by item,
    objects property by property whatever the order of the keys, and an
    instance of a class against instances of that class only. An assertion
    that disregards classes compares the own properties of the instances
    instead, which is [deepEqual] after [ownProperties]. *)

Fixpoint deepEqual (a b : value) : bool :=
  match a, b with
  | VUndefined, VUndefined => true
  | VNull, VNull => true
  | VBool x, VBool y => Bool.eqb x y
  | VNumber x, VNumber y => Z.eqb x y
  | VString x, VString y => String.eqb x y
  | VArray xs, VArray ys =>
      (fix all (xs ys : list value) : bool :=
         match xs, ys with
         | [], [] => true
         | x :: xs, y :: ys => deepEqual x y && all xs ys
         | _, _ => false
         end) xs ys
  | VObject xs, VObject ys | VDocument xs, VDocument ys =>
      Nat.eqb (List.length xs) (List.length ys)
      && (fix all (xs : list (string * value)) : bool :=
            match xs with
            | [] => true
            | (k, x) :: xs =>
                match Obj.get k ys with
                | Some y => deepEqual x y && all xs
                | None => false
                end
            end) xs
  | VQuery m a xs, VQuery m' a' ys =>
      String.eqb m m' && String.eqb a a'
      && (fix all (xs ys : list value) : bool :=
            match xs, ys with
            | [], [] => true
            | x :: xs, y :: ys => deepEqual x y && all xs ys
            | _, _ => false
            end) xs ys
  | _, _ => false
  end.

(** The value with every instance replaced by the plain object of its own
    properties: a Document has one, its record [data], and a Query its three
    fields. *)
Fixpoint ownProperties (v : value) : value :=
  match v with
  | VArray items => VArray (map ownProperties items)
  | VObject props =>
      VObject (map (fun kv => (fst kv, ownProperties (snd kv))) props)
  | VDocument entries =>
      VObject
        [("data",
           VObject (map (fun kv => (fst kv, ownProperties (snd kv))) entries))]
  | VQuery m a vs =>
      VObject [("method", VString m); ("attribute", VString a);
               ("values", VArray (map ownProperties vs))]
  | _ => v
  end.

(** ** Nesting depth, the measure fuel is compared with *)

Local Open Scope nat_scope.

Fixpoint height (v : value) : nat :=
  match v with
  | VArray items => S (list_max (map height items))
  | VObject props | VDocument props =>
      S (list_max (map (fun kv => height (snd kv)) props))
  | VQuery _ _ vs => S (S (list_max (map height vs)))
  | _ => 0
  end.

Definition heights (o : object) : nat := list_max (map (fun kv => height (snd kv)) o).

(** [f] returns or throws a TypeError on every value of height at most
    [bound], and what it returns is no higher than what it received. *)
Definition settles (f : value -> result value) (bound : nat) : Prop :=
  forall v, height v <= bound ->
            (exists v', f v = Ok v' /\ height v' <= height v)
            \/ (exists msg, f v = Throw (TypeError msg)).



(** ** JSON trees and the values they denote *)

Fixpoint valueOf (j : json) : value :=
  match j with
  | JNull => VNull
  | JBool b => VBool b
  | JNumber n => VNumber n
  | JString s => VString s
  | JArray items => VArray (map valueOf items)
  | JObject members => VObject (map (fun kv => (fst kv, valueOf (snd kv))) members)
  end.

(** The number of arrays, objects, items and members of a tree: the fuel that
    reading its text takes. *)
Fixpoint weight (j : json) : nat :=
  match j with
  | JArray items => S (list_sum (map (fun x => S (weight x)) items))
  | JObject members => S (list_sum (map (fun kv => S (weight (snd kv))) members))
  | _ => 0
  end.

Definition weights (items : list json) : nat :=
  list_sum (map (fun x => S (weight x)) items).

Definition memberWeights (members : list (string * json)) : nat :=
  list_sum (map (fun kv => S (weight (snd kv))) members).

Fixpoint distinct (keys : list string) : bool :=
  match keys with
  | [] => true
  | k :: rest => negb (existsb (String.eqb k) rest) && distinct rest
  end.

(** No object of the tree has a key twice. *)
Fixpoint wellKeyed (j : json) : bool :=
  match j with
  | JArray items => forallb wellKeyed items
  | JObject members =>
      distinct (map fst members) && forallb (fun kv => wellKeyed (snd kv)) members
  | _ => true
  end.

(** What may follow a value inside a text: nothing, or a separator. *)
Definition delimited (rest : string) : Prop :=
  rest = "" \/ exists r, rest = String "," r \/ rest = String "]" r \/ rest = String "}" r.

(** A character that starts a value. *)
Definition opening (c : ascii) : Prop :=
  JSON.isSpace c = false /\ Ascii.eqb c "]" = false /\ Ascii.eqb c "}" = false.

(** The text of one member of an object. *)
Definition memberText (kv : string * json) : string :=
  JSON.quote (fst kv) ++ ":" ++ JSON.text (snd kv).

(** A tree of weight at most [n] is read back whatever follows it. *)
Definition reads (n : nat) : Prop :=
  forall j, weight j <= n -> wellKeyed j = true ->
  forall fuel rest, weight j < fuel -> delimited rest ->
    JSON.parseValue fuel (JSON.text j ++ rest) = Ok (valueOf j, rest).

(** JSON data: what [JSON.parse] can return. *)
Fixpoint isPlain (v : value) : bool :=
  match v with
  | VNull | VBool _ | VNumber _ | VString _ => true
  | VArray items => forallb isPlain items
  | VObject props =>
      distinct (map fst props) && forallb (fun kv => isPlain (snd kv)) props
  | _ => false
  end.

(** ** Queries that survive serialization *)

(** What [toJSON] writes for an operand of a query that is not logical. *)
Definition operandOut (x : value) : value :=
  match x with
  | VDocument d => Doc.getId (mkDocument d)
  | _ => x
  end.

Definition operandOk (x : value) : bool :=
  match x with
  | VDocument d => isString (Doc.getId (mkDocument d))
  | _ => isPlain x
  end.

(** A query of a valid method whose operands are queries of the same sort,
    for a logical method, and JSON data or Documents with a string [$id], for
    any other. *)
Fixpoint roundtrips (v : value) : bool :=
  match v with
  | VQuery m a vs =>
      Qry.isMethod m
      && (if Qry.isLogical m then
            forallb (fun x => match x with
                              | VQuery _ _ _ => roundtrips x
                              | _ => false
                              end) vs
          else forallb operandOk vs)
  | _ => false
  end.

(** The query with its Document operands replaced by their [$id]. *)
Fixpoint reduce (v : value) : value :=
  match v with
  | VQuery m a vs =>
      VQuery m a (if Qry.isLogical m then map reduce vs else map operandOut vs)
  | _ => v
  end.

Definition reduced (q : Query) : Query :=
  match reduce (Qry.instance q) with
  | VQuery m a vs => mkQuery m a vs
  | _ => q
  end.

(** The object [toJSON] returns. *)
Fixpoint wire (v : value) : object :=
  match v with
  | VQuery m a vs =>
      (("method", VString m)
         :: (if String.eqb a "" then [] else [("attribute", VString a)])
         ++ [("values",
               VArray (if Qry.isLogical m
                       then map (fun x => VObject (wire x)) vs
                       else map operandOut vs))])%list
  | _ => []
  end.

(** No operand of the query, at any depth, is a Document. *)
Fixpoint documentFree (v : value) : bool :=
  match v with
  | VQuery m a vs =>
      if Qry.isLogical m then forallb documentFree vs
      else forallb (fun x => match x with
                             | VDocument _ => false
                             | _ => true
                             end) vs
  | _ => true
  end.

(** ** Documents as the constructor leaves them *)

(** [$id] is a string or missing, [$permissions] an array of strings or
    missing. *)
Definition metadataOk (o : object) : bool :=
  match Obj.get "$id" o with
  | Some v => nullish v || isString v
  | None => true
  end
  && match Obj.get "$permissions" o with
     | Some (VArray items) => forallb isString items
     | Some v => nullish v
     | None => true
     end.

(** ** Permissions *)

(** [set.add] on strings. *)
Definition addString (content : list string) (x : string) : list string :=
  if existsb (String.eqb x) content then content else (content ++ [x])%list.

(** All of a string but its last character. *)
Fixpoint dropLast (s : string) : string :=
  match s with
  | EmptyString => EmptyString
  | String c EmptyString => EmptyString
  | String c rest => String c (dropLast rest)
  end.

(** ** Attributes *)

(** The key is one of [RESERVED_KEYS]. *)
Definition reserved (k : string) : bool := existsb (String.eqb k) Doc.RESERVED_KEYS.

(** ** What the clone of a Document is built from *)

(** What [toJSON] writes for an item of an array, and for a value. *)
Definition exportedItem (item : value) : value :=
  match item with
  | VDocument _ => VObject (Doc.export item)
  | _ => item
  end.

Definition exported (val : value) : value :=
  match val with
  | VDocument _ => VObject (Doc.export val)
  | VArray items => VArray (map exportedItem items)
  | _ => val
  end.

Definition isDocument (v : value) : bool :=
  match v with
  | VDocument _ => true
  | _ => false
  end.

(** A value [toJSON] can have written: no Document, and no array with a
    Document among its items. *)
Definition shallow (v : value) : bool :=
  match v with
  | VDocument _ => false
  | VArray items => forallb (fun item => negb (isDocument item)) items
  | _ => true
  end.

(** What [replace] stores for one entry of its input. *)
Definition storedAs (prepare : value -> result value) (key : string) (val : value)
  : result value :=
  if (String.eqb key "$id" && negb (nullish val))%bool then
    if negb (isString val) then Throw (TypeError "$id must be of type string")
    else Ok val
  else if (String.eqb key "$permissions" && negb (nullish val))%bool then
    match val with
    | VArray items => Ok (VArray (map (fun x => VString (ToString x)) items))
    | _ => Throw (TypeError "$permissions must be an array")
    end
  else prepare val.

(** The loop [for (const [k, v] of Object.entries(o)) target[k] = f(k, v)]. *)
Fixpoint assignWith (f : string -> value -> result value)
  (entries : list (string * value)) (target : object) : result object :=
  match entries with
  | [] => Ok target
  | (key, val) :: rest =>
      v <- f key val ;; assignWith f rest (Obj.assign key v target)
  end.

(** The three ways a value that [prepareValue] returned is read again: as it
    is, behind [toJSON] as an item of an array, and behind [toJSON] as the
    value of a key. *)
Definition reproduces (prepare : value -> result value) (v w : value) : Prop :=
  prepare w = Ok w
  /\ (isDocument v = false -> prepare (exportedItem w) = Ok w)
  /\ (shallow v = true -> prepare (exported w) = Ok w).

(** ** Filters, modifiers and listings *)

(** The pairs of a filter method and the method that negates it. *)
Definition complements : list (string * string) :=
  [(Qry.TYPE_EQUAL, Qry.TYPE_NOT_EQUAL);
   (Qry.TYPE_CONTAINS, Qry.TYPE_NOT_CONTAINS);
   (Qry.TYPE_SEARCH, Qry.TYPE_NOT_SEARCH);
   (Qry.TYPE_IS_NULL, Qry.TYPE_IS_NOT_NULL);
   (Qry.TYPE_STARTS_WITH, Qry.TYPE_NOT_STARTS_WITH);
   (Qry.TYPE_ENDS_WITH, Qry.TYPE_NOT_ENDS_WITH);
   (Qry.TYPE_LESS_THAN, Qry.TYPE_GREATER_THAN_EQUAL);
   (Qry.TYPE_GREATER_THAN, Qry.TYPE_LESS_THAN_EQUAL)].

(** The methods [Adapter.evaluate] has a case for. *)
Definition FILTER_METHODS : list string :=
  [Qry.TYPE_AND; Qry.TYPE_OR; Qry.TYPE_EQUAL; Qry.TYPE_NOT_EQUAL; Qry.TYPE_LESS_THAN;
   Qry.TYPE_LESS_THAN_EQUAL; Qry.TYPE_GREATER_THAN; Qry.TYPE_GREATER_THAN_EQUAL;
   Qry.TYPE_CONTAINS; Qry.TYPE_NOT_CONTAINS; Qry.TYPE_SEARCH; Qry.TYPE_NOT_SEARCH;
   Qry.TYPE_IS_NULL; Qry.TYPE_IS_NOT_NULL; Qry.TYPE_BETWEEN; Qry.TYPE_STARTS_WITH;
   Qry.TYPE_NOT_STARTS_WITH; Qry.TYPE_ENDS_WITH; Qry.TYPE_NOT_ENDS_WITH].

(** The methods [applyQueries] takes out of the filters. *)
Definition MODIFIER_METHODS : list string :=
  [Qry.TYPE_LIMIT; Qry.TYPE_OFFSET; Qry.TYPE_ORDER_ASC; Qry.TYPE_ORDER_DESC;
   Qry.TYPE_SELECT].

Definition isModifier (q : Query) : bool :=
  existsb (String.eqb (Qry.getMethod q)) MODIFIER_METHODS.

(** The query holds on the document: [evaluate] returns true. *)
Definition holds (document : Document) (q : Query) : bool :=
  match Adapter.evaluate document q with
  | Ok true => true
  | _ => false
  end.

(** Every entry of the record is stored as it is when it is stored again,
    as it is and behind [toJSON]. *)
Definition settled (prepare : value -> result value) (o : object) : Prop :=
  forall k w, In (k, w) o ->
              storedAs prepare k w = Ok w /\ storedAs prepare k (exported w) = Ok w.

(** ** Queries as the constructor leaves them *)

(** A query whose operands, when its method is logical, are queries of the
    same sort. *)
Fixpoint queriesOnly (v : value) : bool :=
  match v with
  | VQuery m a vs =>
      if Qry.isLogical m then
        forallb (fun x => match x with
                          | VQuery _ _ _ => queriesOnly x
                          | _ => false
                          end) vs
      else true
  | _ => false
  end.

(** How deep logical queries are nested in a query. *)
Fixpoint nesting (v : value) : nat :=
  match v with
  | VQuery m a vs => if Qry.isLogical m then S (list_max (map nesting vs)) else 0%nat
  | _ => 0
  end.

(** A query of queries only, nested no deeper than the fuel. *)
Definition wellBuilt (fuel : nat) (q : Query) : Prop :=
  queriesOnly (Qry.instance q) = true /\ (nesting (Qry.instance q) <= fuel)%nat.

(** ** The facade *)

(** A value that construction and cloning keep: [replace] stores it as it
    is, and [toJSON] writes it as it is. *)
Definition carried (fuel : nat) (k : string) (v : value) : Prop :=
  exported v = v /\ forall w, storedAs (Doc.prepareValue fuel) k v = Ok w -> w = v.

(** The id [createDocument] gives the Document. *)
Definition createdId (generated : string) (options : CreateDocumentOptions) : string :=
  match options_id options with
  | Some id => id
  | None => generated
  end.

(** The keys [createDocument] writes itself. *)
Definition STAMPED_KEYS : list string :=
  ["$id"; "$collection"; "$createdAt"; "$updatedAt"; "$permissions"].

(** Two calls end alike: the same outcome, and the same state of the
    adapter. *)
Definition alike {S A : Type} (r r' : result A * Database S) : Prop :=
  fst r = fst r' /\ adapter (snd r) = adapter (snd r').

Local Open Scope Z_scope.

(** ** The comparator *)

(** The comparison of two strings, as [compareValues] ends. *)
Definition byString (s t : string) : Z :=
  if String.eqb s t then 0 else if String.ltb t s then 1 else -1.

(** The number an attribute holds (0 when it holds none). *)
Definition numberAt (attribute : string) (document : Document) : Z :=
  match Doc.getAttribute document attribute VUndefined with
  | VNumber n => n
  | _ => 0
  end.

(** * Properties *)

Import Adapter.

Ltac each_char c :=
  destruct c as [[|] [|] [|] [|] [|] [|] [|] [|]].

(** ** The value comparator and ordering *)

Module ComparatorFacts.

Lemma ltb_irrefl (s : string) : String.ltb s s = false.
Proof.
  unfold String.ltb.
  assert (H : (s ?= s)%string = Eq).
  { destruct (s ?= s)%string eqn:E; auto.
    - pose proof (String.compare_antisym s s) as A. rewrite E in A. discriminate.
    - pose proof (String.compare_antisym s s) as A. rewrite E in A. discriminate. }
  now rewrite H.
Qed.

(** Two strings are equal or one is below the other, never both. *)
Lemma ltb_trichotomy (s t : string) :
  (String.eqb s t = true /\ String.ltb s t = false /\ String.ltb t s = false)
  \/ (String.eqb s t = false /\ String.ltb s t = true /\ String.ltb t s = false)
  \/ (String.eqb s t = false /\ String.ltb s t = false /\ String.ltb t s = true).
Proof.
  unfold String.ltb.
  pose proof (String.compare_antisym t s) as A.
  destruct (s ?= t)%string eqn:E.
  - apply String.compare_eq_iff in E. subst t. left.
    rewrite String.eqb_refl. fold (String.ltb s s). rewrite ltb_irrefl. auto.
  - right. left. rewrite A. simpl. repeat split.
    apply String.eqb_neq. intros ->.
    pose proof (ltb_irrefl t) as I. unfold String.ltb in I. now rewrite E in I.
  - right. right. rewrite A. simpl. repeat split.
    apply String.eqb_neq. intros ->.
    pose proof (String.compare_antisym t t) as B. rewrite E in B. discriminate.
Qed.

Lemma compareValues_zero_strings (s t : string) :
  compareValues (VString s) (VString t) = 0 <-> s = t.
Proof.
  unfold compareValues. simpl.
  destruct (String.eqb_spec s t) as [->|N]; [tauto|].
  split; [|contradiction].
  destruct (String.ltb t s); discriminate.
Qed.

Lemma ToPrimitive_text (v : value) :
  kindOf v = KText -> ToPrimitive v = VString (ToString v).
Proof. destruct v; simpl; try discriminate; reflexivity. Qed.

Lemma lessThan_text (x y : value) :
  kindOf x = KText -> kindOf y = KText ->
  lessThan x y = String.ltb (ToString x) (ToString y).
Proof.
  intros Hx Hy. unfold lessThan.
  rewrite (ToPrimitive_text x Hx), (ToPrimitive_text y Hy). reflexivity.
Qed.

(** The direction only flips the sign of the comparison on one key. *)
Lemma one_key (a b : Document) (attribute : string) (d : direction) :
  compareDocuments a b [(attribute, d)] =
    signed d (compareDocuments a b [(attribute, asc)]).
Proof.
  simpl.
  destruct (strict_equal _ _); [destruct d; reflexivity|].
  destruct (nullish _); [destruct d; reflexivity|].
  destruct (nullish _); [destruct d; reflexivity|].
  destruct (greaterThan _ _); [destruct d; reflexivity|].
  destruct (lessThan _ _); destruct d; reflexivity.
Qed.

Lemma sgn_compare_same_kind (x y : value) (a b : Document) (attribute : string) :
  Doc.getAttribute a attribute VUndefined = x ->
  Doc.getAttribute b attribute VUndefined = y ->
  comparable x y = true ->
  Z.sgn (compareDocuments a b [(attribute, asc)]) = Z.sgn (compareValues x y).
Proof.
  intros Hx Hy Hk. simpl. rewrite Hx, Hy. unfold compareValues.
  destruct (strict_equal x y) eqn:E; [reflexivity|].
  destruct (nullish x) eqn:Nx; [reflexivity|].
  destruct (nullish y) eqn:Ny; [reflexivity|].
  unfold comparable in Hk. rewrite Nx, Ny in Hk. simpl in Hk.
  destruct x as [| |p|n|s|l|o|o|m t l]; try discriminate Nx;
    destruct y as [| |q|k|u|l'|o'|o'|m' t' l'];
    try discriminate Ny; try discriminate Hk.
  1: { (* booleans *)
    destruct p, q; try discriminate E; reflexivity. }
  1: { (* numbers *)
    unfold greaterThan, lessThan. simpl. simpl in E.
    destruct (Z.ltb_spec k n);
      [destruct (Z.sgn_pos_iff (n - k)) as [_ S]; rewrite S; [reflexivity|lia]|].
    destruct (Z.ltb_spec n k);
      [destruct (Z.sgn_neg_iff (n - k)) as [_ S]; rewrite S; [reflexivity|lia]|].
    apply Z.eqb_neq in E. lia. }
  (* text *)
  all: unfold greaterThan; rewrite !lessThan_text by reflexivity;
    match goal with
    | |- context [String.ltb ?t ?s] =>
        destruct (ltb_trichotomy s t) as [(Q & L & G)|[(Q & L & G)|(Q & L & G)]];
        rewrite ?Q, ?L, ?G; try reflexivity
    end.
Qed.

(** Identity. [===] on two arrays or two objects asks whether they are one
    and the same, and [strict_equal] answers no for every pair of them.
    Neither comparator can tell: on a value against itself both go the way
    a positive answer sends them. *)
Lemma lessThan_irrefl (v : value) : lessThan v v = false.
Proof.
  unfold lessThan.
  destruct (ToPrimitive v) eqn:E;
    try (destruct (ToNumber _); [apply Z.ltb_irrefl|reflexivity]).
  apply ltb_irrefl.
Qed.

Lemma compareValues_same (v : value) : compareValues v v = 0.
Proof.
  unfold compareValues.
  destruct v; simpl;
    rewrite ?Bool.eqb_reflx, ?Z.eqb_refl, ?String.eqb_refl; reflexivity.
Qed.

Lemma compareDocuments_same (a b : Document) (attribute : string) (d : direction)
  (rest : list (string * direction)) :
  Doc.getAttribute a attribute VUndefined = Doc.getAttribute b attribute VUndefined ->
  compareDocuments a b ((attribute, d) :: rest) = compareDocuments a b rest.
Proof.
  intros E. simpl. rewrite E. unfold greaterThan. rewrite lessThan_irrefl.
  destruct (Doc.getAttribute b attribute VUndefined); simpl;
    repeat match goal with
           | |- context [if ?c then _ else _] => destruct c
           end; reflexivity.
Qed.

End ComparatorFacts.

(** C1 (amended). When one of two attribute values is null or absent, or both
    are numbers, both booleans, or both text (strings, or arrays and objects,
    which are compared through their strings), the comparison [compareDocuments]
    makes on that attribute, taken before the direction is applied, has the
    sign of [compareValues]; the direction then only flips that sign. *)
Theorem ordering_agrees_with_compareValues
  (a b : Document) (attribute : string) :
  comparable (Doc.getAttribute a attribute VUndefined)
             (Doc.getAttribute b attribute VUndefined) = true ->
  Z.sgn (Adapter.compareDocuments a b [(attribute, asc)])
  = Z.sgn (Adapter.compareValues (Doc.getAttribute a attribute VUndefined)
                                 (Doc.getAttribute b attribute VUndefined))
  /\ forall d, Adapter.compareDocuments a b [(attribute, d)]
               = Adapter.signed d (Adapter.compareDocuments a b [(attribute, asc)]).
Proof.
  intros H. split.
  - now apply ComparatorFacts.sgn_compare_same_kind.
  - intros d. apply ComparatorFacts.one_key.
Qed.

Lemma ordering_agrees_with_compareValues_witness :
  let a := mkDocument [("age", VNumber 36)] in
  let b := mkDocument [("age", VNumber 85)] in
  Z.sgn (Adapter.compareDocuments a b [("age", asc)])
  = Z.sgn (Adapter.compareValues (VNumber 36) (VNumber 85))
  /\ forall d, Adapter.compareDocuments a b [("age", d)]
               = Adapter.signed d (Adapter.compareDocuments a b [("age", asc)]).
Proof.
  intros a b. apply (ordering_agrees_with_compareValues a b "age"). reflexivity.
Defined.

(** C1, as stated, fails on a number against a string: ordering compares 10
    and "9" as numbers, [compareValues] compares them as the strings "10"
    and "9". *)
Lemma ordering_disagrees_on_mixed_kinds :
  let a := mkDocument [("k", VNumber 10)] in
  let b := mkDocument [("k", VString "9")] in
  Z.sgn (Adapter.compareDocuments a b [("k", asc)]) = 1
  /\ Z.sgn (Adapter.compareValues (Doc.getAttribute a "k" VUndefined)
                                  (Doc.getAttribute b "k" VUndefined)) = -1.
Proof. split; reflexivity. Qed.

Module OrderingFacts.

Lemma strict_equal_nullish (x y : value) :
  nullish x = true -> nullish y = false -> strict_equal x y = false /\ strict_equal y x = false.
Proof. destruct x, y; simpl; intros; try discriminate; auto. Qed.

Lemma compare_missing (a b : Document) (attribute : string) (d : direction) :
  nullish (Doc.getAttribute a attribute VUndefined) = true ->
  nullish (Doc.getAttribute b attribute VUndefined) = false ->
  compareDocuments a b [(attribute, d)] = signed d (-1)
  /\ compareDocuments b a [(attribute, d)] = signed d 1.
Proof.
  intros Ha Hb. destruct (strict_equal_nullish _ _ Ha Hb) as [E1 E2].
  simpl. rewrite E1, E2, Ha, Hb. destruct d; split; reflexivity.
Qed.

Lemma applyQueries_order_only (fuel : nat) (documents : list Document) (attribute : string)
  (d : direction) :
  applyQueries fuel documents
    [mkQuery (match d with asc => Qry.TYPE_ORDER_ASC | desc => Qry.TYPE_ORDER_DESC end)
       attribute []]
  = Ok (sort (fun a b => compareDocuments a b [(attribute, d)]) documents).
Proof.
  unfold applyQueries, filterAndOrder.
  assert (P : partition [mkQuery (match d with asc => Qry.TYPE_ORDER_ASC | desc => Qry.TYPE_ORDER_DESC end) attribute []] = mkPlan [] [(attribute, d)] None 0 None).
  { destruct d; reflexivity. }
  rewrite P. simpl.
  assert (F : forall l : list Document, filterM (fun _ : Document => Ok true) l = Ok l).
  { induction l as [|x l IH]; simpl; [reflexivity|]. rewrite IH. reflexivity. }
  rewrite F. reflexivity.
Qed.

End OrderingFacts.

(** C6. A null or absent sort key is below every concrete value before the
    direction is applied, and the direction flips the sign: of two documents
    of which one lacks the attribute (or holds null) and the other holds a
    concrete value, [orderAsc] puts the one without first and [orderDesc] puts
    it last, whichever came first in the input. *)
Theorem missing_sorts_first_then_direction_flips
  (fuel : nat) (a b : Document) (attribute : string) (qAsc qDesc : Query) :
  Qry.orderAsc attribute = Ok qAsc ->
  Qry.orderDesc attribute = Ok qDesc ->
  nullish (Doc.getAttribute a attribute VUndefined) = true ->
  nullish (Doc.getAttribute b attribute VUndefined) = false ->
  (compareDocuments a b [(attribute, asc)] = -1
   /\ compareDocuments b a [(attribute, asc)] = 1
   /\ compareDocuments a b [(attribute, desc)] = 1
   /\ compareDocuments b a [(attribute, desc)] = -1)
  /\ applyQueries fuel [a; b] [qAsc] = Ok [a; b]
  /\ applyQueries fuel [b; a] [qAsc] = Ok [a; b]
  /\ applyQueries fuel [a; b] [qDesc] = Ok [b; a]
  /\ applyQueries fuel [b; a] [qDesc] = Ok [b; a].
Proof.
  intros Hasc Hdesc Ha Hb.
  injection Hasc as <-. injection Hdesc as <-.
  destruct (OrderingFacts.compare_missing a b attribute asc Ha Hb) as [A1 A2].
  destruct (OrderingFacts.compare_missing a b attribute desc Ha Hb) as [D1 D2].
  simpl signed in *.
  split; [auto|].
  pose proof (OrderingFacts.applyQueries_order_only fuel [a; b] attribute asc) as P1.
  pose proof (OrderingFacts.applyQueries_order_only fuel [b; a] attribute asc) as P2.
  pose proof (OrderingFacts.applyQueries_order_only fuel [a; b] attribute desc) as P3.
  pose proof (OrderingFacts.applyQueries_order_only fuel [b; a] attribute desc) as P4.
  cbv beta iota in P1, P2, P3, P4.
  unfold sort, insertSorted in P1, P2, P3, P4.
  rewrite A1 in P1. rewrite A2 in P2. rewrite D1 in P3. rewrite D2 in P4.
  auto.
Qed.

Lemma missing_sorts_first_then_direction_flips_witness :
  let a := mkDocument [("name", VString "Ada Lovelace")] in
  let b := mkDocument [("name", VString "Grace Hopper"); ("age", VNumber 85)] in
  let qAsc := mkQuery Qry.TYPE_ORDER_ASC "age" [] in
  let qDesc := mkQuery Qry.TYPE_ORDER_DESC "age" [] in
  (compareDocuments a b [("age", asc)] = -1
   /\ compareDocuments b a [("age", asc)] = 1
   /\ compareDocuments a b [("age", desc)] = 1
   /\ compareDocuments b a [("age", desc)] = -1)
  /\ applyQueries 0 [a; b] [qAsc] = Ok [a; b]
  /\ applyQueries 0 [b; a] [qAsc] = Ok [a; b]
  /\ applyQueries 0 [a; b] [qDesc] = Ok [b; a]
  /\ applyQueries 0 [b; a] [qDesc] = Ok [b; a].
Proof.
  intros a b qAsc qDesc.
  exact (missing_sorts_first_then_direction_flips 0 a b "age" qAsc qDesc
           eq_refl eq_refl eq_refl eq_refl).
Defined.

(** ** Filters *)

Module ContainsFacts.




End ContainsFacts.


(** ** Pagination *)

Module PaginationFacts.

Lemma slice_from (A : Type) (l : list A) (k : Z) :
  0 <= k -> slice l k None = skipn (Z.to_nat k) l.
Proof.
  intros Hk. unfold slice.
  destruct (Z.ltb_spec k 0); [lia|].
  set (len := Z.of_nat (List.length l)).
  destruct (Z.le_gt_cases k len) as [L|G].
  - rewrite Z.min_l by assumption.
    apply firstn_all2. rewrite length_skipn. unfold len in *. lia.
  - rewrite Z.min_r by lia.
    rewrite (skipn_all2 l (n := Z.to_nat k)) by (unfold len in *; lia).
    rewrite (skipn_all2 l (n := Z.to_nat len)) by (unfold len; lia).
    apply firstn_nil.
Qed.

Lemma slice_upto (A : Type) (l : list A) (n : Z) :
  0 <= n -> slice l 0 (Some n) = firstn (Z.to_nat n) l.
Proof.
  intros Hn. unfold slice. change (0 <? 0) with false. cbv iota.
  destruct (Z.ltb_spec n 0); [lia|].
  set (len := Z.of_nat (List.length l)).
  assert (Hlen : 0 <= len) by (unfold len; lia).
  rewrite (Z.min_l 0 len) by assumption. simpl skipn.
  destruct (Z.le_gt_cases n len) as [L|G].
  - rewrite Z.min_l by assumption.
    replace (Z.max (n - 0) 0) with n by lia. reflexivity.
  - rewrite Z.min_r by lia.
    replace (Z.max (len - 0) 0) with len by lia.
    rewrite firstn_all2 by (unfold len; lia).
    symmetry. apply firstn_all2. unfold len in *. lia.
Qed.

Lemma paginate_slice (p : plan) (base : list Document) :
  0 <= offset p ->
  paginate p base =
    match limit p with
    | Some n => if n <? 0 then slice (skipn (Z.to_nat (offset p)) base) 0 (Some n)
                else firstn (Z.to_nat n) (skipn (Z.to_nat (offset p)) base)
    | None => skipn (Z.to_nat (offset p)) base
    end.
Proof.
  intros Ho. unfold paginate.
  assert (E : (if offset p =? 0 then base else slice base (offset p) None)
              = skipn (Z.to_nat (offset p)) base).
  { destruct (Z.eqb_spec (offset p) 0) as [->|N]; [reflexivity|].
    now apply slice_from. }
  rewrite E. destruct (limit p) as [n|]; [|reflexivity].
  destruct (Z.ltb_spec n 0); [reflexivity|]. now apply slice_upto.
Qed.

(** What one query of the list changes in the plan. *)
Lemma collect_offset (p : plan) (q : Query) :
  offset (collect p q) =
    if String.eqb (Qry.getMethod q) Qry.TYPE_OFFSET then
      match nth 0 (Qry.getValues q) VUndefined with
      | VNumber n => n
      | _ => offset p
      end
    else offset p.
Proof.
  unfold collect.
  destruct (String.eqb_spec (Qry.getMethod q) Qry.TYPE_LIMIT) as [e|].
  - rewrite e. simpl. destruct (nth 0 _ _); reflexivity.
  - destruct (String.eqb (Qry.getMethod q) Qry.TYPE_OFFSET).
    + destruct (nth 0 _ _); reflexivity.
    + destruct (_ || _)%bool; [reflexivity|].
      destruct (String.eqb _ _); [|reflexivity].
      destruct (stringsOf _); reflexivity.
Qed.

Lemma collect_limit (p : plan) (q : Query) :
  limit (collect p q) =
    if String.eqb (Qry.getMethod q) Qry.TYPE_LIMIT then
      match nth 0 (Qry.getValues q) VUndefined with
      | VNumber n => Some n
      | _ => limit p
      end
    else limit p.
Proof.
  unfold collect.
  destruct (String.eqb (Qry.getMethod q) Qry.TYPE_LIMIT).
  - destruct (nth 0 _ _); reflexivity.
  - destruct (String.eqb (Qry.getMethod q) Qry.TYPE_OFFSET).
    + destruct (nth 0 _ _); reflexivity.
    + destruct (_ || _)%bool; [reflexivity|].
      destruct (String.eqb _ _); [|reflexivity].
      destruct (stringsOf _); reflexivity.
Qed.

Lemma fold_offset (k : Z) (queries : list Query) :
  (forall q, In q queries -> Qry.getMethod q = Qry.TYPE_OFFSET ->
             Qry.getValues q = [VNumber k]) ->
  forall p,
    offset (fold_left collect queries p) =
      if existsb (hasMethod Qry.TYPE_OFFSET) queries then k else offset p.
Proof.
  induction queries as [|q qs IH]; intros H p; [reflexivity|].
  simpl. rewrite IH by (intros; apply H; simpl; auto).
  rewrite collect_offset. unfold hasMethod at 2.
  destruct (String.eqb_spec (Qry.getMethod q) Qry.TYPE_OFFSET) as [e|n].
  - rewrite (H q (or_introl eq_refl) e). simpl.
    destruct (existsb _ qs); reflexivity.
  - reflexivity.
Qed.

Lemma fold_limit (n : Z) (queries : list Query) :
  (forall q, In q queries -> Qry.getMethod q = Qry.TYPE_LIMIT ->
             Qry.getValues q = [VNumber n]) ->
  forall p,
    limit (fold_left collect queries p) =
      if existsb (hasMethod Qry.TYPE_LIMIT) queries then Some n else limit p.
Proof.
  induction queries as [|q qs IH]; intros H p; [reflexivity|].
  simpl. rewrite IH by (intros; apply H; simpl; auto).
  rewrite collect_limit. unfold hasMethod at 2.
  destruct (String.eqb_spec (Qry.getMethod q) Qry.TYPE_LIMIT) as [e|ne].
  - rewrite (H q (or_introl eq_refl) e). simpl.
    destruct (existsb _ qs); reflexivity.
  - reflexivity.
Qed.

Lemma existsb_hasMethod (m : string) (queries : list Query) (q : Query) :
  In q queries -> Qry.getMethod q = m -> existsb (hasMethod m) queries = true.
Proof.
  intros I E. apply existsb_exists. exists q. split; auto.
  unfold hasMethod. rewrite E. apply String.eqb_refl.
Qed.

Lemma existsb_hasMethod_none (m : string) (queries : list Query) :
  (forall q, In q queries -> Qry.getMethod q <> m) ->
  existsb (hasMethod m) queries = false.
Proof.
  intros H. destruct (existsb _ _) eqn:E; [|reflexivity].
  apply existsb_exists in E. destruct E as (q & I & E).
  unfold hasMethod in E. apply String.eqb_eq in E. now destruct (H q I).
Qed.

Lemma project_nil (fuel : nat) (p : plan) : project fuel p [] = Ok [].
Proof. unfold project. destruct (select p) as [[|]|]; reflexivity. Qed.

End PaginationFacts.

(** C8. Let every offset query of a query list be [offset(k)] and every limit
    query [limit(n)], with counts [k] and [n]. The evaluator returns a
    window of the filtered and ordered sequence (projected, when the list
    has a select). With both queries in the list the window is the slice
    from [k] to [k + n]: the first [k] are dropped and at most [n] of the
    rest are kept. With the offset alone the first [k] are dropped and
    nothing is cut: the limit defaults to no limit. With the limit alone
    nothing is dropped and at most [n] are kept: the offset defaults to 0.
    With neither the whole sequence is returned. With the offset in the
    list nothing is left when [k] is the length of the sequence or more. *)
Theorem pagination_is_slice
  (fuel : nat) (documents : list Document) (queries : list Query)
  (k n : Z) (qo ql : Query) :
  Qry.offset k = Ok qo -> Qry.limit n = Ok ql ->
  0 <= k -> 0 <= n ->
  (forall q, In q queries -> Qry.getMethod q = Qry.TYPE_OFFSET -> q = qo) ->
  (forall q, In q queries -> Qry.getMethod q = Qry.TYPE_LIMIT -> q = ql) ->
  let p := partition queries in
  (In qo queries -> In ql queries ->
   applyQueries fuel documents queries
   = (base <- filterAndOrder p documents ;;
      project fuel p (firstn (Z.to_nat n) (skipn (Z.to_nat k) base))))
  /\ (In qo queries -> ~ In ql queries ->
      applyQueries fuel documents queries
      = (base <- filterAndOrder p documents ;;
         project fuel p (skipn (Z.to_nat k) base)))
  /\ (~ In qo queries -> In ql queries ->
      applyQueries fuel documents queries
      = (base <- filterAndOrder p documents ;;
         project fuel p (firstn (Z.to_nat n) base)))
  /\ (~ In qo queries -> ~ In ql queries ->
      applyQueries fuel documents queries
      = (base <- filterAndOrder p documents ;; project fuel p base))
  /\ (In qo queries ->
      forall base,
        filterAndOrder p documents = Ok base ->
        (List.length base <= Z.to_nat k)%nat ->
        applyQueries fuel documents queries = Ok []).
Proof.
  intros Hqo Hql Hk Hn Uo Ul p.
  injection Hqo as <-. injection Hql as <-.
  set (qo := mkQuery Qry.TYPE_OFFSET "" [VNumber k]) in *.
  set (ql := mkQuery Qry.TYPE_LIMIT "" [VNumber n]) in *.
  assert (Po : offset p = if existsb (hasMethod Qry.TYPE_OFFSET) queries then k else 0).
  { unfold p, partition. rewrite (PaginationFacts.fold_offset k); [reflexivity|].
    intros q I E. now rewrite (Uo q I E). }
  assert (Pl : limit p = if existsb (hasMethod Qry.TYPE_LIMIT) queries then Some n else None).
  { unfold p, partition. rewrite (PaginationFacts.fold_limit n); [reflexivity|].
    intros q I E. now rewrite (Ul q I E). }
  assert (Yo : In qo queries -> existsb (hasMethod Qry.TYPE_OFFSET) queries = true).
  { intros I. exact (PaginationFacts.existsb_hasMethod Qry.TYPE_OFFSET _ _ I eq_refl). }
  assert (Yl : In ql queries -> existsb (hasMethod Qry.TYPE_LIMIT) queries = true).
  { intros I. exact (PaginationFacts.existsb_hasMethod Qry.TYPE_LIMIT _ _ I eq_refl). }
  assert (No : ~ In qo queries -> existsb (hasMethod Qry.TYPE_OFFSET) queries = false).
  { intros N. apply PaginationFacts.existsb_hasMethod_none.
    intros q I E. apply N. now rewrite <- (Uo q I E). }
  assert (Nl : ~ In ql queries -> existsb (hasMethod Qry.TYPE_LIMIT) queries = false).
  { intros N. apply PaginationFacts.existsb_hasMethod_none.
    intros q I E. apply N. now rewrite <- (Ul q I E). }
  assert (Pg : forall base,
             paginate p base
             = (if existsb (hasMethod Qry.TYPE_LIMIT) queries
                then firstn (Z.to_nat n)
                else fun l => l)
                 ((if existsb (hasMethod Qry.TYPE_OFFSET) queries
                   then skipn (Z.to_nat k)
                   else fun l => l) base)).
  { intros base. rewrite PaginationFacts.paginate_slice.
    - rewrite Pl, Po.
      destruct (existsb (hasMethod Qry.TYPE_LIMIT) queries),
        (existsb (hasMethod Qry.TYPE_OFFSET) queries);
        try (destruct (Z.ltb_spec n 0); [lia|]); reflexivity.
    - rewrite Po. destruct (existsb _ queries); lia. }
  assert (R : applyQueries fuel documents queries
              = (base <- filterAndOrder p documents ;;
                 project fuel p
                   ((if existsb (hasMethod Qry.TYPE_LIMIT) queries
                     then firstn (Z.to_nat n)
                     else fun l => l)
                      ((if existsb (hasMethod Qry.TYPE_OFFSET) queries
                        then skipn (Z.to_nat k)
                        else fun l => l) base)))).
  { unfold applyQueries. fold p.
    destruct (filterAndOrder p documents); simpl; try reflexivity.
    now rewrite Pg. }
  split; [|split; [|split; [|split]]].
  - intros Io Il. rewrite R, (Yo Io), (Yl Il). reflexivity.
  - intros Io Il. rewrite R, (Yo Io), (Nl Il). reflexivity.
  - intros Io Il. rewrite R, (No Io), (Yl Il). reflexivity.
  - intros Io Il. rewrite R, (No Io), (Nl Il). reflexivity.
  - intros Io base Hb Hlen. rewrite R, Hb, (Yo Io). cbn [bind].
    rewrite skipn_all2 by assumption.
    destruct (existsb (hasMethod Qry.TYPE_LIMIT) queries);
      rewrite ?firstn_nil; apply PaginationFacts.project_nil.
Qed.

Lemma pagination_is_slice_witness :
  let documents :=
    [mkDocument [("n", VNumber 1)]; mkDocument [("n", VNumber 2)];
     mkDocument [("n", VNumber 3)]; mkDocument [("n", VNumber 4)]] in
  let qo := mkQuery Qry.TYPE_OFFSET "" [VNumber 1] in
  let ql := mkQuery Qry.TYPE_LIMIT "" [VNumber 2] in
  (applyQueries 0 documents [qo; ql]
   = (base <- filterAndOrder (partition [qo; ql]) documents ;;
      project 0 (partition [qo; ql]) (firstn (Z.to_nat 2) (skipn (Z.to_nat 1) base))))
  /\ (applyQueries 0 documents [qo]
      = (base <- filterAndOrder (partition [qo]) documents ;;
         project 0 (partition [qo]) (skipn (Z.to_nat 1) base)))
  /\ (applyQueries 0 documents [ql]
      = (base <- filterAndOrder (partition [ql]) documents ;;
         project 0 (partition [ql]) (firstn (Z.to_nat 2) base))).
Proof.
  intros documents qo ql.
  assert (K : 0 <= 1) by discriminate.
  assert (N : 0 <= 2) by discriminate.
  split; [|split].
  - refine (proj1 (pagination_is_slice 0%nat documents [qo; ql] 1 2 qo ql
                     eq_refl eq_refl K N _ _) _ _).
    + intros q [<-|[<-|[]]] E; [reflexivity|discriminate E].
    + intros q [<-|[<-|[]]] E; [discriminate E|reflexivity].
    + left. reflexivity.
    + right. left. reflexivity.
  - refine (proj1 (proj2 (pagination_is_slice 0%nat documents [qo] 1 2 qo ql
                            eq_refl eq_refl K N _ _)) _ _).
    + intros q [<-|[]] E. reflexivity.
    + intros q [<-|[]] E. discriminate E.
    + left. reflexivity.
    + intros [E|[]]. discriminate E.
  - refine (proj1 (proj2 (proj2 (pagination_is_slice 0%nat documents [ql] 1 2 qo ql
                                   eq_refl eq_refl K N _ _))) _ _).
    + intros q [<-|[]] E. discriminate E.
    + intros q [<-|[]] E. reflexivity.
    + intros [E|[]]. discriminate E.
    + left. reflexivity.
Defined.


(** ** The adapter *)

Module MapFacts.

Lemma JsMap_get_set_same {V} (k : string) (v : V) (m : JsMap.t V) :
  JsMap.get k (JsMap.set k v m) = Some v.
Proof.
  induction m as [|[k' v'] m IH]; simpl.
  - now rewrite String.eqb_refl.
  - destruct (String.eqb k k') eqn:E; simpl; rewrite ?String.eqb_refl, ?E; auto.
Qed.

Lemma JsMap_get_set_other {V} (k j : string) (v : V) (m : JsMap.t V) :
  j <> k -> JsMap.get j (JsMap.set k v m) = JsMap.get j m.
Proof.
  intros N. induction m as [|[k' v'] m IH]; simpl.
  - destruct (String.eqb_spec j k); [contradiction|reflexivity].
  - destruct (String.eqb_spec k k') as [<-|N'].
    + simpl. destruct (String.eqb_spec j k); [contradiction|reflexivity].
    + simpl. destruct (String.eqb j k'); auto.
Qed.

Lemma JsMap_keys_set_present {V} (k : string) (v old : V) (m : JsMap.t V) :
  JsMap.get k m = Some old -> map fst (JsMap.set k v m) = map fst m.
Proof.
  induction m as [|[k' v'] m IH]; simpl; [discriminate|].
  destruct (String.eqb_spec k k') as [<-|N]; simpl; intros H.
  - reflexivity.
  - now rewrite IH.
Qed.

End MapFacts.

(** C4 (amended). Against a collection that does not exist, [createDocument],
    [updateDocument] and [deleteDocument] fail with the error of
    [requireCollection], while [getDocument] returns null and [listDocuments]
    returns the empty list without an error; none of the five changes the
    adapter. *)
Theorem unknown_collection (this : MemoryAdapter) (collection : string) :
  JsMap.get collection (collections this) = None ->
  (forall fuel document,
      Memory.createDocument fuel collection document this = (Throw (notFound collection), this))
  /\ (forall fuel document,
      Memory.updateDocument fuel collection document this = (Throw (notFound collection), this))
  /\ (forall id,
      Memory.deleteDocument collection id this = (Throw (notFound collection), this))
  /\ (forall fuel id, Memory.getDocument fuel collection id this = (Ok None, this))
  /\ (forall fuel queries, Memory.listDocuments fuel collection queries this = (Ok [], this)).
Proof.
  intros H.
  unfold Memory.createDocument, Memory.updateDocument, Memory.deleteDocument,
    Memory.getDocument, Memory.listDocuments, Memory.requireCollection.
  rewrite H. repeat split; reflexivity.
Qed.

Lemma unknown_collection_witness :
  (forall fuel document,
      Memory.createDocument fuel "users" document (mkMemoryAdapter [])
      = (Throw (notFound "users"), mkMemoryAdapter []))
  /\ (forall fuel document,
      Memory.updateDocument fuel "users" document (mkMemoryAdapter [])
      = (Throw (notFound "users"), mkMemoryAdapter []))
  /\ (forall id,
      Memory.deleteDocument "users" id (mkMemoryAdapter [])
      = (Throw (notFound "users"), mkMemoryAdapter []))
  /\ (forall fuel id,
      Memory.getDocument fuel "users" id (mkMemoryAdapter []) = (Ok None, mkMemoryAdapter []))
  /\ (forall fuel queries,
      Memory.listDocuments fuel "users" queries (mkMemoryAdapter []) = (Ok [], mkMemoryAdapter [])).
Proof. apply (unknown_collection (mkMemoryAdapter []) "users"). reflexivity. Defined.

(** C4, as stated, fails for the two reads: they succeed on a collection that
    was never created. *)
Lemma read_of_unknown_collection_succeeds :
  Memory.getDocument 0 "users" "u1" (mkMemoryAdapter []) = (Ok None, mkMemoryAdapter [])
  /\ Memory.listDocuments 0 "users" [] (mkMemoryAdapter []) = (Ok [], mkMemoryAdapter []).
Proof. split; reflexivity. Qed.

(** C10. With the collection in place and a document stored under the id of
    the new one, [createDocument] succeeds like [updateDocument]: it returns a
    clone of the new document and puts a clone in the place of the stored one,
    at the same position and under the same key, leaving the other documents
    and collections as they were. The two methods agree on every input. *)
Theorem create_is_upsert
  (fuel : nat) (this : MemoryAdapter) (collection id : string)
  (stored : StoredCollection) (document copy old : Document) :
  JsMap.get collection (collections this) = Some stored ->
  JsMap.get id (documents stored) = Some old ->
  Doc.getId document = VString id ->
  Doc.clone fuel document = Ok copy ->
  exists this' stored',
    Memory.createDocument fuel collection document this = (Ok copy, this')
    /\ Memory.updateDocument fuel collection document this = (Ok copy, this')
    /\ JsMap.get collection (collections this') = Some stored'
    /\ JsMap.get id (documents stored') = Some copy
    /\ map fst (documents stored') = map fst (documents stored)
    /\ (forall other, other <> id ->
          JsMap.get other (documents stored') = JsMap.get other (documents stored))
    /\ (forall other, other <> collection ->
          JsMap.get other (collections this') = JsMap.get other (collections this))
    /\ (forall fuel' collection' document' this'',
          Memory.createDocument fuel' collection' document' this''
          = Memory.updateDocument fuel' collection' document' this'').
Proof.
  intros Hc Hold Hid Hclone.
  exists (Memory.store this collection stored id copy).
  exists (mkStoredCollection (schema stored) (JsMap.set id copy (documents stored))).
  unfold Memory.createDocument, Memory.updateDocument, Memory.requireCollection.
  rewrite Hc, Hid, Hclone. repeat split.
  - unfold Memory.store. simpl. apply MapFacts.JsMap_get_set_same.
  - simpl. apply MapFacts.JsMap_get_set_same.
  - simpl. now apply MapFacts.JsMap_keys_set_present with (old := old).
  - intros other N. simpl. now apply MapFacts.JsMap_get_set_other.
  - intros other N. unfold Memory.store. simpl. now apply MapFacts.JsMap_get_set_other.
Qed.

Lemma create_is_upsert_witness :
  let old := mkDocument [("$id", VString "u1"); ("name", VString "Ada")] in
  let document := mkDocument [("$id", VString "u1"); ("name", VString "Grace")] in
  let stored := mkStoredCollection (mkCollectionSchema "users" (Some []) (Some []))
                  [("u1", old)] in
  let this := mkMemoryAdapter [("users", stored)] in
  exists this' stored',
    Memory.createDocument 1 "users" document this = (Ok document, this')
    /\ Memory.updateDocument 1 "users" document this = (Ok document, this')
    /\ JsMap.get "users" (collections this') = Some stored'
    /\ JsMap.get "u1" (documents stored') = Some document
    /\ map fst (documents stored') = map fst (documents stored)
    /\ (forall other, other <> "u1" ->
          JsMap.get other (documents stored') = JsMap.get other (documents stored))
    /\ (forall other, other <> "users" ->
          JsMap.get other (collections this') = JsMap.get other (collections this))
    /\ (forall fuel' collection' document' this'',
          Memory.createDocument fuel' collection' document' this''
          = Memory.updateDocument fuel' collection' document' this'').
Proof.
  intros old document stored this.
  exact (create_is_upsert 1 this "users" "u1" stored document document old
           eq_refl eq_refl eq_refl eq_refl).
Defined.

(** ** Queries *)

Module MethodFacts.

Lemma logical_is_valid (m : string) : Qry.isLogical m = true -> Qry.isMethod m = true.
Proof.
  unfold Qry.isLogical, LogicalMethods.has. intros H.
  apply orb_true_iff in H. destruct H as [H|H]; apply String.eqb_eq in H; subst; reflexivity.
Qed.

Lemma invalid_not_logical (m : string) : Qry.isMethod m = false -> Qry.isLogical m = false.
Proof.
  intros H. destruct (Qry.isLogical m) eqn:E; [|reflexivity].
  apply logical_is_valid in E. congruence.
Qed.

Lemma fromJSON_rejects_unknown :
  Qry.fromJSON 1 (VObject [("method", VString "bogus"); ("values", VArray [])])
  = Throw (Error "Invalid query method: bogus").
Proof. reflexivity. Qed.

End MethodFacts.

(** C2 (amended). For a string [m] that is no valid operator name,
    [Query.fromJSON] on an object whose method is [m], and so [Query.parse] on
    a text of such an object, fails with the invalid-method error; the
    constructor does not look at the method and returns the Query. *)
Theorem invalid_method (m : string) :
  Qry.isMethod m = false ->
  (forall fuel json,
      Qry.field json "method" = Ok (VString m) ->
      Qry.fromJSON (S fuel) json = Throw (Error ("Invalid query method: " ++ m)))
  /\ (forall fuel text json,
      JSON.parse (S fuel) text = Ok json ->
      Qry.field json "method" = Ok (VString m) ->
      Qry.parse (S fuel) text = Throw (Error ("Invalid query method: " ++ m)))
  /\ (forall fuel attribute values,
      Qry.construct fuel m attribute values = Ok (mkQuery m attribute values)).
Proof.
  intros H.
  assert (F : forall fuel json,
             Qry.field json "method" = Ok (VString m) ->
             Qry.fromJSON (S fuel) json = Throw (Error ("Invalid query method: " ++ m))).
  { intros fuel json Hm. simpl. rewrite Hm. simpl. now rewrite H. }
  split; [exact F|]. split.
  - intros fuel text json Hp Hm. unfold Qry.parse. rewrite Hp. simpl bind. now apply F.
  - intros fuel attribute values. pose proof (MethodFacts.invalid_not_logical m H) as L.
    destruct fuel; simpl; now rewrite L.
Qed.

Lemma invalid_method_witness :
  (forall fuel json,
      Qry.field json "method" = Ok (VString "bogus") ->
      Qry.fromJSON (S fuel) json = Throw (Error ("Invalid query method: " ++ "bogus")))
  /\ (forall fuel text json,
      JSON.parse (S fuel) text = Ok json ->
      Qry.field json "method" = Ok (VString "bogus") ->
      Qry.parse (S fuel) text = Throw (Error ("Invalid query method: " ++ "bogus")))
  /\ (forall fuel attribute values,
      Qry.construct fuel "bogus" attribute values = Ok (mkQuery "bogus" attribute values)).
Proof. exact (invalid_method "bogus" eq_refl). Defined.

(** C2, as stated, fails for the constructor: it builds a Query of a method
    that is no operator. *)
Lemma constructor_accepts_unknown_method :
  Qry.isMethod "bogus" = false
  /\ Qry.construct 0 "bogus" "" [] = Ok (mkQuery "bogus" "" []).
Proof. split; reflexivity. Qed.

(** ** Documents *)

Module Termination.

Local Open Scope nat_scope.

Lemma heights_cons (k : string) (v : value) (o : object) :
  heights ((k, v) :: o) = Nat.max (height v) (heights o).
Proof. reflexivity. Qed.







Lemma height_le_heights (k : string) (v : value) (o : object) :
  In (k, v) o -> height v <= heights o.
Proof.
  induction o as [|[k' v'] o IH]; simpl; [tauto|].
  rewrite heights_cons. intros [E|I]; [injection E as -> ->; lia|].
  specialize (IH I). lia.
Qed.

Lemma height_le_list_max (x : value) (l : list value) :
  In x l -> height x <= list_max (map height l).
Proof.
  induction l as [|y l IH]; simpl; [tauto|].
  intros [->|I]; [lia|]. specialize (IH I). lia.
Qed.












Lemma settles_weaken (f : value -> result value) (bound bound' : nat) :
  settles f bound -> bound' <= bound -> settles f bound'.
Proof. intros H L v Hv. apply H. lia. Qed.


End Termination.




(** [setAttribute] checks nothing: it prepares the value and assigns it
    under the key, so that a number is stored as [$id]. *)
Lemma setAttribute_stores (fuel : nat) (this : Document) (key : string) (n : Z) :
  Doc.setAttribute (S fuel) this key (VNumber n)
  = Ok (mkDocument (Obj.assign key (VNumber n) (data this)))
  /\ Doc.setAttribute (S fuel) (mkDocument []) "$id" (VNumber 42)
     = Ok (mkDocument [("$id", VNumber 42)]).
Proof. split; reflexivity. Qed.

(** C7, at the input on which the code departs from it: a Document that holds
    a Document without [$id] or [$collection], which in turn holds a Document.
    The export of the first is plain data; the clone has turned the inner
    holder into a plain object, which [toJSON] does not enter, so that the
    export of the clone still holds a Document instance. The two exports are
    not deep-equal, whether the assertion regards classes or only own
    properties. *)
Lemma clone_changes_export (fuel : nat) :
  exists profile doc copy,
    Doc.construct (4 + fuel)%nat [("owner", VObject [("$id", VString "u1")])] = Ok profile
    /\ Doc.construct (4 + fuel)%nat [("profile", VDocument (data profile))] = Ok doc
    /\ Doc.clone (4 + fuel)%nat doc = Ok copy
    /\ Doc.toJSON doc
       = [("profile", VObject [("owner", VObject [("$id", VString "u1")])])]
    /\ Doc.toJSON copy
       = [("profile", VObject [("owner", VDocument [("$id", VString "u1")])])]
    /\ deepEqual (VObject (Doc.toJSON copy)) (VObject (Doc.toJSON doc)) = false
    /\ deepEqual (ownProperties (VObject (Doc.toJSON copy)))
                 (ownProperties (VObject (Doc.toJSON doc))) = false.
Proof. do 3 eexists. repeat split; reflexivity. Qed.

(** ** Serialization *)

Module Serialization.

Import Termination.

Local Open Scope nat_scope.


Lemma append_assoc (a b c : string) : (a ++ b) ++ c = a ++ (b ++ c).
Proof. induction a as [|x a IH]; simpl; [reflexivity|now rewrite IH]. Qed.

Lemma delimited_no_digit (rest : string) :
  delimited rest ->
  match rest with
  | String c _ => Str.isDigit c = false
  | EmptyString => True
  end.
Proof.
  intros [E|[r [E|[E|E]]]]; subst rest; simpl; auto.
Qed.

Lemma spanDigits_uint (d : Decimal.uint) (rest : string) :
  delimited rest ->
  JSON.spanDigits (NilEmpty.string_of_uint d ++ rest) = (NilEmpty.string_of_uint d, rest).
Proof.
  intros D. induction d; simpl; try (rewrite IHd; reflexivity).
  apply delimited_no_digit in D. destruct rest as [|c r]; simpl; [reflexivity|].
  now rewrite D.
Qed.

Lemma nzhead_not_D0 (d d' : Decimal.uint) : Decimal.nzhead d <> Decimal.D0 d'.
Proof. induction d; simpl; auto; discriminate. Qed.

Lemma to_uint_normal (p : positive) : Decimal.unorm (Pos.to_uint p) = Pos.to_uint p.
Proof.
  rewrite <- DecimalPos.Unsigned.to_of, DecimalPos.Unsigned.of_to. reflexivity.
Qed.

Lemma to_uint_no_leading_zero (p : positive) (d : Decimal.uint) :
  Pos.to_uint p <> Decimal.D0 d.
Proof.
  intros E. pose proof (to_uint_normal p) as N. rewrite E in N.
  unfold Decimal.unorm in N.
  destruct (Decimal.nzhead (Decimal.D0 d)) eqn:H; try discriminate.
  - injection N as <-. now apply (DecimalPos.Unsigned.to_uint_nonzero p).
  - now apply nzhead_not_D0 in H.
Qed.

Lemma of_uint_to_uint (p : positive) : Z.of_uint (Pos.to_uint p) = Z.pos p.
Proof. unfold Z.of_uint. now rewrite DecimalPos.Unsigned.of_to. Qed.

Lemma natural_pos (p : positive) (rest : string) :
  delimited rest ->
  JSON.natural (NilEmpty.string_of_uint (Pos.to_uint p) ++ rest) = Ok (Z.pos p, rest).
Proof.
  intros D.
  pose proof (spanDigits_uint (Pos.to_uint p) rest D) as S.
  pose proof (NilEmpty.usu (Pos.to_uint p)) as U.
  pose proof (of_uint_to_uint p) as V.
  pose proof (to_uint_no_leading_zero p) as Z.
  pose proof (DecimalPos.Unsigned.to_uint_nonnil p) as NN.
  destruct (Pos.to_uint p) as [|d|d|d|d|d|d|d|d|d|d]; try congruence;
    try (now destruct (Z d));
    unfold JSON.natural.
  all: cbn [NilEmpty.string_of_uint append] in *.
  all: cbn [Ascii.eqb Bool.eqb Str.isDigit Str.code N_of_ascii N_of_digits N.leb N.compare
              Pos.compare Pos.compare_cont andb N.add N.mul Pos.add Pos.mul Pos.succ].
  all: try (rewrite S; cbn [fst snd]; rewrite U, V; reflexivity).
Qed.

Lemma number_unsigned (c : ascii) (r : string) :
  Ascii.eqb c "-" = false ->
  JSON.number (String c r)
  = (x <- JSON.natural (String c r) ;;
     match snd x with
     | String "." _ | String "e" _ | String "E" _ => Beyond NonIntegerNumber
     | _ => Ok x
     end).
Proof. intros H. each_char c; try discriminate H; reflexivity. Qed.

Lemma delimited_integer (rest : string) (x : Z) :
  delimited rest ->
  match rest with
  | String "." _ | String "e" _ | String "E" _ => Beyond NonIntegerNumber
  | _ => Ok (x, rest)
  end = Ok (x, rest).
Proof. intros [E|[r [E|[E|E]]]]; subst rest; reflexivity. Qed.

Lemma first_digit (p : positive) :
  exists c r, NilEmpty.string_of_uint (Pos.to_uint p) = String c r
              /\ Ascii.eqb c "-" = false /\ Str.isDigit c = true.
Proof.
  pose proof (DecimalPos.Unsigned.to_uint_nonnil p) as NN.
  destruct (Pos.to_uint p); try congruence; simpl; do 2 eexists; repeat split.
Qed.

Lemma number_text (n : Z) (rest : string) :
  delimited rest -> JSON.number (Num.toString n ++ rest) = Ok (n, rest).
Proof.
  intros D. unfold Num.toString. destruct n as [|p|p]; simpl Z.to_int.
  - simpl. now apply delimited_integer.
  - simpl NilZero.string_of_int. unfold NilZero.string_of_uint.
    pose proof (natural_pos p rest D) as N.
    destruct (first_digit p) as (c & r & E & M & _).
    pose proof (DecimalPos.Unsigned.to_uint_nonnil p) as NN.
    replace (match Pos.to_uint p with
             | Decimal.Nil => "0"
             | _ => NilEmpty.string_of_uint (Pos.to_uint p)
             end) with (NilEmpty.string_of_uint (Pos.to_uint p))
      by (destruct (Pos.to_uint p); congruence).
    rewrite E in *. simpl append in *. rewrite (number_unsigned c _ M), N.
    cbn [bind snd]. now apply delimited_integer.
  - simpl NilZero.string_of_int. unfold NilZero.string_of_uint.
    pose proof (natural_pos p rest D) as N.
    pose proof (DecimalPos.Unsigned.to_uint_nonnil p) as NN.
    replace (match Pos.to_uint p with
             | Decimal.Nil => "0"
             | _ => NilEmpty.string_of_uint (Pos.to_uint p)
             end) with (NilEmpty.string_of_uint (Pos.to_uint p))
      by (destruct (Pos.to_uint p); congruence).
    simpl append. unfold JSON.number. rewrite N. cbn [bind fst snd].
    change (- Z.pos p)%Z with (Z.neg p). now apply delimited_integer.
Qed.

Lemma first_char_number (n : Z) :
  exists c r, Num.toString n = String c r
              /\ (Ascii.eqb c "-" || Str.isDigit c)%bool = true.
Proof.
  unfold Num.toString. destruct n as [|p|p]; simpl.
  - do 2 eexists. split; reflexivity.
  - destruct (first_digit p) as (c & r & E & _ & Dg).
    pose proof (DecimalPos.Unsigned.to_uint_nonnil p) as NN.
    unfold NilZero.string_of_uint.
    exists c, r. split; [|now rewrite Dg, orb_true_r].
    destruct (Pos.to_uint p); congruence.
  - do 2 eexists. split; reflexivity.
Qed.

Lemma parseValue_number (fuel : nat) (c : ascii) (r : string) :
  (Ascii.eqb c "-" || Str.isDigit c)%bool = true ->
  JSON.parseValue (S fuel) (String c r)
  = (x <- JSON.number (String c r) ;; Ok (VNumber (fst x), snd x)).
Proof. intros H. each_char c; try discriminate H; reflexivity. Qed.

Lemma stringBody_char (c : ascii) (tail : string) :
  JSON.stringBody (JSON.quoteChar c ++ tail)
  = (r <- JSON.stringBody tail ;; Ok (String c (fst r), snd r)).
Proof. each_char c; reflexivity. Qed.

Lemma stringBody_quoted (s rest : string) :
  JSON.stringBody (JSON.quoteChars s ++ String Str.dquote rest) = Ok (s, rest).
Proof.
  induction s as [|c s IH]; [reflexivity|].
  cbn [JSON.quoteChars]. rewrite append_assoc, stringBody_char, IH. reflexivity.
Qed.



Lemma append_nil (s : string) : s ++ "" = s.
Proof. induction s; simpl; congruence. Qed.

Lemma text_opening (j : json) : exists c r, JSON.text j = String c r /\ opening c.
Proof.
  destruct j as [|[|]|n|s|items|members]; simpl;
    try (do 2 eexists; split; [reflexivity|repeat split]).
  destruct (first_char_number n) as (c & r & E & H).
  exists c, r. split; [assumption|].
  each_char c; try discriminate H; repeat split.
Qed.

Lemma not_closing_bracket {A : Type} (c : ascii) (r : string) (x : string -> A) (y : A) :
  opening c ->
  match JSON.skipSpace (String c r) with
  | String "]" rest => x rest
  | _ => y
  end = y.
Proof. intros (S & B & _). each_char c; try discriminate; reflexivity. Qed.

Lemma not_closing_brace {A : Type} (c : ascii) (r : string) (x : string -> A) (y : A) :
  opening c ->
  match JSON.skipSpace (String c r) with
  | String "}" rest => x rest
  | _ => y
  end = y.
Proof. intros (S & _ & B). each_char c; try discriminate; reflexivity. Qed.

Lemma set_fresh (k : string) (v : value) (o : object) :
  existsb (String.eqb k) (map fst o) = false -> Obj.set k v o = (o ++ [(k, v)])%list.
Proof.
  induction o as [|[k' v'] o IH]; simpl; [reflexivity|].
  destruct (String.eqb k k'); simpl; [discriminate|]. intros H. now rewrite IH.
Qed.

Lemma existsb_app_keys (k : string) (a b : list string) :
  existsb (String.eqb k) (a ++ b)%list
  = (existsb (String.eqb k) a || existsb (String.eqb k) b)%bool.
Proof. apply existsb_app. Qed.

Lemma fold_set_distinct (members acc : object) :
  distinct (map fst members) = true ->
  (forall k, In k (map fst members) -> existsb (String.eqb k) (map fst acc) = false) ->
  fold_left (fun o kv => Obj.set (fst kv) (snd kv) o) members acc = (acc ++ members)%list.
Proof.
  revert acc. induction members as [|[k v] ms IH]; intros acc D F; simpl.
  - now rewrite List.app_nil_r.
  - simpl in D. apply andb_true_iff in D. destruct D as [D1 D2].
    apply negb_true_iff in D1.
    rewrite set_fresh by (apply F; simpl; auto).
    rewrite IH; [now rewrite <- List.app_assoc| assumption |].
    intros k' I. rewrite map_app, existsb_app. simpl.
    rewrite (F k') by (simpl; auto). simpl.
    rewrite orb_false_r. destruct (String.eqb_spec k' k) as [->|N]; [|reflexivity].
    assert (E : existsb (String.eqb k) (map fst ms) = true).
    { apply existsb_exists. exists k. split; [assumption|apply String.eqb_refl]. }
    congruence.
Qed.

Lemma objectOf_distinct (members : object) :
  distinct (map fst members) = true -> JSON.objectOf members = VObject members.
Proof.
  intros D. unfold JSON.objectOf. rewrite fold_set_distinct; auto.
Qed.



Lemma join_cons (x : string) (y : string) (l : list string) :
  Str.join "," (x :: y :: l) = x ++ String "," (Str.join "," (y :: l)).
Proof. reflexivity. Qed.

Lemma append_cons (c : ascii) (a b : string) : String c a ++ b = String c (a ++ b).
Proof. reflexivity. Qed.

Lemma skipSpace_comma (r : string) : JSON.skipSpace (String "," r) = String "," r.
Proof. reflexivity. Qed.

Lemma skipSpace_colon (r : string) : JSON.skipSpace (String ":" r) = String ":" r.
Proof. reflexivity. Qed.

Lemma skipSpace_quote (r : string) :
  JSON.skipSpace (String Str.dquote r) = String Str.dquote r.
Proof. reflexivity. Qed.

Lemma delimited_comma (r : string) : delimited (String "," r).
Proof. right. exists r. auto. Qed.
Lemma delimited_bracket (r : string) : delimited (String "]" r).
Proof. right. exists r. auto. Qed.
Lemma delimited_brace (r : string) : delimited (String "}" r).
Proof. right. exists r. auto. Qed.

Lemma parseElements_text (n : nat) (IH : reads n) (items : list json) :
  items <> [] ->
  (forall x, In x items -> weight x <= n /\ wellKeyed x = true) ->
  forall fuel rest,
    weights items < fuel ->
    JSON.parseElements fuel (Str.join "," (map JSON.text items) ++ String "]" rest)
    = Ok (map valueOf items, rest).
Proof.
  induction items as [|x xs IHl]; intros NE H fuel rest Hf; [congruence|].
  destruct fuel as [|f]; [lia|].
  destruct (H x (or_introl eq_refl)) as [Wx Kx].
  destruct xs as [|y ys]; unfold weights in Hf; simpl in Hf.
  - simpl. rewrite (IH x Wx Kx f (String "]" rest));
      [reflexivity|lia|apply delimited_bracket].
  - cbn [map]. rewrite join_cons, append_assoc.
    cbn [JSON.parseElements].
    rewrite append_cons.
    rewrite (IH x Wx Kx f); [|lia|apply delimited_comma].
    cbn [bind snd fst].
    specialize (IHl ltac:(discriminate) (fun z I => H z (or_intror I)) f rest).
    cbn [map] in IHl.
    rewrite skipSpace_comma.
    rewrite IHl by (unfold weights; simpl; lia).
    reflexivity.
Qed.

Lemma parseMembers_text (n : nat) (IH : reads n) (members : list (string * json)) :
  members <> [] ->
  (forall kv, In kv members -> weight (snd kv) <= n /\ wellKeyed (snd kv) = true) ->
  forall fuel rest,
    memberWeights members < fuel ->
    JSON.parseMembers fuel (Str.join "," (map memberText members) ++ String "}" rest)
    = Ok (map (fun kv => (fst kv, valueOf (snd kv))) members, rest).
Proof.
  induction members as [|[k x] xs IHl]; intros NE H fuel rest Hf; [congruence|].
  destruct fuel as [|f]; [lia|].
  destruct (H (k, x) (or_introl eq_refl)) as [Wx Kx]. simpl in Wx, Kx.
  assert (Key : forall tail,
             JSON.parseMembers (S f) (memberText (k, x) ++ tail)
             = (v <- JSON.parseValue f (JSON.text x ++ tail) ;;
                match JSON.skipSpace (snd v) with
                | String "," rest2 =>
                    r <- JSON.parseMembers f rest2 ;;
                    Ok ((k, fst v) :: fst r, snd r)
                | String "}" rest2 => Ok ([(k, fst v)], rest2)
                | _ => JSON.unexpected
                end)).
  { intros tail. unfold memberText, JSON.quote. cbn [fst snd append].
    rewrite !append_assoc. cbn [append].
    cbn [JSON.parseMembers]. rewrite skipSpace_quote.
    change (Ascii.eqb Str.dquote Str.dquote) with true. cbv iota.
    rewrite stringBody_quoted. cbn [bind fst snd].
    rewrite skipSpace_colon. reflexivity. }
  destruct xs as [|y ys]; unfold memberWeights in Hf; simpl in Hf.
  - cbn [map Str.join String.concat]. rewrite Key.
    rewrite (IH x Wx Kx f (String "}" rest)); [reflexivity|lia|apply delimited_brace].
  - cbn [map]. rewrite join_cons, append_assoc, append_cons, Key.
    rewrite (IH x Wx Kx f); [|lia|apply delimited_comma].
    cbn [bind snd fst]. rewrite skipSpace_comma.
    specialize (IHl ltac:(discriminate) (fun z I => H z (or_intror I)) f rest).
    cbn [map] in IHl.
    rewrite IHl by (unfold memberWeights; simpl; lia).
    reflexivity.
Qed.

Lemma in_weights (x : json) (items : list json) : In x items -> weight x < weights items.
Proof.
  unfold weights. induction items as [|y l IH]; simpl; [tauto|].
  intros [->|I]; [lia|]. specialize (IH I). lia.
Qed.

Lemma in_memberWeights (kv : string * json) (members : list (string * json)) :
  In kv members -> weight (snd kv) < memberWeights members.
Proof.
  unfold memberWeights. induction members as [|y l IH]; simpl; [tauto|].
  intros [->|I]; [lia|]. specialize (IH I). lia.
Qed.

Lemma reads_all (n : nat) : reads n.
Proof.
  induction n as [n IH] using lt_wf_ind.
  intros j Wj Kj fuel rest Hf D.
  destruct fuel as [|f]; [lia|].
  destruct j as [|[|]|z|s|items|members]; try reflexivity.
  - (* number *)
    destruct (first_char_number z) as (c & r & E & H).
    cbn [JSON.text valueOf]. pose proof (number_text z rest D) as N.
    rewrite E in *. rewrite append_cons in *.
    rewrite (parseValue_number f c _ H), N. reflexivity.
  - (* string *)
    cbn [JSON.text valueOf]. unfold JSON.quote.
    cbn [append]. rewrite append_assoc. cbn [append].
    pose proof (stringBody_quoted s rest) as B.
    change (JSON.parseValue (S f) (String Str.dquote (JSON.quoteChars s ++ String Str.dquote rest)))
      with (r <- JSON.stringBody (JSON.quoteChars s ++ String Str.dquote rest) ;;
            Ok (VString (fst r), snd r)).
    now rewrite B.
  - (* array *)
    cbn [JSON.text valueOf weight wellKeyed] in *.
    fold (weights items) in *.
    destruct items as [|x xs].
    + reflexivity.
    + cbn [append]. rewrite append_assoc. cbn [append].
      assert (E : JSON.parseValue (S f)
                    (String "[" (Str.join "," (map JSON.text (x :: xs)) ++ String "]" rest))
                  = (r <- JSON.parseElements f
                            (Str.join "," (map JSON.text (x :: xs)) ++ String "]" rest) ;;
                     Ok (VArray (fst r), snd r))).
      { destruct (text_opening x) as (c & r & Ec & Oc).
        assert (S : exists r', Str.join "," (map JSON.text (x :: xs)) ++ String "]" rest
                               = String c r').
        { destruct xs; cbn [map]; [cbn [Str.join String.concat]|rewrite join_cons];
            rewrite Ec, ?append_cons; eauto. }
        destruct S as (r' & ->).
        cbn [JSON.parseValue]. 
        change (JSON.skipSpace (String "[" (String c r'))) with (String "[" (String c r')).
        cbv iota. now rewrite (not_closing_bracket c r' _ _ Oc). }
      rewrite E.
      assert (R : reads (weights (x :: xs) - 1)).
      { apply IH. unfold weights in *. simpl in *. lia. }
      rewrite (parseElements_text _ R (x :: xs)).
      * reflexivity.
      * discriminate.
      * intros y I. split.
        -- pose proof (in_weights y _ I). lia.
        -- rewrite forallb_forall in Kj. now apply Kj.
      * lia.
  - (* object *)
    cbn [JSON.text valueOf weight wellKeyed] in *.
    fold (memberWeights members) in *.
    apply andb_true_iff in Kj. destruct Kj as [Kd Kj].
    destruct members as [|x xs].
    + reflexivity.
    + change (map (fun kv => JSON.quote (fst kv) ++ ":" ++ JSON.text (snd kv)) (x :: xs))
        with (map memberText (x :: xs)).
      cbn [append]. rewrite append_assoc. cbn [append].
      assert (E : JSON.parseValue (S f)
                    (String "{" (Str.join "," (map memberText (x :: xs)) ++ String "}" rest))
                  = (r <- JSON.parseMembers f
                            (Str.join "," (map memberText (x :: xs)) ++ String "}" rest) ;;
                     Ok (JSON.objectOf (fst r), snd r))).
      { assert (S : exists r', Str.join "," (map memberText (x :: xs)) ++ String "}" rest
                               = String Str.dquote r').
        { destruct xs; cbn [map]; [cbn [Str.join String.concat]|rewrite join_cons];
            unfold memberText at 1, JSON.quote; rewrite ?append_cons; eauto. }
        destruct S as (r' & ->). reflexivity. }
      rewrite E.
      assert (R : reads (memberWeights (x :: xs) - 1)).
      { apply IH. unfold memberWeights in *. simpl in *. lia. }
      rewrite (parseMembers_text _ R (x :: xs)).
      * cbn [bind fst snd]. rewrite objectOf_distinct; [reflexivity|].
        rewrite map_map. cbn [fst]. exact Kd.
      * discriminate.
      * intros y I. split.
        -- pose proof (in_memberWeights y _ I). lia.
        -- rewrite forallb_forall in Kj. now apply Kj.
      * lia.
Qed.

(** [JSON.parse] reads the text of a tree back. *)
Lemma parse_text (j : json) (fuel : nat) :
  wellKeyed j = true -> weight j < fuel -> JSON.parse fuel (JSON.text j) = Ok (valueOf j).
Proof.
  intros K F. unfold JSON.parse.
  rewrite <- (append_nil (JSON.text j)).
  rewrite (reads_all (weight j) j (Nat.le_refl _) K fuel ""); auto.
  now left.
Qed.



Lemma flat_map_members (props : list (string * value)) :
  (forall kv, In kv props -> exists j, JSON.tree (snd kv) = Some j) ->
  flat_map (fun kv => JSON.member (fst kv) (JSON.tree (snd kv))) props
  = map (fun kv => (fst kv, JSON.orNull (JSON.tree (snd kv)))) props.
Proof.
  induction props as [|kv l IH]; intros H; [reflexivity|].
  simpl. destruct (H kv (or_introl eq_refl)) as (j & E). rewrite E. simpl.
  f_equal. apply IH. intros; apply H; simpl; auto.
Qed.

Lemma map_fixed {A : Type} (f : A -> A) (l : list A) :
  (forall x, In x l -> f x = x) -> map f l = l.
Proof.
  induction l as [|x l IH]; intros H; [reflexivity|].
  simpl. rewrite H by (simpl; auto). f_equal. apply IH. intros; apply H; simpl; auto.
Qed.

Lemma tree_array (items : list value) :
  JSON.tree (VArray items) = Some (JArray (map (fun x => JSON.orNull (JSON.tree x)) items)).
Proof. reflexivity. Qed.

Lemma tree_object (props : list (string * value)) :
  JSON.tree (VObject props)
  = Some (JObject (flat_map (fun kv => JSON.member (fst kv) (JSON.tree (snd kv))) props)).
Proof. reflexivity. Qed.

(** JSON data is written as a tree that denotes it. *)
Lemma tree_plain (n : nat) :
  forall v, height v <= n -> isPlain v = true ->
            exists j, JSON.tree v = Some j /\ valueOf j = v /\ wellKeyed j = true.
Proof.
  induction n as [n IH] using lt_wf_ind. intros v Hv P.
  destruct v as [| |b|z|s|items|props|d|m a vs]; try discriminate P;
    try (eexists; repeat split; fail).
  - (* array *)
    change (height (VArray items)) with (S (list_max (map height items))) in Hv.
    cbn [isPlain] in P. rewrite forallb_forall in P.
    assert (Each : forall x, In x items ->
              exists j, JSON.tree x = Some j /\ valueOf j = x /\ wellKeyed j = true).
    { intros x I. pose proof (height_le_list_max x items I).
      apply (IH (height x)); auto; lia. }
    rewrite tree_array. eexists. split; [reflexivity|]. split.
    + cbn [valueOf]. rewrite map_map. f_equal. apply map_fixed.
      intros x I. destruct (Each x I) as (j & -> & E & _). exact E.
    + cbn [wellKeyed]. rewrite forallb_forall. intros j I.
      apply in_map_iff in I. destruct I as (x & <- & I).
      destruct (Each x I) as (j' & -> & _ & K). exact K.
  - (* object *)
    change (height (VObject props)) with (S (heights props)) in Hv.
    cbn [isPlain] in P. apply andb_true_iff in P. destruct P as [D P].
    rewrite forallb_forall in P.
    assert (Each : forall kv, In kv props ->
              exists j, JSON.tree (snd kv) = Some j /\ valueOf j = snd kv
                        /\ wellKeyed j = true).
    { intros [k x] I. pose proof (height_le_heights k x props I).
      cbn [snd]. apply (IH (height x)); [lia|lia|]. exact (P (k, x) I). }
    rewrite tree_object, flat_map_members
      by (intros kv I; destruct (Each kv I) as (j & E & _); eauto).
    eexists. split; [reflexivity|]. split.
    + cbn [valueOf]. rewrite map_map. cbn [fst snd]. f_equal. apply map_fixed.
      intros [k x] I. destruct (Each (k, x) I) as (j & E & V & _).
      cbn [fst snd] in *. rewrite E. simpl. now rewrite V.
    + cbn [wellKeyed]. apply andb_true_iff. split.
      { rewrite map_map. cbn [fst]. exact D. }
      rewrite forallb_forall. intros kj I.
      apply in_map_iff in I. destruct I as (kv & <- & I).
      destruct (Each kv I) as (j' & E & _ & K). cbn [snd]. rewrite E. exact K.
Qed.

(** [JSON.parse(JSON.stringify(v))] is [v] for JSON data. *)
Lemma parse_stringify (v : value) :
  isPlain v = true ->
  exists text n,
    JSON.stringify v = Some text
    /\ forall fuel, n <= fuel -> JSON.parse fuel text = Ok v.
Proof.
  intros P. destruct (tree_plain (height v) v (Nat.le_refl _) P) as (j & T & V & K).
  exists (JSON.text j), (S (weight j)). split.
  - unfold JSON.stringify. now rewrite T.
  - intros fuel F. rewrite <- V. apply parse_text; auto.
Qed.



Lemma mapM_Ok {A B : Type} (f : A -> result B) (g : A -> B) (l : list A) :
  (forall x, In x l -> f x = Ok (g x)) -> mapM f l = Ok (map g l).
Proof.
  induction l as [|x l IH]; intros H; [reflexivity|].
  simpl. rewrite H by (simpl; auto). simpl.
  rewrite IH by (intros; apply H; simpl; auto). reflexivity.
Qed.

Lemma mapM_map_Ok {A B C : Type} (f : B -> result C) (h : A -> B) (g : A -> C)
  (l : list A) :
  (forall x, In x l -> f (h x) = Ok (g x)) -> mapM f (map h l) = Ok (map g l).
Proof.
  induction l as [|x l IH]; intros H; [reflexivity|].
  simpl. rewrite H by (simpl; auto). simpl.
  rewrite IH by (intros; apply H; simpl; auto). reflexivity.
Qed.

Lemma export_query (m a : string) (vs : list value) :
  Qry.export (VQuery m a vs)
  = (vals <-
       (if Qry.isLogical m then
          mapM (fun val =>
                  match val with
                  | VQuery _ _ _ => j <- Qry.export val ;; Ok (VObject j)
                  | VDocument _ => Ok (VObject (Doc.export val))
                  | _ => Throw (TypeError "value.toJSON is not a function")
                  end) vs
        else Ok (map operandOut vs)) ;;
     Ok (("method", VString m)
           :: (if String.eqb a "" then [] else [("attribute", VString a)])
           ++ [("values", VArray vals)])%list).
Proof. reflexivity. Qed.

Lemma roundtrips_query (m a : string) (vs : list value) :
  roundtrips (VQuery m a vs) = true ->
  Qry.isMethod m = true
  /\ if Qry.isLogical m then
       forall x, In x vs -> (exists m' a' vs', x = VQuery m' a' vs') /\ roundtrips x = true
     else forall x, In x vs -> operandOk x = true.
Proof.
  cbn [roundtrips]. intros H. apply andb_true_iff in H. destruct H as [M H].
  split; [assumption|]. destruct (Qry.isLogical m); rewrite forallb_forall in H.
  - intros x I. specialize (H x I). destruct x; try discriminate. split; eauto.
  - exact H.
Qed.

(** [toJSON] returns the object [wire]. *)
Lemma export_wire (n : nat) :
  forall v, height v <= n -> roundtrips v = true -> Qry.export v = Ok (wire v).
Proof.
  induction n as [n IH] using lt_wf_ind. intros v Hv R.
  destruct v as [| | | | | | | |m a vs]; try discriminate R.
  destruct (roundtrips_query m a vs R) as [M O].
  change (height (VQuery m a vs)) with (S (S (list_max (map height vs)))) in Hv.
  rewrite export_query. cbn [wire].
  destruct (Qry.isLogical m); [|reflexivity].
  rewrite (mapM_Ok _ (fun x => VObject (wire x))); [reflexivity|].
  intros x I. destruct (O x I) as [(m' & a' & vs' & ->) Rx].
  pose proof (height_le_list_max _ vs I).
  rewrite (IH (height (VQuery m' a' vs'))); [reflexivity|lia|lia|exact Rx].
Qed.

Lemma operandOut_plain (x : value) : operandOk x = true -> isPlain (operandOut x) = true.
Proof.
  destruct x; simpl; auto.
  destruct (Doc.getId _); simpl; auto; discriminate.
Qed.

(** The object is JSON data. *)
Lemma wire_plain (n : nat) :
  forall v, height v <= n -> roundtrips v = true -> isPlain (VObject (wire v)) = true.
Proof.
  induction n as [n IH] using lt_wf_ind. intros v Hv R.
  destruct v as [| | | | | | | |m a vs]; try discriminate R.
  destruct (roundtrips_query m a vs R) as [M O].
  change (height (VQuery m a vs)) with (S (S (list_max (map height vs)))) in Hv.
  assert (V : forallb isPlain
                (if Qry.isLogical m
                 then map (fun x => VObject (wire x)) vs
                 else map operandOut vs) = true).
  { rewrite forallb_forall. intros y I. destruct (Qry.isLogical m);
      apply in_map_iff in I; destruct I as (x & <- & I).
    - destruct (O x I) as [_ Rx]. pose proof (height_le_list_max _ vs I).
      apply (IH (height x)); [lia|lia|exact Rx].
    - apply operandOut_plain. now apply O. }
  cbn [wire isPlain]. destruct (String.eqb a ""); cbn; now rewrite V.
Qed.

Lemma construct_logical (fuel : nat) (m a : string) (vs : list value) :
  Qry.isLogical m = true ->
  Qry.construct (S fuel) m a vs
  = (vs' <- mapM
              (fun val =>
                 match val with
                 | VQuery m' a' vs' =>
                     c <- Qry.construct fuel m' a' vs' ;; Ok (Qry.instance c)
                 | VArray _ | VObject _ | VDocument _ =>
                     q <- Qry.fromJSON fuel val ;; Ok (Qry.instance q)
                 | _ => Throw (TypeError "Logical queries must contain Query instances")
                 end) vs ;;
     Ok (mkQuery m a vs')).
Proof. intros L. cbn [Qry.construct]. now rewrite L. Qed.

Lemma construct_plain (fuel : nat) (m a : string) (vs : list value) :
  Qry.isLogical m = false -> Qry.construct fuel m a vs = Ok (mkQuery m a vs).
Proof. intros L. destruct fuel; cbn [Qry.construct]; now rewrite L. Qed.

(** Cloning the reduced query gives it back. *)
Lemma construct_reduce (n : nat) :
  forall m a vs,
    height (VQuery m a vs) <= n -> roundtrips (VQuery m a vs) = true ->
    forall fuel, n <= fuel ->
      match reduce (VQuery m a vs) with
      | VQuery m' a' vs' => Qry.construct fuel m' a' vs' = Ok (mkQuery m' a' vs')
      | _ => True
      end.
Proof.
  induction n as [n IH] using lt_wf_ind. intros m a vs Hv R fuel F.
  destruct (roundtrips_query m a vs R) as [M O].
  change (height (VQuery m a vs)) with (S (S (list_max (map height vs)))) in Hv.
  cbn [reduce]. destruct (Qry.isLogical m) eqn:L; [|now apply construct_plain].
  destruct fuel as [|f]; [lia|].
  rewrite construct_logical by assumption.
  rewrite (mapM_Ok _ (fun x => x)); [now rewrite map_id|].
  intros y I. apply in_map_iff in I. destruct I as (x & <- & I).
  destruct (O x I) as [(m' & a' & vs' & ->) Rx].
  pose proof (height_le_list_max _ vs I) as Hx.
  pose proof (IH (height (VQuery m' a' vs')) ltac:(lia) m' a' vs' (Nat.le_refl _) Rx f
                ltac:(lia)) as C.
  cbn [reduce] in C |- *. rewrite C. reflexivity.
Qed.

Lemma fromJSON_object (fuel : nat) (props : object) (m : string) :
  prop "method" props = VString m ->
  Qry.isMethod m = true ->
  Qry.fromJSON (S fuel) (VObject props)
  = (attribute <-
       (match prop "attribute" props with
        | VUndefined | VNull => Ok ""
        | VString s => Ok s
        | _ => Beyond NonStringAttribute
        end) ;;
     entries <-
       (match prop "values" props with
        | VUndefined | VNull => Ok []
        | VArray items => Ok items
        | _ => Throw (TypeError "(json.values ?? []).map is not a function")
        end) ;;
     values <- mapM
                 (fun entry =>
                    if Qry.isLogical m then
                      q <- Qry.fromJSON fuel entry ;; Ok (Qry.instance q)
                    else Ok entry) entries ;;
     Qry.construct fuel m attribute values).
Proof.
  intros P M. cbn [Qry.fromJSON Qry.field bind]. rewrite P. cbn iota. rewrite M.
  reflexivity.
Qed.

Lemma wire_fields (m a : string) (vs : list value) :
  let o := wire (VQuery m a vs) in
  prop "method" o = VString m
  /\ match prop "attribute" o with
     | VUndefined | VNull => Ok ""
     | VString s => Ok s
     | _ => Beyond NonStringAttribute
     end = Ok a
  /\ prop "values" o
     = VArray (if Qry.isLogical m
               then map (fun x => VObject (wire x)) vs
               else map operandOut vs).
Proof.
  cbn [wire]. destruct (String.eqb_spec a "") as [->|N]; repeat split.
Qed.

(** [fromJSON] rebuilds the reduced query from the object. *)
Lemma fromJSON_wire (n : nat) :
  forall m a vs,
    height (VQuery m a vs) <= n -> roundtrips (VQuery m a vs) = true ->
    forall fuel, n < fuel ->
      Qry.fromJSON fuel (VObject (wire (VQuery m a vs)))
      = Ok (reduced (mkQuery m a vs)).
Proof.
  induction n as [n IH] using lt_wf_ind. intros m a vs Hv R fuel F.
  destruct (roundtrips_query m a vs R) as [M O].
  destruct (wire_fields m a vs) as (Pm & Pa & Pv).
  destruct fuel as [|f]; [lia|].
  rewrite (fromJSON_object f _ m Pm M), Pa, Pv. cbn [bind].
  pose proof (construct_reduce n m a vs Hv R f ltac:(lia)) as C.
  unfold reduced, Qry.instance. cbn [method attribute values].
  cbn [reduce] in C |- *.
  change (height (VQuery m a vs)) with (S (S (list_max (map height vs)))) in Hv.
  destruct (Qry.isLogical m) eqn:L.
  - rewrite (mapM_map_Ok _ _ reduce); [cbn [bind]; exact C|].
    intros x I. destruct (O x I) as [(m' & a' & vs' & ->) Rx].
    pose proof (height_le_list_max _ vs I) as Hx.
    rewrite (IH (height (VQuery m' a' vs')) ltac:(lia) m' a' vs' (Nat.le_refl _) Rx f
               ltac:(lia)).
    reflexivity.
  - rewrite (mapM_Ok _ (fun y => y)) by reflexivity. rewrite map_id.
    cbn [bind]. exact C.
Qed.



Lemma reduce_documentFree (n : nat) :
  forall v, height v <= n -> documentFree v = true -> reduce v = v.
Proof.
  induction n as [n IH] using lt_wf_ind. intros v Hv F.
  destruct v as [| | | | | | | |m a vs]; try reflexivity.
  change (height (VQuery m a vs)) with (S (S (list_max (map height vs)))) in Hv.
  cbn [reduce documentFree] in *. f_equal.
  destruct (Qry.isLogical m); rewrite forallb_forall in F; apply map_fixed; intros x I.
  - pose proof (height_le_list_max _ vs I). apply (IH (height x)); auto; lia.
  - specialize (F x I). destruct x; try reflexivity; discriminate.
Qed.

Lemma toString_wire (q : Query) :
  roundtrips (Qry.instance q) = true ->
  exists text n,
    Qry.toString q = Ok text
    /\ forall fuel, n <= fuel ->
                    JSON.parse fuel text = Ok (VObject (wire (Qry.instance q))).
Proof.
  intros R.
  pose proof (export_wire _ _ (Nat.le_refl _) R) as E.
  pose proof (wire_plain _ _ (Nat.le_refl _) R) as P.
  destruct (parse_stringify _ P) as (text & n & S & H).
  exists text, n. split; [|exact H].
  unfold Qry.toString, Qry.toJSON. rewrite E. cbn [bind]. now rewrite S.
Qed.

End Serialization.

(** C5 (amended). For a Query of a valid method whose operands are, for a
    logical method, queries of the same sort and, for any other, JSON data or
    Documents with a string [$id], [Query.parse(q.toString())] returns, given
    fuel, the query with the same method and attribute and with each Document
    operand replaced by its [$id], at every depth of logical nesting; when no
    operand is a Document this is [q] itself. *)
Theorem parse_toString_roundtrip (q : Query) :
  roundtrips (Qry.instance q) = true ->
  exists text n,
    Qry.toString q = Ok text
    /\ (forall fuel, (n <= fuel)%nat -> Qry.parse fuel text = Ok (reduced q))
    /\ Qry.getMethod (reduced q) = Qry.getMethod q
    /\ Qry.getAttribute (reduced q) = Qry.getAttribute q
    /\ Qry.getValues (reduced q)
       = (if Qry.isLogical (Qry.getMethod q)
          then map reduce (Qry.getValues q)
          else map operandOut (Qry.getValues q))
    /\ (documentFree (Qry.instance q) = true -> reduced q = q).
Proof.
  intros R. destruct (Serialization.toString_wire q R) as (text & n & T & P).
  destruct q as [m a vs].
  exists text, (Nat.max n (S (height (VQuery m a vs)))).
  split; [exact T|]. split; [|split; [|split; [|split]]]; try reflexivity.
  - intros fuel F. unfold Qry.parse. rewrite P by lia. cbn [bind].
    apply (Serialization.fromJSON_wire (height (VQuery m a vs))); auto; lia.
  - intros D. unfold reduced.
    rewrite (Serialization.reduce_documentFree _ _ (Nat.le_refl _) D). reflexivity.
Qed.

Lemma parse_toString_roundtrip_witness :
  exists text n,
    Qry.toString (mkQuery "equal" "name" [VString "Ada"]) = Ok text
    /\ (forall fuel, (n <= fuel)%nat ->
          Qry.parse fuel text = Ok (reduced (mkQuery "equal" "name" [VString "Ada"])))
    /\ Qry.getMethod (reduced (mkQuery "equal" "name" [VString "Ada"])) = "equal"
    /\ Qry.getAttribute (reduced (mkQuery "equal" "name" [VString "Ada"])) = "name"
    /\ Qry.getValues (reduced (mkQuery "equal" "name" [VString "Ada"]))
       = [VString "Ada"]
    /\ (documentFree (Qry.instance (mkQuery "equal" "name" [VString "Ada"])) = true ->
        reduced (mkQuery "equal" "name" [VString "Ada"])
        = mkQuery "equal" "name" [VString "Ada"]).
Proof.
  exact (parse_toString_roundtrip (mkQuery "equal" "name" [VString "Ada"]) eq_refl).
Defined.

(** C5, as stated, fails for a Document operand: the parsed query holds the
    [$id] string in its place. *)
Lemma document_operand_becomes_id :
  (q <- Qry.equal "owner" [VDocument [("$id", VString "u1")]] ;;
   text <- Qry.toString q ;;
   q' <- Qry.parse 10 text ;;
   Ok (Qry.getValues q, Qry.getValues q'))
  = Ok ([VDocument [("$id", VString "u1")]], [VString "u1"]).
Proof. vm_compute. reflexivity. Qed.

(** * Further properties *)

(** ** Objects and the metadata of a Document *)

Module ObjFacts.

Lemma get_set_same (k : string) (v : value) (o : object) :
  Obj.get k (Obj.set k v o) = Some v.
Proof.
  induction o as [|[k' v'] o IH]; simpl.
  - now rewrite String.eqb_refl.
  - destruct (String.eqb k k') eqn:E; simpl; rewrite ?String.eqb_refl, ?E; auto.
Qed.

Lemma get_set_other (k j : string) (v : value) (o : object) :
  j <> k -> Obj.get j (Obj.set k v o) = Obj.get j o.
Proof.
  intros N. induction o as [|[k' v'] o IH]; simpl.
  - destruct (String.eqb_spec j k); [contradiction|reflexivity].
  - destruct (String.eqb_spec k k') as [<-|N'].
    + simpl. destruct (String.eqb_spec j k); [contradiction|reflexivity].
    + simpl. destruct (String.eqb j k'); auto.
Qed.

Lemma has_get (k : string) (o : object) :
  Obj.has k o = match Obj.get k o with Some _ => true | None => false end.
Proof.
  induction o as [|[k' v'] o IH]; simpl; [reflexivity|].
  destruct (String.eqb k k'); auto.
Qed.

Lemma keys_set_absent (k : string) (v : value) (o : object) :
  Obj.has k o = false -> Obj.set k v o = (o ++ [(k, v)])%list.
Proof.
  induction o as [|[k' v'] o IH]; simpl; [reflexivity|].
  destruct (String.eqb_spec k k') as [<-|N]; simpl; intros H; [discriminate|].
  now rewrite IH.
Qed.

Lemma get_remove_same (k : string) (o : object) :
  distinct (map fst o) = true -> Obj.get k (Obj.remove k o) = None.
Proof.
  induction o as [|[k' v'] o IH]; simpl; [reflexivity|].
  intros D. apply andb_true_iff in D. destruct D as [F D].
  destruct (String.eqb_spec k k') as [<-|N]; simpl.
  - apply negb_true_iff in F.
    clear IH D. induction o as [|[j w] o IH]; simpl in *; [reflexivity|].
    apply orb_false_iff in F. destruct F as [F1 F2]. rewrite F1. auto.
  - destruct (String.eqb_spec k k'); [contradiction|]. auto.
Qed.

Lemma get_remove_other (k j : string) (o : object) :
  j <> k -> Obj.get j (Obj.remove k o) = Obj.get j o.
Proof.
  intros N. induction o as [|[k' v'] o IH]; simpl; [reflexivity|].
  destruct (String.eqb_spec k k') as [<-|N'].
  - destruct (String.eqb_spec j k); [contradiction|reflexivity].
  - simpl. destruct (String.eqb j k'); auto.
Qed.

Lemma has_set (k j : string) (v : value) (o : object) :
  Obj.has j (Obj.set k v o) = (String.eqb j k || Obj.has j o)%bool.
Proof.
  induction o as [|[k' v'] o IH]; simpl.
  - now destruct (String.eqb j k).
  - destruct (String.eqb_spec k k') as [<-|N]; simpl.
    + destruct (String.eqb j k); reflexivity.
    + rewrite IH. destruct (String.eqb j k'), (String.eqb j k); reflexivity.
Qed.

(** An assignment under a key other than [__proto__], or under a key the
    object has, defines the property. *)
Lemma assign_set (k : string) (v : value) (o : object) :
  k <> "__proto__" -> Obj.assign k v o = Obj.set k v o.
Proof.
  intros N. unfold Obj.assign.
  destruct (String.eqb_spec k "__proto__"); [contradiction|reflexivity].
Qed.

Lemma assign_held (k : string) (v : value) (o : object) :
  Obj.has k o = true -> Obj.assign k v o = Obj.set k v o.
Proof. intros H. unfold Obj.assign. rewrite H. now rewrite andb_false_r. Qed.

(** An assignment under [__proto__] leaves an object that has no such
    property as it is. *)
Lemma assign_dropped (v : value) (o : object) :
  Obj.has "__proto__" o = false -> Obj.assign "__proto__" v o = o.
Proof. intros H. unfold Obj.assign. now rewrite H. Qed.

Lemma assign_cases (k : string) (v : value) (o : object) :
  (k = "__proto__" /\ Obj.has k o = false /\ Obj.assign k v o = o)
  \/ ((k <> "__proto__" \/ Obj.has k o = true) /\ Obj.assign k v o = Obj.set k v o).
Proof.
  unfold Obj.assign. destruct (String.eqb_spec k "__proto__") as [->|N].
  - destruct (Obj.has "__proto__" o) eqn:H; [right|left]; auto.
  - right. auto.
Qed.

Lemma get_assign_same (k : string) (v : value) (o : object) :
  k <> "__proto__" -> Obj.get k (Obj.assign k v o) = Some v.
Proof. intros N. rewrite assign_set by assumption. apply get_set_same. Qed.

Lemma get_assign_other (k j : string) (v : value) (o : object) :
  j <> k -> Obj.get j (Obj.assign k v o) = Obj.get j o.
Proof.
  intros N. destruct (assign_cases k v o) as [(_ & _ & ->)|(_ & ->)];
    [reflexivity|now apply get_set_other].
Qed.

Lemma has_assign (k j : string) (v : value) (o : object) :
  Obj.has j (Obj.assign k v o)
  = (String.eqb j k && negb (String.eqb k "__proto__") || Obj.has j o)%bool.
Proof.
  destruct (assign_cases k v o) as [(-> & H & ->)|([N|H] & ->)].
  - simpl. now rewrite andb_false_r.
  - rewrite has_set. apply String.eqb_neq in N. rewrite N. simpl.
    now rewrite andb_true_r.
  - rewrite has_set. destruct (String.eqb_spec j k) as [->|]; [|reflexivity].
    rewrite H. simpl. now rewrite orb_true_r.
Qed.

Lemma keys_assign_absent (k : string) (v : value) (o : object) :
  k <> "__proto__" -> Obj.has k o = false -> Obj.assign k v o = (o ++ [(k, v)])%list.
Proof. intros N H. rewrite assign_set by assumption. now apply keys_set_absent. Qed.

Lemma has_app (k : string) (a b : object) :
  Obj.has k (a ++ b)%list = (Obj.has k a || Obj.has k b)%bool.
Proof.
  induction a as [|[k' v'] a IH]; simpl; [reflexivity|].
  destruct (String.eqb k k'); auto.
Qed.

Lemma existsb_keys (k : string) (o : object) :
  existsb (String.eqb k) (map fst o) = Obj.has k o.
Proof.
  induction o as [|[k' v'] o IH]; simpl; [reflexivity|].
  destruct (String.eqb k k'); auto.
Qed.

Lemma get_In (k : string) (v : value) (o : object) : Obj.get k o = Some v -> In (k, v) o.
Proof.
  induction o as [|[k' v'] o IH]; simpl; [discriminate|].
  destruct (String.eqb_spec k k') as [<-|N].
  - intros E. injection E as <-. now left.
  - intros E. right. now apply IH.
Qed.

Lemma get_has_false (k : string) (o : object) : Obj.has k o = false -> Obj.get k o = None.
Proof. rewrite has_get. now destruct (Obj.get k o). Qed.

Lemma get_map (g : value -> value) (k : string) (o : object) :
  Obj.get k (map (fun kv => (fst kv, g (snd kv))) o) = option_map g (Obj.get k o).
Proof.
  induction o as [|[j w] o IH]; simpl; [reflexivity|].
  now destruct (String.eqb k j).
Qed.

End ObjFacts.

Module MetadataFacts.

Import ObjFacts.

Lemma metadataOk_assign_id (s : string) (o : object) :
  metadataOk o = true -> metadataOk (Obj.assign "$id" (VString s) o) = true.
Proof.
  rewrite assign_set by discriminate.
  unfold metadataOk. intros H. apply andb_true_iff in H. destruct H as [_ H].
  rewrite get_set_same. rewrite get_set_other by discriminate. simpl. exact H.
Qed.

Lemma metadataOk_assign_permissions (items : list value) (o : object) :
  metadataOk o = true ->
  metadataOk
    (Obj.assign "$permissions" (VArray (map (fun x => VString (ToString x)) items)) o)
  = true.
Proof.
  rewrite assign_set by discriminate.
  unfold metadataOk. intros H. apply andb_true_iff in H. destruct H as [H _].
  rewrite get_set_same. rewrite get_set_other by discriminate. rewrite H. simpl.
  apply forallb_forall. intros x I. apply in_map_iff in I. destruct I as (y & <- & _).
  reflexivity.
Qed.

Lemma metadataOk_assign_nullish (k : string) (v : value) (o : object) :
  nullish v = true -> metadataOk o = true -> metadataOk (Obj.assign k v o) = true.
Proof.
  intros N H.
  destruct (assign_cases k v o) as [(_ & _ & ->)|(_ & ->)]; [exact H|].
  unfold metadataOk in *. apply andb_true_iff in H. destruct H as [H1 H2].
  destruct (String.eqb_spec k "$id") as [->|Ni].
  - rewrite get_set_same, get_set_other by discriminate. rewrite N, H2. reflexivity.
  - rewrite (get_set_other k "$id") by congruence. rewrite H1. simpl.
    destruct (String.eqb_spec k "$permissions") as [->|Np].
    + rewrite get_set_same. destruct v; try discriminate; reflexivity.
    + rewrite (get_set_other k "$permissions") by congruence. exact H2.
Qed.

Lemma metadataOk_assign_other (k : string) (v : value) (o : object) :
  k <> "$id" -> k <> "$permissions" ->
  metadataOk o = true -> metadataOk (Obj.assign k v o) = true.
Proof.
  unfold metadataOk. intros Ni Np H.
  rewrite (get_assign_other k "$id"), (get_assign_other k "$permissions") by congruence.
  exact H.
Qed.

(** [prepareValue] returns a missing value as it is. *)
Lemma prepareValue_nullish (fuel : nat) (v v' : value) :
  nullish v = true -> Doc.prepareValue fuel v = Ok v' -> v' = v.
Proof.
  destruct fuel; [discriminate|]. destruct v; try discriminate; simpl; congruence.
Qed.

Lemma replaceWith_metadata (prepare : value -> result value) :
  (forall v v', nullish v = true -> prepare v = Ok v' -> v' = v) ->
  forall input acc out,
    metadataOk acc = true ->
    Doc.replaceWith prepare input acc = Ok out ->
    metadataOk out = true.
Proof.
  intros P. induction input as [|[k v] input IH]; intros acc out A H;
    cbn [Doc.replaceWith] in H.
  - now injection H as <-.
  - destruct (String.eqb_spec k "$id") as [->|Ni]; cbn [andb] in H.
    + destruct (nullish v) eqn:N; cbn [negb] in H.
      * destruct (prepare v) as [v'| |] eqn:E; try discriminate. cbn [bind] in H.
        apply (IH _ _ (metadataOk_assign_nullish "$id" v' acc
                         ltac:(rewrite (P v v' N E); exact N) A) H).
      * destruct v; try discriminate; cbn [isString negb bind] in H; try discriminate.
        apply (IH _ _ (metadataOk_assign_id _ _ A) H).
    + destruct (String.eqb_spec k "$permissions") as [->|Np]; cbn [andb] in H.
      * destruct (nullish v) eqn:N; cbn [negb] in H.
        -- destruct (prepare v) as [v'| |] eqn:E; try discriminate. cbn [bind] in H.
           apply (IH _ _ (metadataOk_assign_nullish "$permissions" v' acc
                            ltac:(rewrite (P v v' N E); exact N) A) H).
        -- destruct v; try discriminate; cbn [bind] in H; try discriminate.
           apply (IH _ _ (metadataOk_assign_permissions _ _ A) H).
      * destruct (prepare v) as [v'| |] eqn:E; try discriminate. cbn [bind] in H.
        apply (IH _ _ (metadataOk_assign_other k v' acc Ni Np A) H).
Qed.

End MetadataFacts.

(** X1. Every Document the constructor returns, and so every clone, holds a
    string or a missing value as [$id] and an array of strings or a missing
    value as [$permissions]. *)
Theorem constructor_types_metadata (fuel : nat) (input : object) (d : Document) :
  Doc.construct fuel input = Ok d ->
  metadataOk (data d) = true
  /\ forall c, Doc.clone fuel d = Ok c -> metadataOk (data c) = true.
Proof.
  assert (G : forall i x, Doc.construct fuel i = Ok x -> metadataOk (data x) = true).
  { intros i x H. unfold Doc.construct, Doc.replace in H.
    destruct (Doc.replaceWith _ _ _) as [o| |] eqn:E; try discriminate.
    injection H as <-. simpl.
    exact (MetadataFacts.replaceWith_metadata (Doc.prepareValue fuel)
             (MetadataFacts.prepareValue_nullish fuel) i [] o eq_refl E). }
  intros H. split; [exact (G _ _ H)|]. intros c Hc. exact (G _ _ Hc).
Qed.

Lemma constructor_types_metadata_witness :
  let input := [("$id", VString "u1"); ("$permissions", VArray [VNumber 1; VString "read(any)"])] in
  let d := mkDocument [("$id", VString "u1");
                       ("$permissions", VArray [VString "1"; VString "read(any)"])] in
  metadataOk (data d) = true
  /\ forall c, Doc.clone 1 d = Ok c -> metadataOk (data c) = true.
Proof.
  intros input d. exact (constructor_types_metadata 1 input d eq_refl).
Defined.

(** ** Permissions *)

Module PermissionFacts.

Lemma existsb_strings (x : string) (content : list string) :
  existsb (strict_equal (VString x)) (map VString content)
  = existsb (String.eqb x) content.
Proof. induction content as [|y l IH]; simpl; [reflexivity|now rewrite IH]. Qed.

Lemma unique_strings (ps acc : list string) :
  fold_left Doc.setAdd (map VString ps) (map VString acc)
  = map VString (fold_left addString ps acc).
Proof.
  revert acc. induction ps as [|p ps IH]; intros acc; simpl; [reflexivity|].
  unfold Doc.setAdd at 2, addString at 2. rewrite existsb_strings.
  destruct (existsb (String.eqb p) acc).
  - apply IH.
  - change [VString p] with (map VString [p]). rewrite <- map_app. apply IH.
Qed.

Lemma existsb_In (x : string) (l : list string) :
  existsb (String.eqb x) l = true <-> In x l.
Proof.
  rewrite existsb_exists. split.
  - intros (y & I & E). apply String.eqb_eq in E. now subst.
  - intros I. exists x. split; [assumption|apply String.eqb_refl].
Qed.

Lemma addString_members (ps acc : list string) (x : string) :
  In x (fold_left addString ps acc) <-> In x acc \/ In x ps.
Proof.
  revert acc. induction ps as [|p ps IH]; intros acc; simpl; [tauto|].
  rewrite IH. unfold addString.
  destruct (existsb (String.eqb p) acc) eqn:E.
  - apply existsb_In in E. split; [tauto|]. intros [H|[<-|H]]; auto.
  - rewrite in_app_iff. simpl. tauto.
Qed.

Lemma addString_NoDup (ps acc : list string) :
  NoDup acc -> NoDup (fold_left addString ps acc).
Proof.
  revert acc. induction ps as [|p ps IH]; intros acc N; simpl; [assumption|].
  apply IH. unfold addString.
  destruct (existsb (String.eqb p) acc) eqn:E; [assumption|].
  apply NoDup_app; [assumption|constructor; [intros []|constructor]|].
  intros x I [<-|[]].
  apply existsb_In in I. congruence.
Qed.

Lemma addString_fresh (ps acc : list string) :
  NoDup (acc ++ ps) -> fold_left addString ps acc = (acc ++ ps)%list.
Proof.
  revert acc. induction ps as [|p ps IH]; intros acc N; simpl.
  - now rewrite List.app_nil_r.
  - unfold addString.
    destruct (existsb (String.eqb p) acc) eqn:E.
    + apply existsb_In in E. apply NoDup_remove_2 in N.
      exfalso. apply N. apply in_or_app. now left.
    + rewrite IH; rewrite <- List.app_assoc; simpl; [reflexivity|assumption].
Qed.

Lemma prefix_app (p rest : string) : String.prefix p (p ++ rest) = true.
Proof.
  induction p as [|c p IH]; simpl; [now destruct rest|].
  destruct (ascii_dec c c); [assumption|contradiction].
Qed.

Lemma prefix_split (p s : string) :
  String.prefix p s = true -> exists rest, s = p ++ rest.
Proof.
  revert s. induction p as [|c p IH]; intros s H.
  - now exists s.
  - destruct s as [|c' s]; simpl in H; [discriminate|].
    destruct (ascii_dec c c') as [<-|]; [|discriminate].
    destruct (IH s H) as (rest & ->). now exists rest.
Qed.

Lemma substring_all_but_last (s : string) :
  String.substring 0 (String.length s - 1) s = dropLast s.
Proof.
  induction s as [|c s IH]; [reflexivity|].
  destruct s as [|c' s]; [reflexivity|].
  replace (String.length (String c (String c' s)) - 1)%nat
    with (S (String.length (String c' s) - 1))%nat by (simpl; lia).
  change (String c (String.substring 0 (String.length (String c' s) - 1) (String c' s))
          = String c (dropLast (String c' s))).
  now rewrite IH.
Qed.

Lemma substring_skip (p rest : string) (n : nat) :
  String.substring (String.length p) n (p ++ rest) = String.substring 0 n rest.
Proof. induction p as [|c p IH]; simpl; [reflexivity|assumption]. Qed.

Lemma length_app (a b : string) :
  String.length (a ++ b) = (String.length a + String.length b)%nat.
Proof. induction a as [|c a IH]; simpl; [reflexivity|now rewrite IH]. Qed.

(** [(prefix + rest).slice(prefix.length, -1)] is [rest] without its last
    character. *)
Lemma slice_role (p rest : string) :
  Str.slice (p ++ rest) (Z.of_nat (String.length p)) (-1) = dropLast rest.
Proof.
  unfold Str.slice. rewrite length_app.
  set (lp := String.length p). set (lr := String.length rest).
  destruct (Z.ltb_spec (Z.of_nat lp) 0) as [?|_]; [lia|].
  change (-1 <? 0) with true. cbv iota.
  rewrite (Z.min_l (Z.of_nat lp)) by lia.
  rewrite Nat2Z.id.
  destruct rest as [|c rest'] eqn:R.
  - subst lr. simpl String.length.
    replace (Z.to_nat _) with 0%nat by lia.
    unfold lp. rewrite substring_skip. reflexivity.
  - replace (Z.to_nat _) with (lr - 1)%nat by (subst lr; simpl String.length; lia).
    unfold lp. rewrite substring_skip. subst lr. rewrite <- R.
    apply substring_all_but_last.
Qed.


Lemma getPermissions_strings (d : Document) (ps : list string) :
  Obj.get "$permissions" (data d) = Some (VArray (map VString ps)) ->
  Doc.getPermissions d = Ok (map VString (fold_left addString ps [])).
Proof.
  intros H. unfold Doc.getPermissions, prop. rewrite H. cbn [nullish Doc.iterate bind].
  unfold Doc.unique. f_equal. exact (unique_strings ps []).
Qed.

Lemma filterM_strings (f : string -> bool) (qs : list string) :
  filterM (fun permission =>
             match permission with
             | VString p => Ok (f p)
             | _ => Throw (TypeError "permission.startsWith is not a function")
             end) (map VString qs)
  = Ok (map VString (filter f qs)).
Proof.
  induction qs as [|q qs IH]; simpl; [reflexivity|].
  rewrite IH. simpl. now destruct (f q).
Qed.

Lemma mapM_strings (g : string -> string) (qs : list string) :
  mapM (fun permission =>
          match permission with
          | VString p => Ok (VString (g p))
          | _ => Throw (TypeError "permission.slice is not a function")
          end) (map VString qs)
  = Ok (map VString (map g qs)).
Proof.
  induction qs as [|q qs IH]; simpl; [reflexivity|].
  now rewrite IH.
Qed.

Lemma dropLast_closed (role : string) (c : ascii) :
  dropLast (role ++ String c "") = role.
Proof.
  induction role as [|x role IH]; [reflexivity|].
  destruct role as [|y r]; [reflexivity|].
  change (dropLast (String x (String y r) ++ String c ""))
    with (String x (dropLast (String y r ++ String c ""))).
  now rewrite IH.
Qed.

End PermissionFacts.

(** X2. [getPermissions] returns the stored permissions once each: no string
    twice, the same strings as stored, and the stored list itself when that
    repeats none. *)
Theorem getPermissions_once (d : Document) (ps : list string) :
  Obj.get "$permissions" (data d) = Some (VArray (map VString ps)) ->
  exists qs,
    Doc.getPermissions d = Ok (map VString qs)
    /\ NoDup qs
    /\ (forall p, In p qs <-> In p ps)
    /\ (NoDup ps -> qs = ps).
Proof.
  intros H. exists (fold_left addString ps []).
  split; [now apply PermissionFacts.getPermissions_strings|].
  split; [apply PermissionFacts.addString_NoDup; constructor|].
  split.
  - intros p. rewrite PermissionFacts.addString_members. simpl. tauto.
  - intros N. now apply (PermissionFacts.addString_fresh ps []).
Qed.

Lemma getPermissions_once_witness :
  exists qs,
    Doc.getPermissions
      (mkDocument [("$permissions", VArray (map VString ["read(any)"; "read(any)"]))])
    = Ok (map VString qs)
    /\ NoDup qs
    /\ (forall p, In p qs <-> In p ["read(any)"; "read(any)"])
    /\ (NoDup ["read(any)"; "read(any)"] -> qs = ["read(any)"; "read(any)"]).
Proof.
  exact (getPermissions_once
           (mkDocument [("$permissions", VArray (map VString ["read(any)"; "read(any)"]))])
           ["read(any)"; "read(any)"] eq_refl).
Defined.

(** X3. [getPermissionsByType(type)], and so [getRead], [getCreate],
    [getUpdate] and [getDelete], returns for every stored permission that
    starts with the type and an opening parenthesis what follows the
    parenthesis, without its last character, whatever that character is; a
    permission [type(role)] gives [role]. *)
Theorem permissions_by_type (d : Document) (ps : list string) (type : string) :
  Obj.get "$permissions" (data d) = Some (VArray (map VString ps)) ->
  exists roles,
    Doc.getPermissionsByType d type = Ok (map VString roles)
    /\ (forall r, In r roles <->
                  exists rest, In (type ++ "(" ++ rest) ps
                               /\ r = dropLast rest)
    /\ (forall role, In (type ++ "(" ++ role ++ ")") ps -> In role roles).
Proof.
  intros H.
  pose (prefix := type ++ "(").
  pose (qs := fold_left addString ps []).
  exists (map (fun p => Str.slice p (Z.of_nat (String.length prefix)) (-1))
            (filter (fun p => Str.startsWith p prefix) qs)).
  assert (R : forall r,
             In r (map (fun p => Str.slice p (Z.of_nat (String.length prefix)) (-1))
                     (filter (fun p => Str.startsWith p prefix) qs)) <->
             exists rest, In (type ++ "(" ++ rest) ps /\ r = dropLast rest).
  { intros r. rewrite in_map_iff. split.
    - intros (p & <- & I). apply filter_In in I. destruct I as [I S].
      apply PermissionFacts.addString_members in I. destruct I as [[]|I].
      apply PermissionFacts.prefix_split in S. destruct S as (rest & ->).
      exists rest. split.
      + unfold prefix in I. now rewrite <- Serialization.append_assoc.
      + apply PermissionFacts.slice_role.
    - intros (rest & I & ->). exists (prefix ++ rest). split.
      + apply PermissionFacts.slice_role.
      + apply filter_In. split.
        * apply PermissionFacts.addString_members. right.
          unfold prefix. now rewrite Serialization.append_assoc.
        * apply PermissionFacts.prefix_app. }
  split; [|split].
  - unfold Doc.getPermissionsByType.
    rewrite (PermissionFacts.getPermissions_strings d ps H). cbn [bind].
    fold prefix. fold qs.
    rewrite (PermissionFacts.filterM_strings (fun p => Str.startsWith p prefix)).
    cbn [bind].
    apply (PermissionFacts.mapM_strings
             (fun p => Str.slice p (Z.of_nat (String.length prefix)) (-1))).
  - exact R.
  - intros role I. apply R. exists (role ++ ")"). split; [exact I|].
    now rewrite PermissionFacts.dropLast_closed.
Qed.

Lemma permissions_by_type_witness :
  let d := mkDocument [("$permissions", VArray (map VString ["read(any)"; "update(admin)"]))] in
  exists roles,
    Doc.getPermissionsByType d "read" = Ok (map VString roles)
    /\ (forall r, In r roles <->
                  exists rest, In ("read" ++ "(" ++ rest) ["read(any)"; "update(admin)"]
                               /\ r = dropLast rest)
    /\ (forall role, In ("read" ++ "(" ++ role ++ ")") ["read(any)"; "update(admin)"] ->
                     In role roles).
Proof.
  intros d. exact (permissions_by_type d ["read(any)"; "update(admin)"] "read" eq_refl).
Defined.

(** ** Attributes *)

Module AttributeFacts.
Import ObjFacts.

Lemma getAttribute_get (d : Document) (k : string) (dflt : value) :
  Doc.getAttribute d k dflt = match Obj.get k (data d) with
                              | Some v => v
                              | None => dflt
                              end.
Proof.
  unfold Doc.getAttribute, prop. rewrite has_get.
  now destruct (Obj.get k (data d)).
Qed.

Lemma prepareValue_primitive (fuel : nat) (v stored : value) :
  isObject v = false -> Doc.prepareValue fuel v = Ok stored -> stored = v.
Proof.
  destruct fuel; [discriminate|]. destruct v; try discriminate; simpl; congruence.
Qed.

(** The loop of [getAttributes] over entries with distinct keys that the
    attributes collected so far do not hold. *)
Lemma getAttributes_fold (entries acc : object) (k : string) :
  distinct (map fst entries) = true ->
  (forall j, Obj.has j entries = true -> Obj.has j acc = false) ->
  Obj.get k
    (fold_left
       (fun attributes kv =>
          if existsb (String.eqb (fst kv)) Doc.RESERVED_KEYS then attributes
          else Obj.set (fst kv) (snd kv) attributes) entries acc)
  = match Obj.get k acc with
    | Some v => Some v
    | None => if reserved k then None else Obj.get k entries
    end.
Proof.
  revert acc. induction entries as [|[j w] entries IH]; intros acc D F.
  - simpl. destruct (Obj.get k acc); [reflexivity|now destruct (reserved k)].
  - simpl in D. apply andb_true_iff in D. destruct D as [Dj D].
    rewrite existsb_keys in Dj. apply negb_true_iff in Dj.
    assert (Fj : Obj.has j acc = false).
    { apply F. simpl. now rewrite String.eqb_refl. }
    cbn [fold_left fst snd].
    destruct (existsb (String.eqb j) Doc.RESERVED_KEYS) eqn:R.
    + rewrite IH; [|assumption|].
      * destruct (Obj.get k acc); [reflexivity|].
        simpl. destruct (String.eqb_spec k j) as [->|N]; [|reflexivity].
        unfold reserved. now rewrite R.
      * intros i Hi. apply F. simpl. rewrite Hi. now destruct (String.eqb i j).
    + rewrite IH; [|assumption|].
      * destruct (String.eqb_spec k j) as [->|N].
        -- rewrite get_set_same. rewrite has_get in Fj.
           destruct (Obj.get j acc); [discriminate|].
           unfold reserved. rewrite R. simpl. now rewrite String.eqb_refl.
        -- rewrite get_set_other by assumption.
           destruct (Obj.get k acc); [reflexivity|].
           simpl. destruct (String.eqb_spec k j); [contradiction|reflexivity].
      * intros i Hi. rewrite keys_set_absent by assumption. rewrite has_app.
        rewrite (F i) by (simpl; rewrite Hi; now destruct (String.eqb i j)).
        simpl. destruct (String.eqb_spec i j) as [->|]; [congruence|reflexivity].
Qed.

End AttributeFacts.

(** X4. After [setAttribute(key, value)] under a key other than [__proto__]
    the Document holds under [key] what [prepareValue] made of the value,
    which for a primitive is the value itself, [undefined] included:
    [getAttribute(key, default)] returns it, never the default; every other
    key reads as before. *)
Theorem setAttribute_then_getAttribute
  (fuel : nat) (this updated : Document) (key : string) (val : value) :
  key <> "__proto__" ->
  Doc.setAttribute fuel this key val = Ok updated ->
  exists stored,
    Doc.prepareValue fuel val = Ok stored
    /\ (forall defaultValue, Doc.getAttribute updated key defaultValue = stored)
    /\ (forall other defaultValue,
          other <> key ->
          Doc.getAttribute updated other defaultValue
          = Doc.getAttribute this other defaultValue)
    /\ (isObject val = false -> stored = val).
Proof.
  unfold Doc.setAttribute. intros K H.
  destruct (Doc.prepareValue fuel val) as [stored| |] eqn:E; try discriminate.
  injection H as <-. exists stored. split; [reflexivity|]. split; [|split].
  - intros dflt. rewrite AttributeFacts.getAttribute_get. simpl.
    now rewrite ObjFacts.get_assign_same.
  - intros other dflt N. rewrite !AttributeFacts.getAttribute_get. simpl.
    now rewrite ObjFacts.get_assign_other.
  - intros P. exact (AttributeFacts.prepareValue_primitive fuel val stored P E).
Qed.

Lemma setAttribute_then_getAttribute_witness :
  exists stored,
    Doc.prepareValue 1 VUndefined = Ok stored
    /\ (forall defaultValue,
          Doc.getAttribute (mkDocument [("name", VString "Ada"); ("age", VUndefined)])
            "age" defaultValue = stored)
    /\ (forall other defaultValue,
          other <> "age" ->
          Doc.getAttribute (mkDocument [("name", VString "Ada"); ("age", VUndefined)])
            other defaultValue
          = Doc.getAttribute (mkDocument [("name", VString "Ada")]) other defaultValue)
    /\ (isObject VUndefined = false -> stored = VUndefined).
Proof.
  refine (setAttribute_then_getAttribute 1 (mkDocument [("name", VString "Ada")])
            (mkDocument [("name", VString "Ada"); ("age", VUndefined)]) "age" VUndefined
            _ eq_refl).
  discriminate.
Defined.

(** X5. After [removeAttribute(key)] on a Document (an object holds no key
    twice) [getAttribute(key, default)] returns the default, and every other
    key reads as before. *)
Theorem removeAttribute_then_getAttribute (this : Document) (key : string) :
  distinct (map fst (data this)) = true ->
  (forall defaultValue,
      Doc.getAttribute (Doc.removeAttribute this key) key defaultValue = defaultValue)
  /\ (forall other defaultValue,
        other <> key ->
        Doc.getAttribute (Doc.removeAttribute this key) other defaultValue
        = Doc.getAttribute this other defaultValue).
Proof.
  intros D. split.
  - intros dflt. rewrite AttributeFacts.getAttribute_get. simpl.
    now rewrite ObjFacts.get_remove_same.
  - intros other dflt N. rewrite !AttributeFacts.getAttribute_get. simpl.
    now rewrite ObjFacts.get_remove_other.
Qed.

Lemma removeAttribute_then_getAttribute_witness :
  let this := mkDocument [("name", VString "Ada"); ("age", VNumber 36)] in
  (forall defaultValue,
      Doc.getAttribute (Doc.removeAttribute this "age") "age" defaultValue = defaultValue)
  /\ (forall other defaultValue,
        other <> "age" ->
        Doc.getAttribute (Doc.removeAttribute this "age") other defaultValue
        = Doc.getAttribute this other defaultValue).
Proof.
  intros this. exact (removeAttribute_then_getAttribute this "age" eq_refl).
Defined.

(** X6. [getAttributes] holds every entry of the Document whose key is not
    reserved, with its value, and no reserved key. *)
Theorem getAttributes_drops_reserved (this : Document) (key : string) :
  distinct (map fst (data this)) = true ->
  Obj.get key (Doc.getAttributes this)
  = if reserved key then None else Obj.get key (data this).
Proof.
  intros D. unfold Doc.getAttributes.
  rewrite AttributeFacts.getAttributes_fold; [reflexivity|assumption|reflexivity].
Qed.

Lemma getAttributes_drops_reserved_witness :
  Obj.get "name" (Doc.getAttributes (mkDocument [("$id", VString "u1"); ("name", VString "Ada")]))
  = if reserved "name" then None
    else Obj.get "name" (data (mkDocument [("$id", VString "u1"); ("name", VString "Ada")])).
Proof.
  exact (getAttributes_drops_reserved
           (mkDocument [("$id", VString "u1"); ("name", VString "Ada")]) "name" eq_refl).
Defined.

(** ** Cloning *)

Module CloneFacts.

Import ObjFacts MetadataFacts.

Lemma replaceWith_assignWith (prepare : value -> result value)
  (input : list (string * value)) :
  forall acc, Doc.replaceWith prepare input acc = assignWith (storedAs prepare) input acc.
Proof.
  induction input as [|[k v] input IH]; intros acc; [reflexivity|].
  cbn [Doc.replaceWith assignWith]. unfold storedAs.
  destruct (String.eqb k "$id" && negb (nullish v))%bool.
  - destruct (negb (isString v)); cbn [bind]; [reflexivity|apply IH].
  - destruct (String.eqb k "$permissions" && negb (nullish v))%bool.
    + destruct v; cbn [bind]; try reflexivity. apply IH.
    + destruct (prepare v); cbn [bind]; try reflexivity. apply IH.
Qed.

Lemma assignAll_assignWith (f : value -> result value)
  (entries : list (string * value)) :
  forall acc, Doc.assignAll f entries acc = assignWith (fun _ => f) entries acc.
Proof.
  induction entries as [|[k v] entries IH]; intros acc; [reflexivity|].
  cbn [Doc.assignAll assignWith]. destruct (f v); cbn [bind]; try reflexivity. apply IH.
Qed.

Lemma distinct_set (k : string) (v : value) (o : object) :
  distinct (map fst o) = true -> distinct (map fst (Obj.set k v o)) = true.
Proof.
  induction o as [|[k' v'] o IH]; simpl; [reflexivity|].
  intros D. apply andb_true_iff in D. destruct D as [F D].
  destruct (String.eqb_spec k k') as [<-|N]; simpl.
  - now rewrite F, D.
  - rewrite IH by assumption. rewrite existsb_keys in *. rewrite has_set.
    apply negb_true_iff in F. rewrite F.
    destruct (String.eqb_spec k' k); [congruence|reflexivity].
Qed.

Lemma distinct_assign (k : string) (v : value) (o : object) :
  distinct (map fst o) = true -> distinct (map fst (Obj.assign k v o)) = true.
Proof.
  intros D. destruct (assign_cases k v o) as [(_ & _ & ->)|(_ & ->)];
    [assumption|now apply distinct_set].
Qed.

Lemma In_set (k : string) (v : value) (o : object) (j : string) (w : value) :
  In (j, w) (Obj.set k v o) -> (j = k /\ w = v) \/ In (j, w) o.
Proof.
  induction o as [|[k' v'] o IH]; simpl.
  - intros [E|[]]. injection E as <- <-. now left.
  - destruct (String.eqb_spec k k') as [<-|N]; simpl.
    + intros [E|I]; [injection E as <- <-; now left|now right; right].
    + intros [E|I]; [now right; left|]. destruct (IH I); [now left|now right; right].
Qed.

Lemma In_assign (k : string) (v : value) (o : object) (j : string) (w : value) :
  In (j, w) (Obj.assign k v o) -> (j = k /\ w = v) \/ In (j, w) o.
Proof.
  destruct (assign_cases k v o) as [(_ & _ & ->)|(_ & ->)]; [now right|apply In_set].
Qed.

(** What a loop of assignments leaves in the target. *)
Lemma assignWith_invariant (f : string -> value -> result value)
  (Q : string -> value -> Prop) (entries : list (string * value)) :
  (forall k v v', In (k, v) entries -> f k v = Ok v' -> Q k v') ->
  forall acc out,
    assignWith f entries acc = Ok out ->
    (forall k w, In (k, w) acc -> Q k w) ->
    forall k w, In (k, w) out -> Q k w.
Proof.
  induction entries as [|[j v] entries IH]; intros F acc out H A k w I; simpl in H.
  - injection H as <-. now apply A.
  - destruct (f j v) as [v'| |] eqn:E; try discriminate. cbn [bind] in H.
    apply (IH (fun k0 v0 v0' I0 => F k0 v0 v0' (or_intror I0)) _ _ H); [|assumption].
    intros k0 w0 I0. apply In_assign in I0. destruct I0 as [[-> ->]|I0].
    + apply (F j v v' (or_introl eq_refl) E).
    + now apply A.
Qed.

Lemma assignWith_distinct (f : string -> value -> result value)
  (entries : list (string * value)) :
  forall acc out,
    assignWith f entries acc = Ok out ->
    distinct (map fst acc) = true -> distinct (map fst out) = true.
Proof.
  induction entries as [|[j v] entries IH]; intros acc out H D; simpl in H.
  - now injection H as <-.
  - destruct (f j v) as [v'| |]; try discriminate. cbn [bind] in H.
    apply (IH _ _ H). now apply distinct_assign.
Qed.

Lemma assignWith_has (f : string -> value -> result value)
  (entries : list (string * value)) :
  forall acc out k,
    assignWith f entries acc = Ok out ->
    Obj.has k out
    = (Obj.has k acc || Obj.has k entries && negb (String.eqb k "__proto__"))%bool.
Proof.
  induction entries as [|[j v] entries IH]; intros acc out k H; simpl in H.
  - injection H as <-. simpl. now rewrite orb_false_r.
  - destruct (f j v) as [v'| |]; try discriminate. cbn [bind] in H.
    rewrite (IH _ _ k H). rewrite has_assign. simpl.
    destruct (String.eqb_spec k j) as [->|N]; simpl.
    + destruct (String.eqb j "__proto__"), (Obj.has j acc); simpl;
        rewrite ?andb_false_r, ?orb_false_r; reflexivity.
    + reflexivity.
Qed.

Lemma assignWith_has_named (f : string -> value -> result value)
  (entries : list (string * value)) (acc out : object) (k : string) :
  k <> "__proto__" ->
  assignWith f entries acc = Ok out ->
  Obj.has k out = (Obj.has k acc || Obj.has k entries)%bool.
Proof.
  intros N H. rewrite (assignWith_has f entries acc out k H).
  apply String.eqb_neq in N. rewrite N. now rewrite andb_true_r.
Qed.

(** A loop of assignments into a target without the key [__proto__] leaves
    it without. *)
Lemma assignWith_ordinary (f : string -> value -> result value)
  (entries : list (string * value)) (acc out : object) :
  assignWith f entries acc = Ok out ->
  Obj.has "__proto__" acc = false -> Obj.has "__proto__" out = false.
Proof.
  intros H A. rewrite (assignWith_has f entries acc out "__proto__" H), A.
  simpl. apply andb_false_r.
Qed.

(** Entries with distinct keys that the target does not hold are appended in
    their order. *)
Lemma assignWith_fresh (f : string -> value -> result value) (g : value -> value)
  (o : list (string * value)) :
  distinct (map fst o) = true ->
  Obj.has "__proto__" o = false ->
  (forall k w, In (k, w) o -> f k (g w) = Ok w) ->
  forall acc,
    (forall k, Obj.has k o = true -> Obj.has k acc = false) ->
    assignWith f (map (fun kv => (fst kv, g (snd kv))) o) acc = Ok (acc ++ o)%list.
Proof.
  induction o as [|[j w] o IH]; intros D O F acc A; simpl.
  - now rewrite List.app_nil_r.
  - simpl in D. apply andb_true_iff in D. destruct D as [Dj D].
    rewrite existsb_keys in Dj. apply negb_true_iff in Dj.
    cbn [Obj.has] in O.
    destruct (String.eqb_spec "__proto__" j) as [|Nj]; [discriminate|].
    rewrite (F j w (or_introl eq_refl)). cbn [bind].
    rewrite keys_assign_absent;
      [|congruence|apply A; simpl; now rewrite String.eqb_refl].
    rewrite IH; [now rewrite <- List.app_assoc|assumption|assumption| |].
    + intros k0 w0 I0. apply F. now right.
    + intros k Hk. rewrite has_app. simpl.
      rewrite (A k) by (simpl; rewrite Hk; now destruct (String.eqb k j)).
      destruct (String.eqb_spec k j) as [->|]; [congruence|reflexivity].
Qed.

Lemma assignEach_fresh (g : value -> value) (o : list (string * value)) :
  distinct (map fst o) = true ->
  forall acc,
    (forall k, Obj.has k o = true -> Obj.has k acc = false) ->
    Doc.assignEach g o acc = (acc ++ map (fun kv => (fst kv, g (snd kv))) o)%list.
Proof.
  unfold Doc.assignEach.
  induction o as [|[j w] o IH]; intros D acc A; simpl.
  - now rewrite List.app_nil_r.
  - simpl in D. apply andb_true_iff in D. destruct D as [Dj D].
    rewrite existsb_keys in Dj. apply negb_true_iff in Dj.
    rewrite keys_set_absent by (apply A; simpl; now rewrite String.eqb_refl).
    rewrite IH; [now rewrite <- List.app_assoc|assumption|].
    intros k Hk. rewrite has_app. simpl.
    rewrite (A k) by (simpl; rewrite Hk; now destruct (String.eqb k j)).
    destruct (String.eqb_spec k j) as [->|]; [congruence|reflexivity].
Qed.

Lemma export_exported (entries : list (string * value)) :
  Doc.export (VDocument entries) = Doc.assignEach exported entries [].
Proof. reflexivity. Qed.

(** The export of a Document whose record holds no key twice. *)
Lemma export_distinct (c : object) :
  distinct (map fst c) = true ->
  Doc.export (VDocument c) = map (fun kv => (fst kv, exported (snd kv))) c.
Proof.
  intros D. rewrite export_exported. now rewrite assignEach_fresh.
Qed.

Lemma assignEach_invariant (g : value -> value) (Q : string -> value -> Prop)
  (entries : list (string * value)) :
  (forall k v, In (k, v) entries -> Q k (g v)) ->
  forall acc,
    (forall k w, In (k, w) acc -> Q k w) ->
    forall k w, In (k, w) (Doc.assignEach g entries acc) -> Q k w.
Proof.
  unfold Doc.assignEach.
  induction entries as [|[j v] entries IH]; intros F acc A k w I; simpl in I.
  - now apply A.
  - apply (IH (fun k0 v0 I0 => F k0 v0 (or_intror I0)) _) in I; [assumption|].
    intros k0 w0 I0. apply In_set in I0. destruct I0 as [[-> ->]|I0].
    + apply (F j v (or_introl eq_refl)).
    + now apply A.
Qed.

Lemma assignEach_distinct (g : value -> value) (entries : list (string * value)) :
  forall acc,
    distinct (map fst acc) = true ->
    distinct (map fst (Doc.assignEach g entries acc)) = true.
Proof.
  unfold Doc.assignEach.
  induction entries as [|[j v] entries IH]; intros acc D; simpl; [assumption|].
  apply IH. now apply distinct_set.
Qed.

Lemma assignEach_has (g : value -> value) (entries : list (string * value)) :
  forall acc k,
    Obj.has k (Doc.assignEach g entries acc) = (Obj.has k acc || Obj.has k entries)%bool.
Proof.
  unfold Doc.assignEach.
  induction entries as [|[j v] entries IH]; intros acc k; simpl.
  - now rewrite orb_false_r.
  - rewrite IH, has_set. destruct (String.eqb k j), (Obj.has k acc); reflexivity.
Qed.

Lemma exportedItem_not_document (v : value) : isDocument (exportedItem v) = false.
Proof. now destruct v. Qed.

Lemma exported_shallow (v : value) : shallow (exported v) = true.
Proof.
  destruct v; try reflexivity. simpl.
  apply forallb_forall. intros x I. apply in_map_iff in I. destruct I as (y & <- & _).
  now rewrite exportedItem_not_document.
Qed.

Lemma export_shallow (d : object) (k : string) (x : value) :
  In (k, x) (Doc.export (VDocument d)) -> shallow x = true.
Proof.
  rewrite export_exported.
  apply (assignEach_invariant exported (fun _ x => shallow x = true)).
  - intros. apply exported_shallow.
  - intros ? ? [].
Qed.

Lemma export_keys_distinct (d : object) :
  distinct (map fst (Doc.export (VDocument d))) = true.
Proof. rewrite export_exported. now apply assignEach_distinct. Qed.

Lemma export_has (d : object) (k : string) :
  Obj.has k (Doc.export (VDocument d)) = Obj.has k d.
Proof. rewrite export_exported. now rewrite assignEach_has. Qed.

Lemma mapM_fixed {A : Type} (f : A -> result A) (g : A -> A) (l : list A) :
  (forall x, In x l -> f (g x) = Ok x) -> mapM f (map g l) = Ok l.
Proof.
  induction l as [|x l IH]; intros H; simpl; [reflexivity|].
  rewrite (H x (or_introl eq_refl)). cbn [bind].
  rewrite IH by (intros y I; apply H; now right). reflexivity.
Qed.

Lemma mapM_In {A B : Type} (f : A -> result B) (l : list A) (out : list B) :
  mapM f l = Ok out -> forall y, In y out -> exists x, In x l /\ f x = Ok y.
Proof.
  revert out. induction l as [|x l IH]; intros out H y I; simpl in H.
  - injection H as <-. destruct I.
  - destruct (f x) as [b| |] eqn:E; try discriminate. cbn [bind] in H.
    destruct (mapM f l) as [bs| |]; try discriminate. cbn [bind] in H.
    injection H as <-. destruct I as [<-|I].
    + exists x. split; [now left|assumption].
    + destruct (IH bs eq_refl y I) as (x' & I' & E'). exists x'. split; [now right|assumption].
Qed.

Lemma isString_strings (items : list value) :
  map (fun x => VString (ToString x)) (map (fun x => VString (ToString x)) items)
  = map (fun x => VString (ToString x)) items.
Proof. rewrite map_map. reflexivity. Qed.

Lemma exportedItem_strings (items : list value) :
  map exportedItem (map (fun x => VString (ToString x)) items)
  = map (fun x => VString (ToString x)) items.
Proof. rewrite map_map. reflexivity. Qed.

(** What [replace] has stored for an entry with a shallow value is stored
    again for the export of what it stored. *)
Lemma stored_again (prepare : value -> result value) (k : string) (x w : value) :
  (forall v v', nullish v = true -> prepare v = Ok v' -> v' = v) ->
  (forall v w, prepare v = Ok w -> reproduces prepare v w) ->
  shallow x = true ->
  storedAs prepare k x = Ok w ->
  storedAs prepare k (exported w) = Ok w.
Proof.
  intros N P S H.
  destruct (nullish x) eqn:Nx.
  - assert (E : prepare x = Ok w).
    { unfold storedAs in H. rewrite Nx in H. cbn [negb] in H.
      now rewrite !andb_false_r in H. }
    pose proof (N x w Nx E) as W. subst w.
    replace (exported x) with x by (destruct x; try discriminate Nx; reflexivity).
    unfold storedAs. rewrite Nx. cbn [negb]. now rewrite !andb_false_r.
  - unfold storedAs in *. rewrite Nx in H. cbn [negb] in H. rewrite !andb_true_r in H.
    destruct (String.eqb k "$id") eqn:Ki.
    + destruct x; try discriminate; simpl in H; injection H as <-. reflexivity.
    + destruct (String.eqb k "$permissions") eqn:Kp.
      * destruct x; try discriminate. injection H as <-.
        cbn [exported nullish negb andb]. rewrite exportedItem_strings.
        now rewrite isString_strings.
      * destruct (P x w H) as (_ & _ & R). specialize (R S).
        destruct (nullish (exported w)); cbn [negb andb]; exact R.
Qed.

(** [replace] on the export of what it returned from a shallow input gives
    the same record. *)
Lemma replaceWith_again (prepare : value -> result value) (input c : object) :
  (forall v v', nullish v = true -> prepare v = Ok v' -> v' = v) ->
  (forall v w, prepare v = Ok w -> reproduces prepare v w) ->
  (forall k x, In (k, x) input -> shallow x = true) ->
  Doc.replaceWith prepare input [] = Ok c ->
  Doc.replaceWith prepare (Doc.export (VDocument c)) [] = Ok c.
Proof.
  intros N P S H. rewrite replaceWith_assignWith in *.
  assert (D : distinct (map fst c) = true) by (now apply (assignWith_distinct _ _ _ _ H)).
  assert (O : Obj.has "__proto__" c = false) by (now apply (assignWith_ordinary _ _ _ _ H)).
  rewrite (export_distinct c D).
  change c with ([] ++ c)%list at 2.
  apply assignWith_fresh; [assumption|assumption| |reflexivity].
  apply (assignWith_invariant (storedAs prepare)
           (fun k w => storedAs prepare k (exported w) = Ok w) input) with (acc := []) (out := c);
    [|assumption|intros ? ? []].
  intros k x w I E. apply (stored_again prepare k x w N P (S k x I) E).
Qed.

Lemma assignAll_again (prepare : value -> result value) (record cloned : object) :
  (forall v w, prepare v = Ok w -> reproduces prepare v w) ->
  Doc.assignAll prepare record [] = Ok cloned ->
  Doc.assignAll prepare cloned [] = Ok cloned.
Proof.
  intros P H. rewrite assignAll_assignWith in *.
  assert (D : distinct (map fst cloned) = true) by (now apply (assignWith_distinct _ _ _ _ H)).
  assert (O : Obj.has "__proto__" cloned = false)
    by (now apply (assignWith_ordinary _ _ _ _ H)).
  rewrite <- (map_id cloned) at 1.
  rewrite <- (map_ext (fun kv => (fst kv, (fun x => x) (snd kv))) (fun kv => kv))
    by (now intros []).
  change cloned with ([] ++ cloned)%list at 2.
  apply (assignWith_fresh (fun _ => prepare) (fun x => x));
    [assumption|assumption| |reflexivity].
  apply (assignWith_invariant (fun _ => prepare)
           (fun _ w => prepare w = Ok w) record) with (acc := []) (out := cloned);
    [|assumption|intros ? ? []].
  intros k x w I E. now destruct (P x w E).
Qed.

(** A record without [$id] and [$collection] is cloned into one. *)
Lemma plain_reproduces (n : nat) (record cloned : object) :
  (forall v w, Doc.prepareValue n v = Ok w -> reproduces (Doc.prepareValue n) v w) ->
  (Obj.has "$id" record || Obj.has "$collection" record)%bool = false ->
  Doc.assignAll (Doc.prepareValue n) record [] = Ok cloned ->
  Doc.prepareValue (S n) (VObject cloned) = Ok (VObject cloned).
Proof.
  intros IH K H. cbn [Doc.prepareValue].
  assert (K' : (Obj.has "$id" cloned || Obj.has "$collection" cloned)%bool = false).
  { rewrite assignAll_assignWith in H.
    rewrite (assignWith_has_named _ _ _ _ "$id" ltac:(discriminate) H),
      (assignWith_has_named _ _ _ _ "$collection" ltac:(discriminate) H).
    exact K. }
  rewrite K'. now rewrite (assignAll_again _ record cloned IH H).
Qed.

(** A record with [$id] or [$collection] becomes a Document, which its own
    export gives back. *)
Lemma keyed_reproduces (n : nat) (input c : object) :
  (forall v w, Doc.prepareValue n v = Ok w -> reproduces (Doc.prepareValue n) v w) ->
  (forall k x, In (k, x) input -> shallow x = true) ->
  Doc.replaceWith (Doc.prepareValue n) input [] = Ok c ->
  Doc.prepareValue (S n) (VDocument c) = Ok (VDocument c)
  /\ ((Obj.has "$id" c || Obj.has "$collection" c)%bool = true ->
      Doc.prepareValue (S n) (VObject (Doc.export (VDocument c))) = Ok (VDocument c)).
Proof.
  intros IH S H.
  pose proof (replaceWith_again (Doc.prepareValue n) input c
                (prepareValue_nullish n) IH S H) as A.
  split.
  - cbn [Doc.prepareValue]. now rewrite A.
  - intros K. cbn [Doc.prepareValue].
    rewrite !export_has. rewrite K. rewrite A. cbn [bind]. now rewrite A.
Qed.

Lemma prepareValue_reproduces (n : nat) :
  forall v w, Doc.prepareValue n v = Ok w -> reproduces (Doc.prepareValue n) v w.
Proof.
  induction n as [|n IH]; intros v w H; [discriminate|].
  destruct v as [| |b|z|s|items|record|d|m a vs].
  1-5: injection H as <-; repeat split; reflexivity.
  - (* an array *)
    cbn [Doc.prepareValue] in H.
    destruct (mapM (Doc.prepareValue n) items) as [ws| |] eqn:M; try discriminate.
    injection H as <-.
    assert (A : Doc.prepareValue (S n) (VArray ws) = Ok (VArray ws)).
    { cbn [Doc.prepareValue].
      rewrite <- (map_id ws) at 1.
      rewrite (mapM_fixed (Doc.prepareValue n) (fun x => x)); [reflexivity|].
      intros y I. destruct (mapM_In _ _ _ M y I) as (x & _ & E).
      now destruct (IH x y E). }
    split; [exact A|]. split; [intros _; exact A|].
    intros S. cbn [exported Doc.prepareValue].
    rewrite (mapM_fixed (Doc.prepareValue n) exportedItem); [reflexivity|].
    intros y I.
    clear A. revert y I. simpl in S. revert ws M.
    induction items as [|x l IHl]; intros ws M y I; simpl in M.
    + injection M as <-. destruct I.
    + destruct (Doc.prepareValue n x) as [b| |] eqn:E; try discriminate. cbn [bind] in M.
      destruct (mapM (Doc.prepareValue n) l) as [bs| |] eqn:Ml; try discriminate.
      injection M as <-. simpl in S. apply andb_true_iff in S. destruct S as [Sx S].
      destruct I as [<-|I].
      * destruct (IH x b E) as (_ & R & _). apply R. now apply negb_true_iff.
      * apply (IHl S bs eq_refl y I).
  - (* a plain object *)
    cbn [Doc.prepareValue] in H.
    destruct (Obj.has "$id" record || Obj.has "$collection" record)%bool eqn:K.
    + destruct (Doc.replaceWith (Doc.prepareValue n) record []) as [d0| |] eqn:R1;
        try discriminate. cbn [bind] in H.
      destruct (Doc.replaceWith (Doc.prepareValue n) (Doc.export (VDocument d0)) [])
        as [c| |] eqn:R2; try discriminate.
      injection H as <-.
      destruct (keyed_reproduces n (Doc.export (VDocument d0)) c IH
                  (export_shallow d0) R2) as [A B].
      assert (Kc : (Obj.has "$id" c || Obj.has "$collection" c)%bool = true).
      { rewrite replaceWith_assignWith in R1, R2.
        rewrite (assignWith_has_named _ _ _ _ "$id" ltac:(discriminate) R2),
          (assignWith_has_named _ _ _ _ "$collection" ltac:(discriminate) R2).
        rewrite !export_has.
        rewrite (assignWith_has_named _ _ _ _ "$id" ltac:(discriminate) R1),
          (assignWith_has_named _ _ _ _ "$collection" ltac:(discriminate) R1).
        exact K. }
      split; [exact A|]. split; intros _; exact (B Kc).
    + destruct (Doc.assignAll (Doc.prepareValue n) record []) as [cloned| |] eqn:R1;
        try discriminate.
      injection H as <-.
      pose proof (plain_reproduces n record cloned IH K R1) as A.
      split; [exact A|]. split; intros _; exact A.
  - (* a Document *)
    cbn [Doc.prepareValue] in H.
    destruct (Doc.replaceWith (Doc.prepareValue n) (Doc.export (VDocument d)) [])
      as [c| |] eqn:R; try discriminate.
    injection H as <-.
    destruct (keyed_reproduces n (Doc.export (VDocument d)) c IH (export_shallow d) R)
      as [A _].
    split; [exact A|]. split; intros S; discriminate S.
  - (* a Query *)
    cbn [Doc.prepareValue] in H.
    change (Obj.has "$id" (Doc.queryEntries m a vs)
            || Obj.has "$collection" (Doc.queryEntries m a vs))%bool with false in H.
    cbv iota in H.
    destruct (Doc.assignAll (Doc.prepareValue n) (Doc.queryEntries m a vs) [])
      as [cloned| |] eqn:R1; try discriminate.
    injection H as <-.
    pose proof (plain_reproduces n (Doc.queryEntries m a vs) cloned IH eq_refl R1) as A.
    split; [exact A|]. split; intros _; exact A.
Qed.

Lemma clone_again (fuel : nat) (this copy : Document) :
  Doc.clone fuel this = Ok copy -> Doc.clone fuel copy = Ok copy.
Proof.
  intros H. unfold Doc.clone, Doc.construct, Doc.replace, Doc.toJSON in *.
  destruct (Doc.replaceWith (Doc.prepareValue fuel) (Doc.export (VDocument (data this))) [])
    as [c| |] eqn:R; try discriminate.
  injection H as <-. cbn [data].
  rewrite (replaceWith_again (Doc.prepareValue fuel) _ c
             (prepareValue_nullish fuel) (prepareValue_reproduces fuel)
             (export_shallow (data this)) R).
  reflexivity.
Qed.

End CloneFacts.

(** X7. Cloning is idempotent: the clone of a clone is that clone, so that for
    a Document that is itself a clone, as every Document the adapter stores
    or returns is, [doc.clone().toJSON()] is [doc.toJSON()]. *)
Theorem clone_idempotent (fuel : nat) (this copy : Document) :
  Doc.clone fuel this = Ok copy ->
  Doc.clone fuel copy = Ok copy
  /\ exists again, Doc.clone fuel copy = Ok again /\ Doc.toJSON again = Doc.toJSON copy.
Proof.
  intros H. pose proof (CloneFacts.clone_again fuel this copy H) as C.
  split; [exact C|]. exists copy. split; [exact C|reflexivity].
Qed.

Lemma clone_idempotent_witness :
  let this := mkDocument [("profile", VDocument [("owner", VDocument [("$id", VString "u1")])])] in
  let copy := mkDocument [("profile", VObject [("owner", VDocument [("$id", VString "u1")])])] in
  Doc.clone 4 copy = Ok copy
  /\ exists again, Doc.clone 4 copy = Ok again /\ Doc.toJSON again = Doc.toJSON copy.
Proof.
  intros this copy. exact (clone_idempotent 4 this copy eq_refl).
Defined.



(** ** The adapter: storing, reading and deleting *)

Module StoreFacts.

Lemma JsMap_get_delete_same {V} (k : string) (m : JsMap.t V) :
  distinct (map fst m) = true -> JsMap.get k (JsMap.delete k m) = None.
Proof.
  induction m as [|[k' v'] m IH]; simpl; [reflexivity|].
  intros D. apply andb_true_iff in D. destruct D as [F D].
  destruct (String.eqb_spec k k') as [<-|N]; simpl.
  - apply negb_true_iff in F.
    clear IH D. induction m as [|[j w] m IH]; simpl in *; [reflexivity|].
    apply orb_false_iff in F. destruct F as [F1 F2]. rewrite F1. auto.
  - destruct (String.eqb_spec k k'); [contradiction|]. auto.
Qed.

Lemma JsMap_get_delete_other {V} (k j : string) (m : JsMap.t V) :
  j <> k -> JsMap.get j (JsMap.delete k m) = JsMap.get j m.
Proof.
  intros N. induction m as [|[k' v'] m IH]; simpl; [reflexivity|].
  destruct (String.eqb_spec k k') as [<-|N'].
  - destruct (String.eqb_spec j k); [contradiction|reflexivity].
  - simpl. destruct (String.eqb j k'); auto.
Qed.

Lemma JsMap_delete_absent {V} (k : string) (m : JsMap.t V) :
  JsMap.get k m = None -> JsMap.delete k m = m.
Proof.
  induction m as [|[k' v'] m IH]; simpl; [reflexivity|].
  destruct (String.eqb k k'); [discriminate|]. intros H. now rewrite IH.
Qed.

Lemma JsMap_set_In {V} (k : string) (v : V) (m : JsMap.t V) : In (k, v) (JsMap.set k v m).
Proof.
  induction m as [|[k' v'] m IH]; simpl; [now left|].
  destruct (String.eqb k k'); [now left|now right].
Qed.

Lemma slice_nil {A : Type} (start : Z) (end_ : option Z) : slice (@nil A) start end_ = [].
Proof. unfold slice. now rewrite skipn_nil, firstn_nil. Qed.

Lemma paginate_nil (p : plan) : paginate p [] = [].
Proof.
  unfold paginate.
  destruct (offset p =? 0), (limit p); rewrite ?slice_nil; reflexivity.
Qed.

Lemma applyQueries_nil (fuel : nat) (queries : list Query) :
  applyQueries fuel [] queries = Ok [].
Proof.
  unfold applyQueries, filterAndOrder. cbn [filterM bind].
  replace (match order (partition queries) with
           | [] => []
           | _ :: _ => sort (fun a b => compareDocuments a b (order (partition queries))) []
           end) with (@nil Document) by (now destruct (order (partition queries))).
  rewrite paginate_nil. apply PaginationFacts.project_nil.
Qed.

End StoreFacts.

(** X9. A document that [createDocument] stored is what [getDocument] returns
    under its id: the call returns a clone of the document, and the read
    that follows returns that same clone. *)
Theorem get_after_create
  (fuel : nat) (this : MemoryAdapter) (collection id : string)
  (stored : StoredCollection) (document copy : Document) :
  JsMap.get collection (collections this) = Some stored ->
  Doc.getId document = VString id ->
  Doc.clone fuel document = Ok copy ->
  exists after,
    Memory.createDocument fuel collection document this = (Ok copy, after)
    /\ Memory.getDocument fuel collection id after = (Ok (Some copy), after).
Proof.
  intros Hc Hid Hclone.
  exists (Memory.store this collection stored id copy). split.
  - unfold Memory.createDocument, Memory.requireCollection. now rewrite Hc, Hid, Hclone.
  - unfold Memory.getDocument, Memory.store. cbn [collections].
    rewrite MapFacts.JsMap_get_set_same. cbn [documents].
    rewrite MapFacts.JsMap_get_set_same.
    now rewrite (CloneFacts.clone_again fuel document copy Hclone).
Qed.

Lemma get_after_create_witness :
  let document := mkDocument [("$id", VString "u1"); ("name", VString "Ada")] in
  let stored := mkStoredCollection (mkCollectionSchema "users" (Some []) (Some [])) [] in
  let this := mkMemoryAdapter [("users", stored)] in
  exists after,
    Memory.createDocument 1 "users" document this = (Ok document, after)
    /\ Memory.getDocument 1 "users" "u1" after = (Ok (Some document), after).
Proof.
  intros document stored this.
  exact (get_after_create 1 this "users" "u1" stored document document
           eq_refl eq_refl eq_refl).
Defined.

(** X10. [deleteDocument] on an existing collection answers whether a document
    was stored under the id and removes it: the id then reads as null, a
    second delete answers false, and every other id reads as before. *)
Theorem delete_then_get
  (fuel : nat) (this : MemoryAdapter) (collection id : string) (stored : StoredCollection) :
  JsMap.get collection (collections this) = Some stored ->
  distinct (map fst (documents stored)) = true ->
  exists after,
    Memory.deleteDocument collection id this
    = (Ok (JsMap.has id (documents stored)), after)
    /\ Memory.getDocument fuel collection id after = (Ok None, after)
    /\ fst (Memory.deleteDocument collection id after) = Ok false
    /\ (forall other,
          other <> id ->
          fst (Memory.getDocument fuel collection other after)
          = fst (Memory.getDocument fuel collection other this)).
Proof.
  intros Hc D.
  exists (mkMemoryAdapter
            (JsMap.set collection
               (mkStoredCollection (schema stored) (JsMap.delete id (documents stored)))
               (collections this))).
  split; [|split; [|split]].
  - unfold Memory.deleteDocument, Memory.requireCollection. now rewrite Hc.
  - unfold Memory.getDocument. cbn [collections].
    rewrite MapFacts.JsMap_get_set_same. cbn [documents].
    now rewrite StoreFacts.JsMap_get_delete_same.
  - unfold Memory.deleteDocument, Memory.requireCollection. cbn [collections].
    rewrite MapFacts.JsMap_get_set_same. cbn [fst documents]. unfold JsMap.has.
    rewrite StoreFacts.JsMap_get_delete_same by assumption. reflexivity.
  - intros other N. unfold Memory.getDocument. cbn [collections].
    rewrite MapFacts.JsMap_get_set_same, Hc. cbn [documents].
    rewrite StoreFacts.JsMap_get_delete_other by assumption.
    now destruct (JsMap.get other (documents stored)).
Qed.

Lemma delete_then_get_witness :
  let stored := mkStoredCollection (mkCollectionSchema "users" (Some []) (Some []))
                  [("u1", mkDocument [("$id", VString "u1")]);
                   ("u2", mkDocument [("$id", VString "u2")])] in
  let this := mkMemoryAdapter [("users", stored)] in
  exists after,
    Memory.deleteDocument "users" "u1" this
    = (Ok (JsMap.has "u1" (documents stored)), after)
    /\ Memory.getDocument 1 "users" "u1" after = (Ok None, after)
    /\ fst (Memory.deleteDocument "users" "u1" after) = Ok false
    /\ (forall other,
          other <> "u1" ->
          fst (Memory.getDocument 1 "users" other after)
          = fst (Memory.getDocument 1 "users" other this)).
Proof.
  intros stored this.
  exact (delete_then_get 1 this "users" "u1" stored eq_refl eq_refl).
Defined.

(** X11. [createCollection] always succeeds and leaves a collection of that
    name with no documents, whether or not one existed: a collection created
    again loses what it held. Its schema is the given one with missing
    attributes and indexes as empty lists, and every other collection is as
    before. *)
Theorem createCollection_starts_empty (this : MemoryAdapter) (s : CollectionSchema) :
  exists after,
    Memory.createCollection s this = (Ok tt, after)
    /\ JsMap.get (name s) (collections after)
       = Some (mkStoredCollection
                 (mkCollectionSchema (name s)
                    (Some (match attributes s with Some l => l | None => [] end))
                    (Some (match indexes s with Some l => l | None => [] end)))
                 [])
    /\ (forall fuel queries,
          Memory.listDocuments fuel (name s) queries after = (Ok [], after))
    /\ (forall fuel id, Memory.getDocument fuel (name s) id after = (Ok None, after))
    /\ (forall other,
          other <> name s ->
          JsMap.get other (collections after) = JsMap.get other (collections this))
    /\ exists schemas,
        Memory.listCollections after = (Ok schemas, after)
        /\ In (mkCollectionSchema (name s)
                 (Some (match attributes s with Some l => l | None => [] end))
                 (Some (match indexes s with Some l => l | None => [] end)))
              schemas.
Proof.
  eexists. split; [reflexivity|].
  cbn [collections].
  split; [apply MapFacts.JsMap_get_set_same|]. split; [|split; [|split]].
  - intros fuel queries. unfold Memory.listDocuments. cbn [collections].
    rewrite MapFacts.JsMap_get_set_same. cbn [documents JsMap.values map mapM bind].
    now rewrite StoreFacts.applyQueries_nil.
  - intros fuel id. unfold Memory.getDocument. cbn [collections].
    now rewrite MapFacts.JsMap_get_set_same.
  - intros other N. now apply MapFacts.JsMap_get_set_other.
  - eexists. split; [reflexivity|]. cbn [collections].
    apply in_map_iff. eexists. split; [|apply in_map_iff; eexists; split; [reflexivity|]].
    2: { apply StoreFacts.JsMap_set_In. }
    reflexivity.
Qed.

(** X12. [deleteCollection] always succeeds. Afterwards the name is unknown:
    reads return nothing and [createDocument] fails with the not-found
    error; every other collection is as before, and deleting a name that is
    not there changes nothing. *)
Theorem deleteCollection_forgets (this : MemoryAdapter) (collection : string) :
  distinct (map fst (collections this)) = true ->
  exists after,
    Memory.deleteCollection collection this = (Ok tt, after)
    /\ (forall fuel id, Memory.getDocument fuel collection id after = (Ok None, after))
    /\ (forall fuel queries,
          Memory.listDocuments fuel collection queries after = (Ok [], after))
    /\ (forall fuel document,
          Memory.createDocument fuel collection document after
          = (Throw (notFound collection), after))
    /\ (forall other,
          other <> collection ->
          JsMap.get other (collections after) = JsMap.get other (collections this))
    /\ (JsMap.get collection (collections this) = None -> after = this).
Proof.
  intros D. eexists. split; [reflexivity|].
  assert (G : JsMap.get collection (JsMap.delete collection (collections this)) = None)
    by (now apply StoreFacts.JsMap_get_delete_same).
  split; [|split; [|split; [|split]]].
  - intros fuel id. unfold Memory.getDocument. cbn [collections]. now rewrite G.
  - intros fuel queries. unfold Memory.listDocuments. cbn [collections]. now rewrite G.
  - intros fuel document. unfold Memory.createDocument, Memory.requireCollection.
    cbn [collections]. now rewrite G.
  - intros other N. cbn [collections]. now apply StoreFacts.JsMap_get_delete_other.
  - intros A. rewrite (StoreFacts.JsMap_delete_absent _ _ A). now destruct this.
Qed.

Lemma deleteCollection_forgets_witness :
  let this :=
    mkMemoryAdapter
      [("users", mkStoredCollection (mkCollectionSchema "users" (Some []) (Some []))
                   [("u1", mkDocument [("$id", VString "u1")])])] in
  exists after,
    Memory.deleteCollection "users" this = (Ok tt, after)
    /\ (forall fuel id, Memory.getDocument fuel "users" id after = (Ok None, after))
    /\ (forall fuel queries,
          Memory.listDocuments fuel "users" queries after = (Ok [], after))
    /\ (forall fuel document,
          Memory.createDocument fuel "users" document after
          = (Throw (notFound "users"), after))
    /\ (forall other,
          other <> "users" ->
          JsMap.get other (collections after) = JsMap.get other (collections this))
    /\ (JsMap.get "users" (collections this) = None -> after = this).
Proof.
  intros this. exact (deleteCollection_forgets this "users" eq_refl).
Defined.

(** ** The comparator *)

Module ComparisonFacts.



Lemma strict_equal_sym (a b : value) : strict_equal a b = strict_equal b a.
Proof.
  destruct a, b; simpl; try reflexivity.
  - now destruct b, b0.
  - apply Z.eqb_sym.
  - apply String.eqb_sym.
Qed.


Lemma byString_antisym (s t : string) : byString t s = - byString s t.
Proof.
  unfold byString.
  destruct (ComparatorFacts.ltb_trichotomy s t) as [(Q & L & G)|[(Q & L & G)|(Q & L & G)]];
    rewrite (String.eqb_sym t s), Q, ?L, ?G; reflexivity.
Qed.


(** [compareValues] on two values that are present and not identical. *)
Lemma compareValues_present (a b : value) :
  nullish a = false -> nullish b = false -> strict_equal a b = false ->
  compareValues a b
  = match a, b with
    | VNumber x, VNumber y => x - y
    | _, _ => byString (ToString a) (ToString b)
    end.
Proof.
  intros Na Nb E. unfold compareValues. rewrite E, Na, Nb.
  destruct a, b; reflexivity.
Qed.

End ComparisonFacts.

(** X13. [compareValues] is antisymmetric in sign, but for [null] against
    [undefined], where it answers -1 both ways. *)
Theorem compareValues_antisymmetric (a b : value) :
  Z.sgn (compareValues b a)
  = if (nullish a && nullish b && negb (strict_equal a b))%bool then -1
    else - Z.sgn (compareValues a b).
Proof.
  destruct (strict_equal a b) eqn:E.
  - rewrite andb_false_r. unfold compareValues.
    rewrite ComparisonFacts.strict_equal_sym, E. reflexivity.
  - rewrite andb_true_r.
    pose proof E as E'. rewrite ComparisonFacts.strict_equal_sym in E'.
    destruct (nullish a) eqn:Na, (nullish b) eqn:Nb; cbn [andb].
    + unfold compareValues. now rewrite E', Nb.
    + unfold compareValues. now rewrite E, E', Na, Nb.
    + unfold compareValues. now rewrite E, E', Na, Nb.
    + rewrite !ComparisonFacts.compareValues_present by assumption.
      destruct a, b; try discriminate;
        try (rewrite ComparisonFacts.byString_antisym; now rewrite Z.sgn_opp).
      rewrite <- Z.sgn_opp. f_equal. lia.
Qed.



(** ** Filters *)

Module FilterFacts.

Lemma forallb_negb {A : Type} (f : A -> bool) (l : list A) :
  forallb (fun x => negb (f x)) l = negb (existsb f l).
Proof.
  induction l as [|x l IH]; simpl; [reflexivity|].
  rewrite IH. now destruct (f x).
Qed.

Lemma geb_ltb (c : Z) : (c >=? 0) = negb (c <? 0).
Proof. rewrite Z.geb_leb. now rewrite Z.leb_antisym. Qed.

Lemma leb_gtb (c : Z) : (c <=? 0) = negb (c >? 0).
Proof. rewrite Z.gtb_ltb. now rewrite Z.leb_antisym. Qed.

Lemma everyM_all {A : Type} (f : A -> result bool) (l : list A) (bs : list bool) :
  Forall2 (fun x b => f x = Ok b) l bs -> everyM f l = Ok (forallb (fun b => b) bs).
Proof.
  induction 1 as [|x b l bs E _ IH]; simpl; [reflexivity|].
  rewrite E. cbn [bind]. destruct b; [exact IH|reflexivity].
Qed.

Lemma someM_any {A : Type} (f : A -> result bool) (l : list A) (bs : list bool) :
  Forall2 (fun x b => f x = Ok b) l bs -> someM f l = Ok (existsb (fun b => b) bs).
Proof.
  induction 1 as [|x b l bs E _ IH]; simpl; [reflexivity|].
  rewrite E. cbn [bind]. destruct b; [reflexivity|exact IH].
Qed.

Lemma compareValues_numbers (n k : Z) :
  compareValues (VNumber n) (VNumber k) = n - k.
Proof.
  unfold compareValues. simpl. destruct (Z.eqb_spec n k); [lia|reflexivity].
Qed.

Lemma compareValues_undefined (x : value) :
  strict_equal VUndefined x = false -> compareValues VUndefined x = -1.
Proof. intros E. unfold compareValues. now rewrite E. Qed.

(** The tests of [evaluate] on a method that is none of its cases. *)
Lemma not_listed (m c : string) (l : list string) :
  existsb (String.eqb m) l = false -> In c l -> String.eqb m c = false.
Proof.
  intros H I. destruct (String.eqb m c) eqn:E; [|reflexivity].
  rewrite <- H. symmetry. apply existsb_exists. now exists c.
Qed.

End FilterFacts.

(** X15. Every negated filter is the exact complement of its positive form on
    every document: [notEqual] of [equal], [notContains] of [contains],
    [notSearch] of [search], [isNotNull] of [isNull], [notStartsWith] of
    [startsWith], [notEndsWith] of [endsWith], and likewise
    [greaterThanEqual] of [lessThan] and [lessThanEqual] of [greaterThan]. A
    document passes exactly one of the two, and an exception of one is the
    exception of the other. *)
Theorem negated_filters_complement
  (document : Document) (positive negative attribute : string) (operands : list value) :
  In (positive, negative) complements ->
  evaluate document (mkQuery negative attribute operands)
  = negM (evaluate document (mkQuery positive attribute operands)).
Proof.
  intros I. unfold complements in I. simpl in I.
  repeat (destruct I as [I|I]; [injection I as <- <-|]); [..|destruct I];
    unfold evaluate, negM; simpl; try reflexivity.
  - now rewrite FilterFacts.forallb_negb.
  - now rewrite FilterFacts.geb_ltb.
  - now rewrite FilterFacts.leb_gtb.
Qed.

Lemma negated_filters_complement_witness :
  evaluate (mkDocument [("age", VNumber 36)]) (mkQuery "notEqual" "age" [VNumber 36])
  = negM (evaluate (mkDocument [("age", VNumber 36)]) (mkQuery "equal" "age" [VNumber 36])).
Proof.
  apply (negated_filters_complement (mkDocument [("age", VNumber 36)]) "equal" "notEqual").
  left. reflexivity.
Defined.

(** X16. [and] holds on a document when every operand holds and [or] when some
    operand holds, so that [and] of no operand holds and [or] of none does
    not. *)
Theorem logical_filters
  (document : Document) (attribute : string) (operands : list Query) (answers : list bool) :
  Forall2 (fun q b => evaluate document q = Ok b) operands answers ->
  evaluate document (mkQuery Qry.TYPE_AND attribute (map Qry.instance operands))
  = Ok (forallb (fun b => b) answers)
  /\ evaluate document (mkQuery Qry.TYPE_OR attribute (map Qry.instance operands))
     = Ok (existsb (fun b => b) answers).
Proof.
  intros H.
  assert (F : Forall2 (fun v b => evaluateValue document v = Ok b)
                (map Qry.instance operands) answers).
  { induction H; simpl; constructor; assumption. }
  split.
  - unfold evaluate. cbn. now apply FilterFacts.everyM_all.
  - unfold evaluate. cbn. now apply FilterFacts.someM_any.
Qed.

Lemma logical_filters_witness :
  let document := mkDocument [("age", VNumber 36)] in
  let operands := [mkQuery "equal" "age" [VNumber 36]; mkQuery "isNull" "name" []] in
  evaluate document (mkQuery Qry.TYPE_AND "" (map Qry.instance operands))
  = Ok (forallb (fun b => b) [true; true])
  /\ evaluate document (mkQuery Qry.TYPE_OR "" (map Qry.instance operands))
     = Ok (existsb (fun b => b) [true; true]).
Proof.
  intros document operands.
  apply (logical_filters document "" operands [true; true]).
  repeat constructor.
Defined.

(** X17. On an attribute that holds a number the relational filters with a
    number as operand are the order of the integers: [lessThan],
    [lessThanEqual], [greaterThan], [greaterThanEqual] and [equal] compare
    the two numbers, and [between] holds from the lower bound to the upper,
    both included. *)
Theorem relational_filters_on_numbers
  (document : Document) (attribute : string) (n k : Z) :
  Doc.getAttribute document attribute VUndefined = VNumber n ->
  evaluate document (mkQuery Qry.TYPE_LESS_THAN attribute [VNumber k]) = Ok (n <? k)
  /\ evaluate document (mkQuery Qry.TYPE_LESS_THAN_EQUAL attribute [VNumber k]) = Ok (n <=? k)
  /\ evaluate document (mkQuery Qry.TYPE_GREATER_THAN attribute [VNumber k]) = Ok (k <? n)
  /\ evaluate document (mkQuery Qry.TYPE_GREATER_THAN_EQUAL attribute [VNumber k])
     = Ok (k <=? n)
  /\ evaluate document (mkQuery Qry.TYPE_EQUAL attribute [VNumber k]) = Ok (n =? k)
  /\ forall upper,
      evaluate document (mkQuery Qry.TYPE_BETWEEN attribute [VNumber k; VNumber upper])
      = Ok ((k <=? n) && (n <=? upper))%bool.
Proof.
  intros H. unfold evaluate. cbn. rewrite H.
  rewrite !FilterFacts.compareValues_numbers.
  repeat split; try intros upper; rewrite ?FilterFacts.compareValues_numbers; f_equal.
  - destruct (Z.ltb_spec (n - k) 0), (Z.ltb_spec n k); lia || reflexivity.
  - destruct (Z.leb_spec (n - k) 0), (Z.leb_spec n k); lia || reflexivity.
  - rewrite Z.gtb_ltb. destruct (Z.ltb_spec 0 (n - k)), (Z.ltb_spec k n); lia || reflexivity.
  - rewrite Z.geb_leb. destruct (Z.leb_spec 0 (n - k)), (Z.leb_spec k n); lia || reflexivity.
  - rewrite orb_false_r. destruct (Z.eqb_spec (n - k) 0), (Z.eqb_spec n k); lia || reflexivity.
  - rewrite Z.geb_leb.
    destruct (Z.leb_spec 0 (n - k)), (Z.leb_spec k n); try lia;
      destruct (Z.leb_spec (n - upper) 0), (Z.leb_spec n upper); lia || reflexivity.
Qed.

Lemma relational_filters_on_numbers_witness :
  let document := mkDocument [("age", VNumber 85)] in
  evaluate document (mkQuery Qry.TYPE_LESS_THAN "age" [VNumber 60]) = Ok (85 <? 60)
  /\ evaluate document (mkQuery Qry.TYPE_LESS_THAN_EQUAL "age" [VNumber 60]) = Ok (85 <=? 60)
  /\ evaluate document (mkQuery Qry.TYPE_GREATER_THAN "age" [VNumber 60]) = Ok (60 <? 85)
  /\ evaluate document (mkQuery Qry.TYPE_GREATER_THAN_EQUAL "age" [VNumber 60])
     = Ok (60 <=? 85)
  /\ evaluate document (mkQuery Qry.TYPE_EQUAL "age" [VNumber 60]) = Ok (85 =? 60)
  /\ forall upper,
      evaluate document (mkQuery Qry.TYPE_BETWEEN "age" [VNumber 60; VNumber upper])
      = Ok ((60 <=? 85) && (85 <=? upper))%bool.
Proof.
  intros document. exact (relational_filters_on_numbers document "age" 85 60 eq_refl).
Defined.

(** X18. A document that lacks the attribute is below every operand other than
    [undefined]: it passes [lessThan] and [lessThanEqual] and fails
    [greaterThan], [greaterThanEqual] and [equal], whatever the operand, and
    it passes [isNull]. *)
Theorem missing_attribute_filters
  (document : Document) (attribute : string) (operand : value) :
  Doc.getAttribute document attribute VUndefined = VUndefined ->
  strict_equal VUndefined operand = false ->
  evaluate document (mkQuery Qry.TYPE_LESS_THAN attribute [operand]) = Ok true
  /\ evaluate document (mkQuery Qry.TYPE_LESS_THAN_EQUAL attribute [operand]) = Ok true
  /\ evaluate document (mkQuery Qry.TYPE_GREATER_THAN attribute [operand]) = Ok false
  /\ evaluate document (mkQuery Qry.TYPE_GREATER_THAN_EQUAL attribute [operand]) = Ok false
  /\ evaluate document (mkQuery Qry.TYPE_EQUAL attribute [operand]) = Ok false
  /\ evaluate document (mkQuery Qry.TYPE_IS_NULL attribute []) = Ok true.
Proof.
  intros H E. unfold evaluate. cbn. rewrite H.
  rewrite !(FilterFacts.compareValues_undefined operand E).
  repeat split.
Qed.

Lemma missing_attribute_filters_witness :
  let document := mkDocument [("name", VString "Ada")] in
  evaluate document (mkQuery Qry.TYPE_LESS_THAN "age" [VNumber 0]) = Ok true
  /\ evaluate document (mkQuery Qry.TYPE_LESS_THAN_EQUAL "age" [VNumber 0]) = Ok true
  /\ evaluate document (mkQuery Qry.TYPE_GREATER_THAN "age" [VNumber 0]) = Ok false
  /\ evaluate document (mkQuery Qry.TYPE_GREATER_THAN_EQUAL "age" [VNumber 0]) = Ok false
  /\ evaluate document (mkQuery Qry.TYPE_EQUAL "age" [VNumber 0]) = Ok false
  /\ evaluate document (mkQuery Qry.TYPE_IS_NULL "age" []) = Ok true.
Proof.
  intros document.
  exact (missing_attribute_filters document "age" (VNumber 0) eq_refl eq_refl).
Defined.

(** X19. A query whose method is none of the filter methods passes every
    document: a method the constructor let through unvalidated, and [limit],
    [offset], [orderAsc], [orderDesc] and [select] where they stand as a
    filter, as inside [and] and [or]. *)
Theorem other_methods_pass_every_document
  (document : Document) (m field : string) (operands : list value) :
  existsb (String.eqb m) FILTER_METHODS = false ->
  evaluate document (mkQuery m field operands) = Ok true.
Proof.
  intros H. unfold evaluate. cbn [Qry.instance method attribute values evaluateValue].
  repeat match goal with
         | |- context [String.eqb m ?c] =>
             rewrite (FilterFacts.not_listed m c FILTER_METHODS H)
               by (unfold FILTER_METHODS; simpl; tauto)
         end.
  reflexivity.
Qed.

Lemma other_methods_pass_every_document_witness :
  evaluate (mkDocument []) (mkQuery "limit" "" [VNumber 0]) = Ok true.
Proof.
  exact (other_methods_pass_every_document (mkDocument []) "limit" "" [VNumber 0] eq_refl).
Defined.

Module TextFacts.

Lemma rev_onto_app (s acc : string) : Str.rev_onto s acc = Str.rev_onto s "" ++ acc.
Proof.
  revert acc. induction s as [|c s IH]; intros acc; simpl; [reflexivity|].
  rewrite IH. rewrite (IH (String c "")).
  rewrite Serialization.append_assoc. reflexivity.
Qed.

Lemma rev_cons (c : ascii) (s : string) : Str.rev (String c s) = Str.rev s ++ String c "".
Proof. unfold Str.rev. simpl. apply rev_onto_app. Qed.

Lemma rev_app (a b : string) : Str.rev (a ++ b) = Str.rev b ++ Str.rev a.
Proof.
  induction a as [|c a IH]; simpl.
  - now rewrite Serialization.append_nil.
  - rewrite !rev_cons, IH. apply Serialization.append_assoc.
Qed.

Lemma rev_involutive (s : string) : Str.rev (Str.rev s) = s.
Proof.
  induction s as [|c s IH]; [reflexivity|].
  rewrite rev_cons, rev_app, IH. reflexivity.
Qed.

Lemma startsWith_spec (s p : string) :
  Str.startsWith s p = true <-> exists rest, s = p ++ rest.
Proof.
  unfold Str.startsWith. split.
  - apply PermissionFacts.prefix_split.
  - intros (rest & ->). apply PermissionFacts.prefix_app.
Qed.

Lemma endsWith_spec (s p : string) :
  Str.endsWith s p = true <-> exists rest, s = rest ++ p.
Proof.
  unfold Str.endsWith. split.
  - intros H. apply PermissionFacts.prefix_split in H. destruct H as (r & E).
    exists (Str.rev r).
    rewrite <- (rev_involutive s), E, rev_app, rev_involutive. reflexivity.
  - intros (rest & ->). rewrite rev_app. apply PermissionFacts.prefix_app.
Qed.

Lemma includes_spec (s p : string) :
  Str.includes s p = true <-> exists before after, s = before ++ p ++ after.
Proof.
  induction s as [|c s IH].
  - cbn [Str.includes]. rewrite orb_false_r. split.
    + intros H. apply PermissionFacts.prefix_split in H. destruct H as (rest & E).
      exists "", rest. exact E.
    + intros (before & after & E).
      destruct before; [|discriminate]. simpl in E. rewrite E.
      apply PermissionFacts.prefix_app.
  - cbn [Str.includes]. rewrite orb_true_iff, IH. split.
    + intros [H|(before & after & ->)].
      * apply PermissionFacts.prefix_split in H. destruct H as (rest & E).
        exists "", rest. exact E.
      * exists (String c before), after. reflexivity.
    + intros (before & after & E). destruct before as [|c' before].
      * left. simpl in E. rewrite E. apply PermissionFacts.prefix_app.
      * right. simpl in E. injection E as _ E. now exists before, after.
Qed.

End TextFacts.

(** X20. The text filters look at strings only. On an attribute that holds a
    string, [startsWith] holds when the string begins with the operand,
    [endsWith] when it ends with it, and [search] when the string contains
    the operand, both in lower case. On an attribute that holds anything
    else, a number or an array included, each of the three fails. *)
Theorem text_filters (document : Document) (field s p : string) :
  Doc.getAttribute document field VUndefined = VString s ->
  (evaluate document (mkQuery Qry.TYPE_STARTS_WITH field [VString p]) = Ok true
   <-> exists rest, s = p ++ rest)
  /\ (evaluate document (mkQuery Qry.TYPE_ENDS_WITH field [VString p]) = Ok true
      <-> exists rest, s = rest ++ p)
  /\ (evaluate document (mkQuery Qry.TYPE_SEARCH field [VString p]) = Ok true
      <-> exists before after,
          Str.toLowerCase s = before ++ Str.toLowerCase p ++ after)
  /\ forall other,
      isString (Doc.getAttribute other field VUndefined) = false ->
      evaluate other (mkQuery Qry.TYPE_STARTS_WITH field [VString p]) = Ok false
      /\ evaluate other (mkQuery Qry.TYPE_ENDS_WITH field [VString p]) = Ok false
      /\ evaluate other (mkQuery Qry.TYPE_SEARCH field [VString p]) = Ok false.
Proof.
  intros H. unfold evaluate. cbn. rewrite H. cbn.
  split; [|split; [|split]].
  - rewrite <- TextFacts.startsWith_spec. split; [congruence|now intros ->].
  - rewrite <- TextFacts.endsWith_spec. split; [congruence|now intros ->].
  - rewrite <- TextFacts.includes_spec. split; [congruence|now intros ->].
  - intros other N.
    destruct (Doc.getAttribute other field VUndefined); try discriminate N;
      repeat split.
Qed.

Lemma text_filters_witness :
  let document := mkDocument [("name", VString "Grace Hopper")] in
  (evaluate document (mkQuery Qry.TYPE_STARTS_WITH "name" [VString "Grace"]) = Ok true
   <-> exists rest, "Grace Hopper" = "Grace" ++ rest)
  /\ (evaluate document (mkQuery Qry.TYPE_ENDS_WITH "name" [VString "Grace"]) = Ok true
      <-> exists rest, "Grace Hopper" = rest ++ "Grace")
  /\ (evaluate document (mkQuery Qry.TYPE_SEARCH "name" [VString "Grace"]) = Ok true
      <-> exists before after,
          Str.toLowerCase "Grace Hopper" = before ++ Str.toLowerCase "Grace" ++ after)
  /\ forall other,
      isString (Doc.getAttribute other "name" VUndefined) = false ->
      evaluate other (mkQuery Qry.TYPE_STARTS_WITH "name" [VString "Grace"]) = Ok false
      /\ evaluate other (mkQuery Qry.TYPE_ENDS_WITH "name" [VString "Grace"]) = Ok false
      /\ evaluate other (mkQuery Qry.TYPE_SEARCH "name" [VString "Grace"]) = Ok false.
Proof.
  intros document. exact (text_filters document "name" "Grace Hopper" "Grace" eq_refl).
Defined.

(** ** Listings *)

Module ListingFacts.

Lemma collect_filter (p : plan) (q : Query) :
  isModifier q = false ->
  collect p q = mkPlan (filters p ++ [q])%list (order p) (limit p) (offset p) (select p).
Proof.
  unfold isModifier, MODIFIER_METHODS. simpl. intros H.
  repeat (apply orb_false_iff in H; destruct H as [? H]).
  unfold collect.
  repeat match goal with
         | E : String.eqb _ _ = false |- _ => rewrite E; clear E
         end.
  reflexivity.
Qed.

Lemma partition_filters (queries : list Query) :
  forallb (fun q => negb (isModifier q)) queries = true ->
  forall p,
    fold_left collect queries p
    = mkPlan (filters p ++ queries)%list (order p) (limit p) (offset p) (select p).
Proof.
  induction queries as [|q queries IH]; intros F p; simpl.
  - rewrite List.app_nil_r. now destruct p.
  - simpl in F. apply andb_true_iff in F. destruct F as [Fq F].
    apply negb_true_iff in Fq. rewrite (collect_filter p q Fq).
    rewrite (IH F). cbn [filters order limit offset select].
    now rewrite <- List.app_assoc.
Qed.

Lemma everyM_holds (document : Document) (queries : list Query) (b : bool) :
  everyM (fun f => evaluate document f) queries = Ok b ->
  b = forallb (holds document) queries.
Proof.
  revert b. induction queries as [|q queries IH]; intros b H; simpl in H.
  - now injection H as <-.
  - simpl. unfold holds at 1.
    destruct (evaluate document q) as [[|]| |]; try discriminate; cbn [bind] in H.
    + now apply IH.
    + now injection H as <-.
Qed.

Lemma filterM_holds (queries : list Query) (documents kept : list Document) :
  filterM (fun document => everyM (fun f => evaluate document f) queries) documents
  = Ok kept ->
  kept = filter (fun document => forallb (holds document) queries) documents.
Proof.
  revert kept. induction documents as [|d documents IH]; intros kept H; simpl in H.
  - now injection H as <-.
  - destruct (everyM _ queries) as [b| |] eqn:E; try discriminate. cbn [bind] in H.
    destruct (filterM _ documents) as [ys| |]; try discriminate. cbn [bind] in H.
    injection H as <-. simpl. rewrite <- (everyM_holds d queries b E).
    rewrite (IH ys eq_refl). reflexivity.
Qed.

Lemma everyM_returns (document : Document) (queries : list Query) :
  (forall q, In q queries -> exists b, evaluate document q = Ok b) ->
  exists b, everyM (fun f => evaluate document f) queries = Ok b.
Proof.
  induction queries as [|q queries IH]; intros H; simpl; [now exists true|].
  destruct (H q (or_introl eq_refl)) as (b & ->). cbn [bind].
  destruct b; [|now exists false].
  apply IH. intros q' I. apply H. now right.
Qed.

Lemma filterM_returns (queries : list Query) (documents : list Document) :
  (forall document q, In document documents -> In q queries ->
                      exists b, evaluate document q = Ok b) ->
  exists kept,
    filterM (fun document => everyM (fun f => evaluate document f) queries) documents
    = Ok kept.
Proof.
  induction documents as [|d documents IH]; intros H; simpl; [now exists []|].
  destruct (everyM_returns d queries (fun q I => H d q (or_introl eq_refl) I)) as (b & ->).
  cbn [bind].
  destruct (IH (fun d' q I J => H d' q (or_intror I) J)) as (ys & ->). cbn [bind].
  eexists. reflexivity.
Qed.

End ListingFacts.

(** X21. With filters only (no [limit], [offset], [orderAsc], [orderDesc] or
    [select] in the list) [applyQueries] returns the documents on which
    every query holds, in the order they were given; it returns when every
    query can be evaluated on every document. *)
Theorem filters_select_in_order
  (fuel : nat) (documents : list Document) (queries : list Query) :
  forallb (fun q => negb (isModifier q)) queries = true ->
  (forall document q, In document documents -> In q queries ->
                      exists b, evaluate document q = Ok b) ->
  applyQueries fuel documents queries
  = Ok (filter (fun document => forallb (holds document) queries) documents).
Proof.
  intros F R. unfold applyQueries, partition.
  rewrite (ListingFacts.partition_filters queries F emptyPlan).
  cbn [emptyPlan filters order limit offset select app].
  unfold filterAndOrder. cbn [filters order].
  destruct (ListingFacts.filterM_returns queries documents R) as (kept & K).
  rewrite K. cbn [bind].
  rewrite (ListingFacts.filterM_holds queries documents kept K).
  reflexivity.
Qed.

Lemma filters_select_in_order_witness :
  let documents := [mkDocument [("age", VNumber 36)]; mkDocument [("age", VNumber 85)]] in
  let queries := [mkQuery "greaterThanEqual" "age" [VNumber 60]] in
  applyQueries 0 documents queries
  = Ok (filter (fun document => forallb (holds document) queries) documents).
Proof.
  intros documents queries.
  apply (filters_select_in_order 0 documents queries eq_refl).
  intros document q _ [<-|[]]. eexists. reflexivity.
Defined.

Module SortFacts.

Section ByKey.

Context {A : Type} (cmp : A -> A -> Z) (key : A -> Z).
Hypothesis cmp_key : forall a b, (cmp a b <=? 0) = (key a <=? key b).

Lemma insertSorted_permutation (x : A) (l : list A) :
  Permutation (x :: l) (insertSorted cmp x l).
Proof.
  induction l as [|y l IH]; simpl; [reflexivity|].
  destruct (cmp x y <=? 0); [reflexivity|].
  rewrite perm_swap. now constructor.
Qed.

Lemma sort_permutation (l : list A) : Permutation l (sort cmp l).
Proof.
  induction l as [|x l IH]; simpl; [reflexivity|].
  rewrite <- insertSorted_permutation. now constructor.
Qed.

Lemma insertSorted_sorted (x : A) (l : list A) :
  StronglySorted (fun a b => key a <= key b) l ->
  StronglySorted (fun a b => key a <= key b) (insertSorted cmp x l).
Proof.
  induction 1 as [|y l S IH F]; simpl.
  - constructor; constructor.
  - rewrite cmp_key. destruct (Z.leb_spec (key x) (key y)) as [L|L].
    + constructor; [now constructor|].
      constructor; [assumption|].
      rewrite Forall_forall in *. intros z I. specialize (F z I). lia.
    + constructor; [assumption|].
      rewrite Forall_forall in *. intros z I.
      apply (Permutation_in _ (Permutation_sym (insertSorted_permutation x l))) in I.
      destruct I as [<-|I]; [lia|now apply F].
Qed.

Lemma sort_sorted (l : list A) :
  StronglySorted (fun a b => key a <= key b) (sort cmp l).
Proof.
  induction l as [|x l IH]; simpl; [constructor|now apply insertSorted_sorted].
Qed.

(** An element goes before every element of a sorted list that has its
    key. *)
Lemma insertSorted_stable (n : Z) (x : A) (l : list A) :
  StronglySorted (fun a b => key a <= key b) l ->
  filter (fun a => key a =? n) (insertSorted cmp x l)
  = filter (fun a => key a =? n) (x :: l).
Proof.
  induction 1 as [|y l S IH F]; [reflexivity|].
  cbn [insertSorted]. rewrite cmp_key.
  destruct (Z.leb_spec (key x) (key y)) as [L|L]; [reflexivity|].
  cbn [filter] in *. rewrite IH.
  destruct (Z.eqb_spec (key x) n), (Z.eqb_spec (key y) n); try reflexivity. lia.
Qed.

Lemma sort_stable (n : Z) (l : list A) :
  filter (fun a => key a =? n) (sort cmp l) = filter (fun a => key a =? n) l.
Proof.
  induction l as [|x l IH]; [reflexivity|].
  cbn [sort]. rewrite insertSorted_stable by apply sort_sorted.
  cbn [filter]. now rewrite IH.
Qed.

End ByKey.

Lemma compare_numbers (attribute : string) (a b : Document) (x y : Z) :
  Doc.getAttribute a attribute VUndefined = VNumber x ->
  Doc.getAttribute b attribute VUndefined = VNumber y ->
  forall d,
    compareDocuments a b [(attribute, d)]
    = signed d (if x =? y then 0 else if y <? x then 1 else -1).
Proof.
  intros Ha Hb d. cbn [compareDocuments]. rewrite Ha, Hb.
  cbn [strict_equal nullish]. unfold greaterThan, lessThan. cbn.
  destruct (Z.eqb_spec x y); [now destruct d|].
  destruct (Z.ltb_spec y x); [now destruct d|].
  destruct (Z.ltb_spec x y); [now destruct d|lia].
Qed.

End SortFacts.

(** X22. Ordering by an attribute that holds a number in every document:
    [orderAsc] returns the same documents by non-decreasing number and
    [orderDesc] by non-increasing number, and documents with the same number
    keep the order they had. *)
Theorem ordering_by_number
  (fuel : nat) (documents : list Document) (attribute : string) (d : direction) :
  (forall document, In document documents ->
                    exists n, Doc.getAttribute document attribute VUndefined = VNumber n) ->
  exists ordered,
    applyQueries fuel documents
      [mkQuery (match d with asc => Qry.TYPE_ORDER_ASC | desc => Qry.TYPE_ORDER_DESC end)
         attribute []]
    = Ok ordered
    /\ Permutation documents ordered
    /\ StronglySorted
         (fun a b => signed d (numberAt attribute a) <= signed d (numberAt attribute b))
         ordered
    /\ forall n,
        filter (fun a => numberAt attribute a =? n) ordered
        = filter (fun a => numberAt attribute a =? n) documents.
Proof.
  intros H.
  exists (sort (fun a b => compareDocuments a b [(attribute, d)]) documents).
  split; [apply OrderingFacts.applyQueries_order_only|].
  (* the comparator is the order of the numbers on documents that hold one;
     on the others it is replaced by that order, which the sort cannot tell *)
  pose (cmp' := fun a b : Document =>
                  if signed d (numberAt attribute a) <=? signed d (numberAt attribute b)
                  then -1 else 1).
  assert (E : forall l, (forall x, In x l -> In x documents) ->
                sort (fun a b => compareDocuments a b [(attribute, d)]) l = sort cmp' l).
  { induction l as [|x l IH]; intros S; [reflexivity|].
    cbn [sort]. rewrite IH by (intros y I; apply S; now right).
    assert (P : forall y, In y (sort cmp' l) -> In y documents).
    { intros y I. apply S. right.
      apply (Permutation_in _ (Permutation_sym (SortFacts.sort_permutation cmp' l))).
      exact I. }
    revert P. generalize (sort cmp' l). intros s P.
    induction s as [|y s IHs]; [reflexivity|].
    cbn [insertSorted].
    destruct (H x (S x (or_introl eq_refl))) as (nx & Hx).
    destruct (H y (P y (or_introl eq_refl))) as (ny & Hy).
    rewrite (SortFacts.compare_numbers attribute x y nx ny Hx Hy d).
    unfold cmp', numberAt. rewrite Hx, Hy.
    rewrite IHs by (intros z I; apply P; now right).
    destruct d; cbn [signed].
    - destruct (Z.eqb_spec nx ny), (Z.ltb_spec ny nx), (Z.leb_spec nx ny); try lia; reflexivity.
    - destruct (Z.eqb_spec nx ny), (Z.ltb_spec ny nx), (Z.leb_spec (- nx) (- ny));
        try lia; reflexivity. }
  rewrite (E documents (fun x I => I)).
  assert (K : forall a b,
             (cmp' a b <=? 0)
             = (signed d (numberAt attribute a) <=? signed d (numberAt attribute b))).
  { intros a b. unfold cmp'.
    now destruct (signed d (numberAt attribute a) <=? signed d (numberAt attribute b)). }
  split; [apply SortFacts.sort_permutation|]. split.
  - apply (SortFacts.sort_sorted cmp' (fun a => signed d (numberAt attribute a)) K).
  - intros n.
    pose proof (SortFacts.sort_stable cmp' (fun a => signed d (numberAt attribute a)) K
                  (signed d n) documents) as St.
    assert (Q : forall l : list Document,
               filter (fun a => signed d (numberAt attribute a) =? signed d n) l
               = filter (fun a => numberAt attribute a =? n) l).
    { intros l. apply filter_ext. intros a.
      destruct d; cbn [signed]; [reflexivity|].
      destruct (Z.eqb_spec (- numberAt attribute a) (- n)),
        (Z.eqb_spec (numberAt attribute a) n); lia || reflexivity. }
    now rewrite !Q in St.
Qed.

Lemma ordering_by_number_witness :
  let documents := [mkDocument [("age", VNumber 85)]; mkDocument [("age", VNumber 36)]] in
  exists ordered,
    applyQueries 0 documents [mkQuery Qry.TYPE_ORDER_ASC "age" []] = Ok ordered
    /\ Permutation documents ordered
    /\ StronglySorted
         (fun a b => signed asc (numberAt "age" a) <= signed asc (numberAt "age" b))
         ordered
    /\ forall n,
        filter (fun a => numberAt "age" a =? n) ordered
        = filter (fun a => numberAt "age" a =? n) documents.
Proof.
  intros documents.
  apply (ordering_by_number 0 documents "age" asc).
  intros document [<-|[<-|[]]]; eexists; reflexivity.
Defined.

Module PageFacts.

Lemma partition_limit (n : Z) :
  partition [mkQuery Qry.TYPE_LIMIT "" [VNumber n]] = mkPlan [] [] (Some n) 0 None.
Proof. reflexivity. Qed.

Lemma partition_offset (k : Z) :
  partition [mkQuery Qry.TYPE_OFFSET "" [VNumber k]] = mkPlan [] [] None k None.
Proof. reflexivity. Qed.

Lemma filterM_all (l : list Document) :
  filterM (fun document => everyM (fun f => evaluate document f) []) l = Ok l.
Proof.
  induction l as [|x l IH]; [reflexivity|].
  cbn [filterM]. rewrite IH. reflexivity.
Qed.

End PageFacts.

(** X23. A negative count is read from the end of the list, as [Array.slice]
    reads it: [limit(-m)] returns all the documents but the last [m], and
    [offset(-m)] returns the last [m] documents. *)
Theorem negative_limit_and_offset (fuel : nat) (documents : list Document) (m : nat) :
  (0 < m)%nat ->
  applyQueries fuel documents [mkQuery Qry.TYPE_LIMIT "" [VNumber (- Z.of_nat m)]]
  = Ok (firstn (List.length documents - m) documents)
  /\ applyQueries fuel documents [mkQuery Qry.TYPE_OFFSET "" [VNumber (- Z.of_nat m)]]
     = Ok (skipn (List.length documents - m) documents).
Proof.
  intros M. unfold applyQueries.
  rewrite PageFacts.partition_limit, PageFacts.partition_offset.
  unfold filterAndOrder, project, paginate.
  cbn [filters order limit offset select].
  rewrite PageFacts.filterM_all. cbn [bind Z.eqb].
  split; f_equal.
  - unfold slice. cbn [skipn Z.to_nat Z.ltb Z.compare].
    destruct (Z.ltb_spec (- Z.of_nat m) 0) as [_|?]; [|lia].
    replace (Z.min 0 (Z.of_nat (List.length documents))) with 0 by lia.
    cbn [Z.to_nat skipn]. f_equal. lia.
  - destruct (Z.eqb_spec (- Z.of_nat m) 0) as [?|_]; [lia|].
    unfold slice.
    destruct (Z.ltb_spec (- Z.of_nat m) 0) as [_|?]; [|lia].
    replace (Z.to_nat (Z.max (Z.of_nat (List.length documents) + - Z.of_nat m) 0))
      with (List.length documents - m)%nat by lia.
    rewrite firstn_all2; [reflexivity|].
    rewrite length_skipn. lia.
Qed.

Lemma negative_limit_and_offset_witness :
  let documents := [mkDocument [("n", VNumber 1)]; mkDocument [("n", VNumber 2)];
                    mkDocument [("n", VNumber 3)]] in
  applyQueries 0 documents [mkQuery Qry.TYPE_LIMIT "" [VNumber (- Z.of_nat 1)]]
  = Ok (firstn (List.length documents - 1) documents)
  /\ applyQueries 0 documents [mkQuery Qry.TYPE_OFFSET "" [VNumber (- Z.of_nat 1)]]
     = Ok (skipn (List.length documents - 1) documents).
Proof.
  intros documents. apply (negative_limit_and_offset 0 documents 1). lia.
Defined.

(** ** Projection *)

Module RecordFacts.

Import ObjFacts MetadataFacts AttributeFacts CloneFacts.

(** What a loop of assignments over entries with distinct keys leaves under
    a key: what was made of the entry of that key, or what the target
    held. *)
Lemma assignWith_get (f : string -> value -> result value)
  (entries : list (string * value)) :
  distinct (map fst entries) = true ->
  forall acc out k,
    k <> "__proto__" ->
    assignWith f entries acc = Ok out ->
    match Obj.get k entries with
    | Some v => exists w, f k v = Ok w /\ Obj.get k out = Some w
    | None => Obj.get k out = Obj.get k acc
    end.
Proof.
  induction entries as [|[j v] entries IH]; intros D acc out k P H; simpl in H.
  - injection H as <-. reflexivity.
  - simpl in D. apply andb_true_iff in D. destruct D as [Dj D].
    rewrite existsb_keys in Dj. apply negb_true_iff in Dj.
    destruct (f j v) as [v'| |] eqn:E; try discriminate. cbn [bind] in H.
    specialize (IH D (Obj.assign j v' acc) out k P H). simpl.
    destruct (String.eqb_spec k j) as [->|N].
    + rewrite (get_has_false j entries Dj) in IH. exists v'. split; [assumption|].
      now rewrite IH, get_assign_same.
    + destruct (Obj.get k entries); [assumption|].
      now rewrite IH, get_assign_other.
Qed.

(** The constructor leaves a Document without the key [__proto__], and so
    does cloning. *)
Lemma construct_ordinary (fuel : nat) (input : object) (d : Document) :
  Doc.construct fuel input = Ok d -> Obj.has "__proto__" (data d) = false.
Proof.
  intros H. unfold Doc.construct, Doc.replace in H.
  destruct (Doc.replaceWith (Doc.prepareValue fuel) input []) as [c| |] eqn:R;
    try discriminate.
  injection H as <-. cbn [data]. rewrite replaceWith_assignWith in R.
  now apply (assignWith_ordinary _ _ _ _ R).
Qed.

(** What [replace] stored is stored as it is when given again. *)
Lemma stored_fixed (prepare : value -> result value) (k : string) (x w : value) :
  (forall v v', nullish v = true -> prepare v = Ok v' -> v' = v) ->
  (forall v w, prepare v = Ok w -> reproduces prepare v w) ->
  storedAs prepare k x = Ok w ->
  storedAs prepare k w = Ok w.
Proof.
  intros N P H.
  destruct (nullish x) eqn:Nx.
  - assert (E : prepare x = Ok w).
    { unfold storedAs in H. rewrite Nx in H. cbn [negb] in H.
      now rewrite !andb_false_r in H. }
    pose proof (N x w Nx E) as W. subst w.
    unfold storedAs. rewrite Nx. cbn [negb]. now rewrite !andb_false_r.
  - unfold storedAs in *. rewrite Nx in H. cbn [negb] in H. rewrite !andb_true_r in H.
    destruct (String.eqb k "$id") eqn:Ki.
    + destruct x; try discriminate; simpl in H; injection H as <-. reflexivity.
    + destruct (String.eqb k "$permissions") eqn:Kp.
      * destruct x; try discriminate. injection H as <-.
        cbn [nullish negb andb]. now rewrite isString_strings.
      * destruct (P x w H) as (R & _).
        destruct (nullish w); cbn [negb andb]; exact R.
Qed.

Lemma replaceWith_settled (prepare : value -> result value) (input c : object) :
  (forall v v', nullish v = true -> prepare v = Ok v' -> v' = v) ->
  (forall v w, prepare v = Ok w -> reproduces prepare v w) ->
  (forall k x, In (k, x) input -> shallow x = true) ->
  Doc.replaceWith prepare input [] = Ok c ->
  settled prepare c.
Proof.
  intros N P S H. rewrite replaceWith_assignWith in H. unfold settled.
  apply (assignWith_invariant (storedAs prepare)
           (fun k w => storedAs prepare k w = Ok w /\ storedAs prepare k (exported w) = Ok w)
           input) with (acc := []) (out := c); [|assumption|intros ? ? []].
  intros k x w I E. split.
  - now apply (stored_fixed prepare k x w).
  - now apply (stored_again prepare k x w N P (S k x I)).
Qed.

(** A Document that is its own clone is settled. *)
Lemma clone_settled (fuel : nat) (this : Document) :
  Doc.clone fuel this = Ok this -> settled (Doc.prepareValue fuel) (data this).
Proof.
  intros H. unfold Doc.clone, Doc.construct, Doc.replace, Doc.toJSON in H.
  destruct (Doc.replaceWith (Doc.prepareValue fuel) (Doc.export (VDocument (data this))) [])
    as [c| |] eqn:R; try discriminate.
  injection H as H. destruct this as [d]. cbn [data] in *. injection H as ->.
  apply (replaceWith_settled (Doc.prepareValue fuel) _ d
           (prepareValue_nullish fuel) (prepareValue_reproduces fuel)
           (export_shallow d) R).
Qed.

Lemma stored_primitive (fuel : nat) (k : string) (v w : value) :
  isObject v = false -> storedAs (Doc.prepareValue fuel) k v = Ok w -> w = v.
Proof.
  intros O H. unfold storedAs in H.
  destruct (String.eqb k "$id" && negb (nullish v))%bool.
  - destruct (negb (isString v)); [discriminate|congruence].
  - destruct (String.eqb k "$permissions" && negb (nullish v))%bool.
    + destruct v; try discriminate.
    + destruct fuel; [discriminate|]. destruct v; try discriminate; simpl in H; congruence.
Qed.

(** The object [applySelect] fills before the two identifiers are set. *)
Lemma selected_get (document : Document) (fields : list string) :
  forall acc k,
    k <> "__proto__" ->
    Obj.get k
      (fold_left
         (fun selected field =>
            Obj.assign field (Doc.getAttribute document field VUndefined) selected)
         fields acc)
    = if existsb (String.eqb k) fields
      then Some (Doc.getAttribute document k VUndefined)
      else Obj.get k acc.
Proof.
  induction fields as [|f fields IH]; intros acc k P; simpl; [reflexivity|].
  rewrite IH by assumption.
  destruct (existsb (String.eqb k) fields); [now rewrite orb_true_r|].
  rewrite orb_false_r.
  destruct (String.eqb_spec k f) as [->|N].
  - now rewrite get_assign_same.
  - now rewrite get_assign_other.
Qed.

Lemma selected_has (document : Document) (fields : list string) :
  forall acc k,
    Obj.has k
      (fold_left
         (fun selected field =>
            Obj.assign field (Doc.getAttribute document field VUndefined) selected)
         fields acc)
    = (existsb (String.eqb k) fields && negb (String.eqb k "__proto__")
       || Obj.has k acc)%bool.
Proof.
  induction fields as [|f fields IH]; intros acc k; simpl; [reflexivity|].
  rewrite IH, has_assign.
  destruct (String.eqb_spec k f) as [->|N]; simpl.
  - destruct (existsb (String.eqb f) fields), (String.eqb f "__proto__"), (Obj.has f acc);
      reflexivity.
  - reflexivity.
Qed.

Lemma selected_distinct (document : Document) (fields : list string) :
  forall acc,
    distinct (map fst acc) = true ->
    distinct
      (map fst
         (fold_left
            (fun selected field =>
               Obj.assign field (Doc.getAttribute document field VUndefined) selected)
            fields acc)) = true.
Proof.
  induction fields as [|f fields IH]; intros acc D; simpl; [assumption|].
  apply IH. now apply distinct_assign.
Qed.

End RecordFacts.

(** X24. The projection [select] makes of a Document that is its own clone, as
    the documents a listing works on are: the result holds the selected
    fields other than [__proto__], [$id] and [$collection] and no other key;
    its id is the id of the Document; and every selected field other than
    these three reads as in the Document, a field the Document lacks being
    there as [undefined]. *)
Theorem select_projects
  (fuel : nat) (document projected : Document) (fields : list string) :
  Doc.clone fuel document = Ok document ->
  applySelect fuel document fields = Ok projected ->
  (forall key,
      Obj.has key (data projected)
      = (existsb (String.eqb key) fields && negb (String.eqb key "__proto__")
         || String.eqb key "$id" || String.eqb key "$collection")%bool)
  /\ Doc.getId projected = Doc.getId document
  /\ (forall field defaultValue,
        In field fields ->
        field <> "$id" -> field <> "$collection" -> field <> "__proto__" ->
        Doc.getAttribute projected field defaultValue
        = Doc.getAttribute document field VUndefined).
Proof.
  intros C H. unfold applySelect, Doc.construct, Doc.replace in H.
  set (filled := fold_left
                   (fun selected field =>
                      Obj.assign field (Doc.getAttribute document field VUndefined) selected)
                   fields []) in H.
  set (selected := Obj.assign "$collection" (Doc.getCollection document)
                     (Obj.assign "$id" (Doc.getId document) filled)) in H.
  destruct (Doc.replaceWith (Doc.prepareValue fuel) selected []) as [c| |] eqn:R;
    try discriminate.
  injection H as <-. cbn [data].
  rewrite CloneFacts.replaceWith_assignWith in R.
  assert (D : distinct (map fst selected) = true).
  { unfold selected. do 2 apply CloneFacts.distinct_assign.
    now apply RecordFacts.selected_distinct. }
  assert (G : forall k,
             k <> "__proto__" ->
             Obj.get k selected
             = if String.eqb k "$collection" then Some (Doc.getCollection document)
               else if String.eqb k "$id" then Some (Doc.getId document)
                    else if existsb (String.eqb k) fields
                         then Some (Doc.getAttribute document k VUndefined)
                         else None).
  { intros k P. unfold selected.
    destruct (String.eqb_spec k "$collection") as [->|Nc];
      [now rewrite ObjFacts.get_assign_same|].
    rewrite ObjFacts.get_assign_other by assumption.
    destruct (String.eqb_spec k "$id") as [->|Ni];
      [now rewrite ObjFacts.get_assign_same|].
    rewrite ObjFacts.get_assign_other by assumption.
    unfold filled. now rewrite RecordFacts.selected_get. }
  pose proof (RecordFacts.clone_settled fuel document C) as St.
  split; [|split].
  - intros key. rewrite (CloneFacts.assignWith_has _ _ _ _ key R). cbn [Obj.has orb].
    unfold selected. rewrite !ObjFacts.has_assign. unfold filled.
    rewrite RecordFacts.selected_has. cbn [Obj.has].
    change (String.eqb "$collection" "__proto__") with false.
    change (String.eqb "$id" "__proto__") with false.
    cbn [negb]. rewrite !andb_true_r, orb_false_r.
    destruct (String.eqb_spec key "__proto__") as [->|Np].
    + cbn [negb]. rewrite !andb_false_r. reflexivity.
    + cbn [negb]. rewrite !andb_true_r.
      destruct (existsb (String.eqb key) fields), (String.eqb key "$id"),
        (String.eqb key "$collection"); reflexivity.
  - pose proof (RecordFacts.assignWith_get _ selected D [] c "$id"
                  ltac:(discriminate) R) as A.
    rewrite G in A by discriminate. cbn in A. destruct A as (w & E & A).
    assert (Nn : nullish (Doc.getId document) = false).
    { unfold Doc.getId.
      destruct (nullish (prop "$id" (data document))) eqn:Q; [reflexivity|exact Q]. }
    assert (W : w = Doc.getId document).
    { unfold storedAs in E. rewrite String.eqb_refl, Nn in E. cbn [negb andb] in E.
      destruct (isString (Doc.getId document)); [|discriminate].
      cbn [negb] in E. congruence. }
    subst w. unfold Doc.getId at 1, prop. cbn [data]. rewrite A.
    cbv zeta. now rewrite Nn.
  - intros field dflt I Ni Nc Np.
    pose proof (RecordFacts.assignWith_get _ selected D [] c field Np R) as A.
    rewrite G in A by assumption.
    destruct (String.eqb_spec field "$collection"); [contradiction|].
    destruct (String.eqb_spec field "$id"); [contradiction|].
    assert (Ex : existsb (String.eqb field) fields = true).
    { apply existsb_exists. exists field. split; [assumption|apply String.eqb_refl]. }
    rewrite Ex in A. destruct A as (w & E & A).
    rewrite (AttributeFacts.getAttribute_get (mkDocument c)). cbn [data]. rewrite A.
    rewrite AttributeFacts.getAttribute_get in E |- *.
    destruct (Obj.get field (data document)) as [v|] eqn:Gv.
    + apply ObjFacts.get_In in Gv. destruct (St field v Gv) as [F _]. congruence.
    + apply (RecordFacts.stored_primitive fuel field VUndefined w eq_refl E).
Qed.

Lemma select_projects_witness :
  let document := mkDocument [("$id", VString "u1"); ("name", VString "Ada");
                              ("age", VNumber 36)] in
  let projected := mkDocument [("name", VString "Ada"); ("email", VUndefined);
                               ("$id", VString "u1"); ("$collection", VString "")] in
  let fields := ["name"; "email"; "__proto__"] in
  applySelect 1 document fields = Ok projected
  /\ (forall key,
        Obj.has key (data projected)
        = (existsb (String.eqb key) fields && negb (String.eqb key "__proto__")
           || String.eqb key "$id" || String.eqb key "$collection")%bool)
  /\ Doc.getId projected = Doc.getId document
  /\ (forall field defaultValue,
        In field fields ->
        field <> "$id" -> field <> "$collection" -> field <> "__proto__" ->
        Doc.getAttribute projected field defaultValue
        = Doc.getAttribute document field VUndefined).
Proof.
  intros document projected fields. split; [reflexivity|].
  exact (select_projects 1 document projected fields eq_refl eq_refl).
Defined.

(** ** Queries *)

Module QueryFacts.

Lemma construct_unfold (fuel : nat) (m a : string) (vs : list value) :
  Qry.construct fuel m a vs
  = if Qry.isLogical m then
      match fuel with
      | O => Beyond OutOfFuel
      | S fuel =>
          vs' <- mapM
                   (fun val =>
                      match val with
                      | VQuery m' a' vs' =>
                          c <- Qry.construct fuel m' a' vs' ;; Ok (Qry.instance c)
                      | VArray _ | VObject _ | VDocument _ =>
                          q <- Qry.fromJSON fuel val ;; Ok (Qry.instance q)
                      | _ => Throw (TypeError "Logical queries must contain Query instances")
                      end) vs ;;
          Ok (mkQuery m a vs')
      end
    else Ok (mkQuery m a vs).
Proof. destruct fuel; reflexivity. Qed.

Lemma in_list_max (x : value) (l : list value) :
  In x l -> (nesting x <= list_max (map nesting l))%nat.
Proof.
  induction l as [|y l IH]; simpl; [intros []|].
  intros [<-|I]; [lia|]. specialize (IH I). lia.
Qed.

(** A query of queries only is constructed as it is, given fuel for its
    nesting. *)
Lemma construct_same (fuel : nat) :
  forall m a vs,
    queriesOnly (VQuery m a vs) = true ->
    (nesting (VQuery m a vs) <= fuel)%nat ->
    Qry.construct fuel m a vs = Ok (mkQuery m a vs).
Proof.
  induction fuel as [|fuel IH]; intros m a vs Q N; rewrite construct_unfold;
    cbn [queriesOnly nesting] in Q, N;
    destruct (Qry.isLogical m); try reflexivity; [lia|].
  assert (M : mapM
                (fun val =>
                   match val with
                   | VQuery m' a' vs' =>
                       c <- Qry.construct fuel m' a' vs' ;; Ok (Qry.instance c)
                   | VArray _ | VObject _ | VDocument _ =>
                       q <- Qry.fromJSON fuel val ;; Ok (Qry.instance q)
                   | _ => Throw (TypeError "Logical queries must contain Query instances")
                   end) vs = Ok vs).
  { assert (B : forall x, In x vs -> (nesting x <= fuel)%nat).
    { intros x I. pose proof (in_list_max x vs I). lia. }
    clear N. induction vs as [|x vs IHvs]; [reflexivity|].
    cbn [forallb] in Q. apply andb_true_iff in Q. destruct Q as [Qx Q].
    cbn [mapM]. destruct x as [| | | | | | | |m' a' vs']; try discriminate.
    rewrite (IH m' a' vs' Qx (B _ (or_introl eq_refl))). cbn [bind Qry.instance].
    cbn [method attribute values].
    rewrite (IHvs Q (fun y I => B y (or_intror I))). reflexivity. }
  rewrite M. reflexivity.
Qed.

Lemma mapM_outputs {A B : Type} (f : A -> result B) (P : B -> Prop) (l : list A) :
  (forall x y, In x l -> f x = Ok y -> P y) ->
  forall out, mapM f l = Ok out -> Forall P out.
Proof.
  induction l as [|x l IH]; intros H out E; simpl in E.
  - injection E as <-. constructor.
  - destruct (f x) as [y| |] eqn:Fx; try discriminate. cbn [bind] in E.
    destruct (mapM f l) as [ys| |] eqn:M; try discriminate. injection E as <-.
    constructor; [now apply (H x y (or_introl eq_refl))|].
    apply IH; [|reflexivity]. intros x' y' I. apply H. now right.
Qed.

Lemma built_logical (fuel : nat) (m a : string) (vs : list value) :
  Qry.isLogical m = true ->
  Forall (fun v => exists q, v = Qry.instance q /\ wellBuilt fuel q) vs ->
  wellBuilt (S fuel) (mkQuery m a vs).
Proof.
  intros L F. unfold wellBuilt. cbn [Qry.instance method attribute values queriesOnly nesting].
  rewrite L. split.
  - apply forallb_forall. intros x I. rewrite Forall_forall in F.
    destruct (F x I) as (q & -> & Q & _). exact Q.
  - apply le_n_S. induction vs as [|x vs IH]; simpl; [lia|].
    inversion F as [|? ? (q & -> & _ & N) F']; subst.
    specialize (IH F'). lia.
Qed.

(** What the constructor and [fromJSON] return is a query of queries only,
    nested no deeper than the fuel. *)
Lemma built (fuel : nat) :
  (forall m a vs q, Qry.construct fuel m a vs = Ok q -> wellBuilt fuel q)
  /\ (forall json q, Qry.fromJSON fuel json = Ok q -> wellBuilt fuel q).
Proof.
  induction fuel as [|fuel [IHc IHf]].
  - split; [|discriminate].
    intros m a vs q H. rewrite construct_unfold in H.
    destruct (Qry.isLogical m) eqn:L; [discriminate|]. injection H as <-.
    unfold wellBuilt. cbn. rewrite L. split; [reflexivity|lia].
  - assert (C : forall m a vs q, Qry.construct (S fuel) m a vs = Ok q -> wellBuilt (S fuel) q).
    { intros m a vs q H. rewrite construct_unfold in H.
      destruct (Qry.isLogical m) eqn:L.
      - destruct (mapM _ vs) as [vs'| |] eqn:M; try discriminate. injection H as <-.
        apply built_logical; [assumption|].
        apply (mapM_outputs _ _ vs) with (2 := M).
        intros x y _ E.
        destruct x as [| | | | |items|props|d|m' a' vs0]; try discriminate.
        + destruct (Qry.fromJSON fuel (VArray items)) as [q| |] eqn:F; try discriminate.
          injection E as <-. exists q. split; [reflexivity|now apply (IHf _ _ F)].
        + destruct (Qry.fromJSON fuel (VObject props)) as [q| |] eqn:F; try discriminate.
          injection E as <-. exists q. split; [reflexivity|now apply (IHf _ _ F)].
        + destruct (Qry.fromJSON fuel (VDocument d)) as [q| |] eqn:F; try discriminate.
          injection E as <-. exists q. split; [reflexivity|now apply (IHf _ _ F)].
        + destruct (Qry.construct fuel m' a' vs0) as [q| |] eqn:F; try discriminate.
          injection E as <-. exists q. split; [reflexivity|now apply (IHc _ _ _ _ F)].
      - injection H as <-. unfold wellBuilt. cbn. rewrite L. split; [reflexivity|lia]. }
    split; [exact C|].
    intros json q H. cbn [Qry.fromJSON] in H.
    destruct (Qry.field json "method") as [mv| |]; try discriminate. cbn [bind] in H.
    destruct mv; try discriminate.
    destruct (negb (Qry.isMethod s)); [discriminate|].
    destruct (Qry.field json "attribute") as [av| |]; try discriminate. cbn [bind] in H.
    destruct (match av with
              | VUndefined | VNull => Ok ""
              | VString s0 => Ok s0
              | _ => Beyond NonStringAttribute
              end) as [a| |]; try discriminate. cbn [bind] in H.
    destruct (Qry.field json "values") as [vv| |]; try discriminate. cbn [bind] in H.
    destruct (match vv with
              | VUndefined | VNull => Ok []
              | VArray items => Ok items
              | _ => Throw (TypeError "(json.values ?? []).map is not a function")
              end) as [entries| |]; try discriminate. cbn [bind] in H.
    destruct (mapM _ entries) as [vals| |]; try discriminate. cbn [bind] in H.
    destruct (IHc _ _ _ _ H) as [Q N]. split; [exact Q|lia].
Qed.

Lemma clone_built (fuel : nat) (q : Query) :
  wellBuilt fuel q -> Qry.clone fuel q = Ok q.
Proof.
  intros [Q N]. unfold Qry.clone. destruct q as [m a vs].
  cbn [method attribute values]. now apply construct_same.
Qed.

End QueryFacts.

(** X25. A Query the constructor, and so every factory, or [fromJSON] returned
    holds under [and] and [or], at every depth, Query instances only, and
    it is its own clone: [clone] returns it again, the operands of a logical
    query cloned in turn. *)
Theorem query_is_its_clone (fuel : nat) (m a : string) (vs : list value) (json : value)
  (q : Query) :
  Qry.construct fuel m a vs = Ok q \/ Qry.fromJSON fuel json = Ok q ->
  queriesOnly (Qry.instance q) = true
  /\ Qry.clone fuel q = Ok q.
Proof.
  intros H.
  assert (B : wellBuilt fuel q).
  { destruct H as [H|H].
    - exact (proj1 (QueryFacts.built fuel) m a vs q H).
    - exact (proj2 (QueryFacts.built fuel) json q H). }
  split; [exact (proj1 B)|now apply QueryFacts.clone_built].
Qed.

Lemma query_is_its_clone_witness :
  let inner := VQuery "equal" "name" [VString "Ada"] in
  queriesOnly (Qry.instance (mkQuery "and" "" [VQuery "or" "" [inner]; inner])) = true
  /\ Qry.clone 2 (mkQuery "and" "" [VQuery "or" "" [inner]; inner])
     = Ok (mkQuery "and" "" [VQuery "or" "" [inner]; inner]).
Proof.
  intros inner.
  apply (query_is_its_clone 2 "and" "" [VQuery "or" "" [inner]; inner] VNull).
  left. reflexivity.
Defined.

(** ** The facade *)

Module FacadeFacts.

Import ObjFacts MetadataFacts AttributeFacts CloneFacts RecordFacts.

(** What [new Document(input)] holds under a key of an input without
    repeated keys. *)
Lemma construct_get (fuel : nat) (input : object) (d : Document) (k : string) :
  k <> "__proto__" ->
  distinct (map fst input) = true ->
  Doc.construct fuel input = Ok d ->
  match Obj.get k input with
  | Some v => exists w, storedAs (Doc.prepareValue fuel) k v = Ok w
                        /\ Obj.get k (data d) = Some w
  | None => Obj.get k (data d) = None
  end.
Proof.
  intros P D H. unfold Doc.construct, Doc.replace in H.
  destruct (Doc.replaceWith (Doc.prepareValue fuel) input []) as [c| |] eqn:R;
    try discriminate.
  injection H as <-. cbn [data]. rewrite replaceWith_assignWith in R.
  exact (assignWith_get _ input D [] c k P R).
Qed.

Lemma construct_distinct (fuel : nat) (input : object) (d : Document) :
  Doc.construct fuel input = Ok d -> distinct (map fst (data d)) = true.
Proof.
  intros H. unfold Doc.construct, Doc.replace in H.
  destruct (Doc.replaceWith (Doc.prepareValue fuel) input []) as [c| |] eqn:R;
    try discriminate.
  injection H as <-. cbn [data]. rewrite replaceWith_assignWith in R.
  now apply (assignWith_distinct _ _ _ _ R).
Qed.

(** What the clone holds under a key of a Document without repeated keys. *)
Lemma clone_get (fuel : nat) (d c : Document) (k : string) :
  k <> "__proto__" ->
  distinct (map fst (data d)) = true ->
  Doc.clone fuel d = Ok c ->
  match Obj.get k (data d) with
  | Some v => exists w, storedAs (Doc.prepareValue fuel) k (exported v) = Ok w
                        /\ Obj.get k (data c) = Some w
  | None => Obj.get k (data c) = None
  end.
Proof.
  intros P D H. unfold Doc.clone in H.
  pose proof (construct_get fuel (Doc.toJSON d) c k P) as G.
  unfold Doc.toJSON in *. rewrite (export_distinct (data d) D) in *.
  rewrite get_map in G.
  assert (D' : distinct (map fst (map (fun kv => (fst kv, exported (snd kv))) (data d)))
               = true).
  { rewrite map_map. cbn [fst]. exact D. }
  specialize (G D' H). now destruct (Obj.get k (data d)).
Qed.

Lemma kept_primitive (fuel : nat) (k : string) (v : value) :
  isObject v = false -> carried fuel k v.
Proof.
  intros O. split.
  - destruct v; try discriminate; reflexivity.
  - intros w. now apply stored_primitive.
Qed.

Lemma kept_strings (fuel : nat) (ps : list string) :
  carried fuel "$permissions" (VArray (map VString ps)).
Proof.
  split.
  - cbn [exported]. f_equal. rewrite map_map. reflexivity.
  - intros w H. unfold storedAs in H. cbn in H. injection H as <-.
    f_equal. rewrite map_map. reflexivity.
Qed.

(** A kept value of the input is what the clone of the constructed Document
    holds. *)
Lemma construct_clone_get (fuel : nat) (input : object) (d c : Document)
  (k : string) (v : value) :
  k <> "__proto__" ->
  distinct (map fst input) = true ->
  Doc.construct fuel input = Ok d ->
  Doc.clone fuel d = Ok c ->
  Obj.get k input = Some v ->
  carried fuel k v ->
  Obj.get k (data c) = Some v.
Proof.
  intros P D H C G [E K].
  pose proof (construct_get fuel input d k P D H) as A. rewrite G in A.
  destruct A as (w & Sw & Gw). apply K in Sw. subst w.
  pose proof (clone_get fuel d c k P (construct_distinct fuel input d H) C) as B.
  rewrite Gw in B. destruct B as (w & Sw & Gc). rewrite E in Sw. apply K in Sw.
  now subst w.
Qed.

End FacadeFacts.

Module PayloadFacts.

Import ObjFacts MetadataFacts AttributeFacts CloneFacts RecordFacts FacadeFacts.

Lemma payload_distinct (now generated collection : string) (data : object)
  (options : CreateDocumentOptions) :
  distinct (map fst data) = true ->
  distinct (map fst (Db.payload now generated collection data options)) = true.
Proof.
  intros D. unfold Db.payload.
  destruct (options_permissions options);
    [apply distinct_assign|]; repeat apply distinct_set; exact D.
Qed.

Lemma payload_get (now generated collection : string) (data : object)
  (options : CreateDocumentOptions) (k : string) :
  Obj.get k (Db.payload now generated collection data options)
  = if String.eqb k "$permissions" then
      match options_permissions options with
      | Some ps => Some (VArray (map VString ps))
      | None => Obj.get k data
      end
    else if String.eqb k "$updatedAt" then Some (VString now)
    else if String.eqb k "$createdAt" then Some (VString now)
    else if String.eqb k "$collection" then Some (VString collection)
    else if String.eqb k "$id" then Some (VString (createdId generated options))
    else Obj.get k data.
Proof.
  unfold Db.payload, createdId.
  destruct (String.eqb_spec k "$permissions") as [->|Np].
  - destruct (options_permissions options).
    + now rewrite get_assign_same by discriminate.
    + now rewrite !get_set_other by discriminate.
  - assert (E : forall o,
               Obj.get k (match options_permissions options with
                          | Some ps => Obj.assign "$permissions" (VArray (map VString ps)) o
                          | None => o
                          end) = Obj.get k o).
    { intros o. destruct (options_permissions options); [|reflexivity].
      now apply get_assign_other. }
    rewrite E.
    destruct (String.eqb_spec k "$updatedAt") as [->|Nu]; [now rewrite get_set_same|].
    rewrite get_set_other by assumption.
    destruct (String.eqb_spec k "$createdAt") as [->|Nc]; [now rewrite get_set_same|].
    rewrite get_set_other by assumption.
    destruct (String.eqb_spec k "$collection") as [->|Nl]; [now rewrite get_set_same|].
    rewrite get_set_other by assumption.
    destruct (String.eqb_spec k "$id") as [->|Ni]; [now rewrite get_set_same|].
    now rewrite get_set_other by assumption.
Qed.

End PayloadFacts.

Module UpdateFacts.

Import ObjFacts MetadataFacts AttributeFacts CloneFacts RecordFacts FacadeFacts.

Lemma getId_get (d : Document) :
  Doc.getId d = match Obj.get "$id" (data d) with
                | Some v => if nullish v then VString "" else v
                | None => VString ""
                end.
Proof. unfold Doc.getId, prop. now destruct (Obj.get "$id" (data d)). Qed.

Lemma getCollection_get (d : Document) :
  Doc.getCollection d = match Obj.get "$collection" (data d) with
                        | Some v => if nullish v then VString "" else v
                        | None => VString ""
                        end.
Proof. unfold Doc.getCollection, prop. now destruct (Obj.get "$collection" (data d)). Qed.

(** The clone has the id of the Document. *)
Lemma clone_getId (fuel : nat) (d c : Document) :
  distinct (map fst (data d)) = true ->
  Doc.clone fuel d = Ok c -> Doc.getId c = Doc.getId d.
Proof.
  intros D H. pose proof (clone_get fuel d c "$id" ltac:(discriminate) D H) as G.
  rewrite !getId_get.
  destruct (Obj.get "$id" (data d)) as [v|]; [|now rewrite G].
  destruct G as (w & S & ->).
  destruct (nullish v) eqn:N.
  - replace (exported v) with v in S by (destruct v; try discriminate N; reflexivity).
    assert (E : Doc.prepareValue fuel v = Ok w).
    { unfold storedAs in S. rewrite N in S. cbn [negb] in S. now rewrite !andb_false_r in S. }
    rewrite (prepareValue_nullish fuel v w N E). now rewrite N.
  - unfold storedAs in S. cbn [String.eqb Ascii.eqb Bool.eqb andb] in S.
    destruct v; try discriminate N; cbn in S; try discriminate S.
    now injection S as <-.
Qed.

(** What the loop that writes [data] over the export leaves under a key. *)
Lemma merged_get (data acc : object) (k : string) :
  k <> "__proto__" ->
  distinct (map fst data) = true ->
  Obj.get k (fold_left (fun merged kv => Obj.assign (fst kv) (snd kv) merged) data acc)
  = match Obj.get k data with
    | Some v => Some v
    | None => Obj.get k acc
    end.
Proof.
  intros P. revert acc. induction data as [|[j v] data IH]; intros acc D; [reflexivity|].
  simpl in D. apply andb_true_iff in D. destruct D as [Dj D].
  rewrite existsb_keys in Dj. apply negb_true_iff in Dj.
  cbn [fold_left fst snd Obj.get]. rewrite IH by assumption.
  destruct (String.eqb_spec k j) as [->|N].
  - rewrite (get_has_false j data Dj). now apply get_assign_same.
  - destruct (Obj.get k data); [reflexivity|]. now apply get_assign_other.
Qed.

Lemma merged_distinct (data acc : object) :
  distinct (map fst acc) = true ->
  distinct
    (map fst (fold_left (fun merged kv => Obj.assign (fst kv) (snd kv) merged) data acc))
  = true.
Proof.
  revert acc. induction data as [|[j v] data IH]; intros acc D; [assumption|].
  cbn [fold_left]. apply IH. now apply distinct_assign.
Qed.

Lemma merge_distinct (now : string) (existing : Document) (data : object) :
  distinct (map fst (Db.merge now existing data)) = true.
Proof.
  unfold Db.merge. apply distinct_assign. apply merged_distinct.
  apply export_keys_distinct.
Qed.

Lemma merge_get (now : string) (existing : Document) (changes : object) (k : string) :
  k <> "__proto__" ->
  distinct (map fst changes) = true ->
  distinct (map fst (data existing)) = true ->
  Obj.get k (Db.merge now existing changes)
  = if String.eqb k "$updatedAt" then Some (VString now)
    else match Obj.get k changes with
         | Some v => Some v
         | None => option_map exported (Obj.get k (data existing))
         end.
Proof.
  intros P D De. unfold Db.merge.
  destruct (String.eqb_spec k "$updatedAt") as [->|N]; [now apply get_assign_same|].
  rewrite get_assign_other by assumption. rewrite merged_get by assumption.
  unfold Doc.toJSON. rewrite (export_distinct _ De). now rewrite get_map.
Qed.

End UpdateFacts.

Module DatabaseFacts.

Import ObjFacts MetadataFacts AttributeFacts CloneFacts RecordFacts FacadeFacts PayloadFacts UpdateFacts.

Lemma write_inversion (fuel : nat) (collection : string) (document r : Document)
  (this after : MemoryAdapter) :
  Memory.createDocument fuel collection document this = (Ok r, after) ->
  exists stored id,
    JsMap.get collection (collections this) = Some stored
    /\ Doc.getId document = VString id
    /\ Doc.clone fuel document = Ok r
    /\ after = Memory.store this collection stored id r.
Proof.
  unfold Memory.createDocument, Memory.requireCollection. intros H.
  destruct (JsMap.get collection (collections this)) as [stored|]; [|discriminate].
  destruct (Doc.clone fuel document) as [copy| |] eqn:C; try discriminate.
  destruct (Doc.getId document) as [| | | |id| | | |]; try discriminate.
  injection H as <- <-. now exists stored, id.
Qed.

Lemma read_stored (fuel : nat) (this : MemoryAdapter) (collection id : string)
  (stored : StoredCollection) (copy : Document) :
  Doc.clone fuel copy = Ok copy ->
  Memory.getDocument fuel collection id (Memory.store this collection stored id copy)
  = (Ok (Some copy), Memory.store this collection stored id copy).
Proof.
  intros C. unfold Memory.getDocument, Memory.store. cbn [collections].
  rewrite MapFacts.JsMap_get_set_same. cbn [documents].
  rewrite MapFacts.JsMap_get_set_same. now rewrite C.
Qed.

Lemma read_other (fuel : nat) (this : MemoryAdapter) (collection id other : string)
  (stored : StoredCollection) (copy old : Document) :
  other <> id ->
  JsMap.get other (documents stored) = Some old ->
  Doc.clone fuel old = Ok old ->
  fst (Memory.getDocument fuel collection other (Memory.store this collection stored id copy))
  = Ok (Some old).
Proof.
  intros N G C. unfold Memory.getDocument, Memory.store. cbn [collections].
  rewrite MapFacts.JsMap_get_set_same. cbn [documents].
  rewrite MapFacts.JsMap_get_set_other by assumption. rewrite G. cbn [fst].
  now rewrite C.
Qed.

Lemma getAttribute_of_get (d : Document) (k : string) (v : value) :
  Obj.get k (data d) = Some v -> forall dflt, Doc.getAttribute d k dflt = v.
Proof. intros G dflt. rewrite getAttribute_get. now rewrite G. Qed.

End DatabaseFacts.

(** X26. [Database.createDocument] on the memory adapter: the Document it
    returns has the id of the options (the generated one when they give
    none), the collection, and the time of the call as [$createdAt] and
    [$updatedAt], whatever [data] held under those keys; it has the
    permissions of the options and the primitive attributes of [data],
    but for one under the key [__proto__], which it never has; and
    [getDocument] under its id returns it. *)
Theorem database_create_then_get
  (fuel : nat) (now generated collection : string) (fields : object)
  (options : CreateDocumentOptions) (this after : Database MemoryAdapter)
  (created : Document) :
  distinct (map fst fields) = true ->
  Db.createDocument (memoryOps fuel) fuel now generated collection fields options this
  = (Ok created, after) ->
  Doc.getId created = VString (createdId generated options)
  /\ Doc.getCollection created = VString collection
  /\ (forall defaultValue,
        Doc.getAttribute created "$createdAt" defaultValue = VString now
        /\ Doc.getAttribute created "$updatedAt" defaultValue = VString now)
  /\ (forall permissions defaultValue,
        options_permissions options = Some permissions ->
        Doc.getAttribute created "$permissions" defaultValue
        = VArray (map VString permissions))
  /\ (forall key val defaultValue,
        Obj.get key fields = Some val -> isObject val = false ->
        existsb (String.eqb key) STAMPED_KEYS = false ->
        key <> "__proto__" ->
        Doc.getAttribute created key defaultValue = val)
  /\ (forall defaultValue, Doc.getAttribute created "__proto__" defaultValue = defaultValue)
  /\ Db.getDocument (memoryOps fuel) collection (createdId generated options) after
     = (Ok (Some created), after).
Proof.
  intros D H. unfold Db.createDocument in H.
  destruct (Doc.construct fuel (Db.payload now generated collection fields options))
    as [document| |] eqn:C; try discriminate.
  unfold Db.delegate in H. cbn [memoryOps ops_createDocument] in H.
  destruct (Memory.createDocument fuel collection document (adapter this))
    as [outcome store'] eqn:W.
  injection H as -> <-.
  destruct (DatabaseFacts.write_inversion _ _ _ _ _ _ W)
    as (stored & id & Hc & Hid & Hclone & ->).
  pose proof (PayloadFacts.payload_distinct now generated collection fields options D) as Dp.
  assert (K : forall k v,
             k <> "__proto__" ->
             Obj.get k (Db.payload now generated collection fields options) = Some v ->
             carried fuel k v ->
             Obj.get k (data created) = Some v).
  { intros k v P G Kv.
    exact (FacadeFacts.construct_clone_get fuel _ document created k v P Dp C Hclone G Kv). }
  assert (Gid : Obj.get "$id" (data created)
                = Some (VString (createdId generated options))).
  { apply K; [discriminate|now rewrite PayloadFacts.payload_get
              |now apply FacadeFacts.kept_primitive]. }
  assert (Id : Doc.getId created = VString (createdId generated options)).
  { rewrite UpdateFacts.getId_get. now rewrite Gid. }
  split; [exact Id|]. split; [|split; [|split; [|split; [|split]]]].
  - rewrite UpdateFacts.getCollection_get.
    rewrite (K "$collection" (VString collection));
      [reflexivity|discriminate|now rewrite PayloadFacts.payload_get
      |now apply FacadeFacts.kept_primitive].
  - intros dflt. split; apply DatabaseFacts.getAttribute_of_get; apply K;
      try discriminate;
      try (now rewrite PayloadFacts.payload_get);
      now apply FacadeFacts.kept_primitive.
  - intros ps dflt P. apply DatabaseFacts.getAttribute_of_get. apply K.
    + discriminate.
    + rewrite PayloadFacts.payload_get. now rewrite P.
    + apply FacadeFacts.kept_strings.
  - intros key val dflt G O N P. apply DatabaseFacts.getAttribute_of_get. apply K.
    + exact P.
    + rewrite PayloadFacts.payload_get.
      unfold STAMPED_KEYS in N. simpl in N.
      repeat (apply orb_false_iff in N; destruct N as [? N]).
      repeat match goal with
             | E : String.eqb _ _ = false |- _ => rewrite E; clear E
             end.
      exact G.
    + now apply FacadeFacts.kept_primitive.
  - intros dflt. unfold Doc.getAttribute.
    now rewrite (RecordFacts.construct_ordinary fuel _ created Hclone).
  - unfold Db.getDocument, Db.delegate. cbn [memoryOps ops_getDocument adapter namespace].
    assert (I : id = createdId generated options).
    { pose proof (UpdateFacts.clone_getId fuel document created
                    (FacadeFacts.construct_distinct fuel _ document C) Hclone) as E.
      rewrite Id, Hid in E. congruence. }
    subst id.
    rewrite (DatabaseFacts.read_stored fuel (adapter this) collection _ stored created
               (CloneFacts.clone_again fuel document created Hclone)).
    reflexivity.
Qed.

Lemma database_create_then_get_witness :
  let fields := [("name", VString "Ada Lovelace"); ("__proto__", VNumber 1);
                 ("age", VNumber 36)] in
  let options := mkCreateDocumentOptions None (Some ["read(any)"]) in
  let this :=
    mkDatabase "default"
      (mkMemoryAdapter
         [("users", mkStoredCollection (mkCollectionSchema "users" (Some []) (Some [])) [])]) in
  exists created after,
    Db.createDocument (memoryOps 2) 2 "2026-01-01T00:00:00.000Z" "a1b2" "users" fields options this
    = (Ok created, after)
    /\ Doc.getId created = VString (createdId "a1b2" options)
    /\ Doc.getCollection created = VString "users"
    /\ (forall defaultValue,
          Doc.getAttribute created "$createdAt" defaultValue
          = VString "2026-01-01T00:00:00.000Z"
          /\ Doc.getAttribute created "$updatedAt" defaultValue
             = VString "2026-01-01T00:00:00.000Z")
    /\ (forall permissions defaultValue,
          options_permissions options = Some permissions ->
          Doc.getAttribute created "$permissions" defaultValue
          = VArray (map VString permissions))
    /\ (forall key val defaultValue,
          Obj.get key fields = Some val -> isObject val = false ->
          existsb (String.eqb key) STAMPED_KEYS = false ->
          key <> "__proto__" ->
          Doc.getAttribute created key defaultValue = val)
    /\ (forall defaultValue, Doc.getAttribute created "__proto__" defaultValue = defaultValue)
    /\ Db.getDocument (memoryOps 2) "users" (createdId "a1b2" options) after
       = (Ok (Some created), after).
Proof.
  intros fields options this. eexists. eexists. split; [reflexivity|].
  apply (database_create_then_get 2 "2026-01-01T00:00:00.000Z" "a1b2" "users" fields options
           this); reflexivity.
Defined.

(** X27. [Database.updateDocument] when the adapter has no document under the
    id, the collection being unknown or not holding it: the call fails with
    the error that the document was not found in the collection, and
    nothing is changed. *)
Theorem database_update_missing
  (fuel : nat) (now collection id : string) (data : object)
  (this : Database MemoryAdapter) :
  fst (Memory.getDocument fuel collection id (adapter this)) = Ok None ->
  Db.updateDocument (memoryOps fuel) fuel now collection id data this
  = (Throw (Db.missing collection id), this).
Proof.
  intros H. unfold Db.updateDocument, Db.delegate.
  cbn [memoryOps ops_getDocument].
  assert (S : snd (Memory.getDocument fuel collection id (adapter this)) = adapter this).
  { unfold Memory.getDocument.
    destruct (JsMap.get collection (collections (adapter this))) as [stored|]; [|reflexivity].
    now destruct (JsMap.get id (documents stored)). }
  destruct (Memory.getDocument fuel collection id (adapter this)) as [found a'].
  cbn [fst snd] in H, S. subst. now destruct this.
Qed.

Lemma database_update_missing_witness :
  Db.updateDocument (memoryOps 1) 1 "2026-01-01T00:00:00.000Z" "users" "u1" []
    (mkDatabase "default" (mkMemoryAdapter []))
  = (Throw (Db.missing "users" "u1"), mkDatabase "default" (mkMemoryAdapter [])).
Proof.
  exact (database_update_missing 1 "2026-01-01T00:00:00.000Z" "users" "u1" []
           (mkDatabase "default" (mkMemoryAdapter [])) eq_refl).
Defined.

Module MergeFacts.

Import ObjFacts MetadataFacts AttributeFacts CloneFacts RecordFacts FacadeFacts UpdateFacts DatabaseFacts.

Lemma update_inversion (fuel : nat) (collection : string) (document r : Document)
  (this after : MemoryAdapter) :
  Memory.updateDocument fuel collection document this = (Ok r, after) ->
  exists stored id,
    JsMap.get collection (collections this) = Some stored
    /\ Doc.getId document = VString id
    /\ Doc.clone fuel document = Ok r
    /\ after = Memory.store this collection stored id r.
Proof.
  unfold Memory.updateDocument, Memory.requireCollection. intros H.
  destruct (JsMap.get collection (collections this)) as [stored|]; [|discriminate].
  destruct (Doc.clone fuel document) as [copy| |] eqn:C; try discriminate.
  destruct (Doc.getId document) as [| | | |id| | | |]; try discriminate.
  injection H as <- <-. now exists stored, id.
Qed.

(** An entry of a settled Document that the merge leaves alone is what the
    clone of the merged Document holds. *)
Lemma untouched (fuel : nat) (old document updated : Document) (merged : object)
  (k : string) :
  k <> "__proto__" ->
  settled (Doc.prepareValue fuel) (data old) ->
  distinct (map fst merged) = true ->
  Doc.construct fuel merged = Ok document ->
  Doc.clone fuel document = Ok updated ->
  Obj.get k merged = option_map exported (Obj.get k (data old)) ->
  Obj.get k (data updated) = Obj.get k (data old).
Proof.
  intros P St D C Cl G.
  pose proof (construct_get fuel merged document k P D C) as A. rewrite G in A.
  pose proof (clone_get fuel document updated k P (construct_distinct fuel _ _ C) Cl) as B.
  destruct (Obj.get k (data old)) as [w|] eqn:Gw; cbn [option_map] in A.
  - destruct (St k w (get_In k w _ Gw)) as [_ S2].
    destruct A as (w' & Sw & Gd). rewrite S2 in Sw. injection Sw as <-.
    rewrite Gd in B. destruct B as (w'' & Sw & Gu). rewrite S2 in Sw. now injection Sw as <-.
  - rewrite A in B. exact B.
Qed.

End MergeFacts.

(** X28. [Database.updateDocument] on the memory adapter, for a stored Document
    (which is its own clone, as all that the adapter stores): the Document
    it returns has the time of the call as [$updatedAt], the primitive
    values of [data] under their keys, but for one under the key
    [__proto__], which it never has, and every other entry of the stored
    Document unchanged, [$createdAt] among them. It is stored under its own
    id and [getDocument] returns it there; that id is the one asked for
    unless [data] has an [$id], in which case the Document under the id
    asked for stays as it was. *)
Theorem database_update_merges
  (fuel : nat) (now collection id : string) (changes : object)
  (this after : Database MemoryAdapter) (stored : StoredCollection)
  (old updated : Document) :
  JsMap.get collection (collections (adapter this)) = Some stored ->
  JsMap.get id (documents stored) = Some old ->
  Doc.clone fuel old = Ok old ->
  distinct (map fst changes) = true ->
  Db.updateDocument (memoryOps fuel) fuel now collection id changes this = (Ok updated, after) ->
  (forall defaultValue, Doc.getAttribute updated "$updatedAt" defaultValue = VString now)
  /\ (forall key val defaultValue,
        Obj.get key changes = Some val -> isObject val = false ->
        key <> "$updatedAt" -> key <> "__proto__" ->
        Doc.getAttribute updated key defaultValue = val)
  /\ (forall defaultValue, Doc.getAttribute updated "__proto__" defaultValue = defaultValue)
  /\ (forall key defaultValue,
        Obj.has key changes = false -> key <> "$updatedAt" ->
        Doc.getAttribute updated key defaultValue = Doc.getAttribute old key defaultValue)
  /\ (Obj.has "$id" changes = false -> Doc.getId updated = Doc.getId old)
  /\ (forall key,
        Doc.getId updated = VString key ->
        Db.getDocument (memoryOps fuel) collection key after = (Ok (Some updated), after)
        /\ (key <> id ->
            fst (Db.getDocument (memoryOps fuel) collection id after) = Ok (Some old))).
Proof.
  intros Hc Hold Cold D H.
  unfold Db.updateDocument, Db.delegate in H. cbn [memoryOps ops_getDocument] in H.
  assert (G : Memory.getDocument fuel collection id (adapter this)
              = (Ok (Some old), adapter this)).
  { unfold Memory.getDocument. now rewrite Hc, Hold, Cold. }
  rewrite G in H. cbn [adapter namespace] in H.
  destruct (Doc.construct fuel (Db.merge now old changes)) as [document| |] eqn:C;
    try discriminate.
  cbn [memoryOps ops_updateDocument adapter namespace] in H.
  destruct (Memory.updateDocument fuel collection document (adapter this))
    as [outcome store'] eqn:W.
  injection H as -> <-.
  destruct (MergeFacts.update_inversion _ _ _ _ _ _ W)
    as (stored' & key' & Hc' & Hid & Hclone & ->).
  rewrite Hc in Hc'. injection Hc' as <-.
  pose proof (UpdateFacts.merge_distinct now old changes) as Dm.
  pose proof (FacadeFacts.construct_distinct fuel _ old Cold) as Do.
  pose proof (RecordFacts.clone_settled fuel old Cold) as St.
  pose proof (RecordFacts.construct_ordinary fuel _ updated Hclone) as Ou.
  pose proof (RecordFacts.construct_ordinary fuel _ old Cold) as Oo.
  assert (K : forall k v,
             k <> "__proto__" ->
             Obj.get k (Db.merge now old changes) = Some v ->
             carried fuel k v ->
             Obj.get k (data updated) = Some v).
  { intros k v P Gk Kv.
    exact (FacadeFacts.construct_clone_get fuel _ document updated k v P Dm C Hclone Gk Kv). }
  assert (U : forall k,
             Obj.has k changes = false -> k <> "$updatedAt" ->
             Obj.get k (data updated) = Obj.get k (data old)).
  { intros k Hk N. destruct (String.eqb_spec k "__proto__") as [->|P].
    - now rewrite (ObjFacts.get_has_false _ _ Ou), (ObjFacts.get_has_false _ _ Oo).
    - apply (MergeFacts.untouched fuel old document updated (Db.merge now old changes) k
               P St Dm C Hclone).
      rewrite (UpdateFacts.merge_get now old changes k P D Do).
      destruct (String.eqb_spec k "$updatedAt"); [contradiction|].
      now rewrite (ObjFacts.get_has_false k changes Hk). }
  split; [|split; [|split; [|split; [|split]]]].
  - intros dflt. apply DatabaseFacts.getAttribute_of_get. apply K.
    + discriminate.
    + now rewrite (UpdateFacts.merge_get now old changes "$updatedAt"
                     ltac:(discriminate) D Do).
    + now apply FacadeFacts.kept_primitive.
  - intros key val dflt Gk O N P. apply DatabaseFacts.getAttribute_of_get. apply K.
    + exact P.
    + rewrite (UpdateFacts.merge_get now old changes key P D Do).
      destruct (String.eqb_spec key "$updatedAt"); [contradiction|]. now rewrite Gk.
    + now apply FacadeFacts.kept_primitive.
  - intros dflt. unfold Doc.getAttribute. now rewrite Ou.
  - intros key dflt Hk N. rewrite !AttributeFacts.getAttribute_get. now rewrite (U key Hk N).
  - intros Hk. rewrite !UpdateFacts.getId_get. now rewrite (U "$id" Hk) by discriminate.
  - intros key Ik.
    assert (E : key' = key).
    { pose proof (UpdateFacts.clone_getId fuel document updated
                    (FacadeFacts.construct_distinct fuel _ document C) Hclone) as E.
      rewrite Ik, Hid in E. congruence. }
    subst key'. split.
    + unfold Db.getDocument, Db.delegate. cbn [memoryOps ops_getDocument adapter namespace].
      rewrite (DatabaseFacts.read_stored fuel (adapter this) collection key stored updated
                 (CloneFacts.clone_again fuel document updated Hclone)).
      reflexivity.
    + intros N. unfold Db.getDocument, Db.delegate.
      cbn [memoryOps ops_getDocument adapter namespace].
      pose proof (DatabaseFacts.read_other fuel (adapter this) collection key id stored
                    updated old ltac:(congruence) Hold Cold) as R.
      destruct (Memory.getDocument fuel collection id
                  (Memory.store (adapter this) collection stored key updated)).
      exact R.
Qed.

Lemma database_update_merges_witness :
  let old := mkDocument [("$id", VString "u1"); ("name", VString "Ada");
                         ("$createdAt", VString "2025")] in
  let stored := mkStoredCollection (mkCollectionSchema "users" (Some []) (Some []))
                  [("u1", old)] in
  let this := mkDatabase "default" (mkMemoryAdapter [("users", stored)]) in
  let changes := [("age", VNumber 36); ("__proto__", VNumber 1)] in
  exists updated after,
    Db.updateDocument (memoryOps 1) 1 "2026" "users" "u1" changes this = (Ok updated, after)
    /\ (forall defaultValue, Doc.getAttribute updated "$updatedAt" defaultValue = VString "2026")
    /\ (forall key val defaultValue,
          Obj.get key changes = Some val -> isObject val = false ->
          key <> "$updatedAt" -> key <> "__proto__" ->
          Doc.getAttribute updated key defaultValue = val)
    /\ (forall defaultValue, Doc.getAttribute updated "__proto__" defaultValue = defaultValue)
    /\ (forall key defaultValue,
          Obj.has key changes = false -> key <> "$updatedAt" ->
          Doc.getAttribute updated key defaultValue = Doc.getAttribute old key defaultValue)
    /\ (Obj.has "$id" changes = false -> Doc.getId updated = Doc.getId old)
    /\ (forall key,
          Doc.getId updated = VString key ->
          Db.getDocument (memoryOps 1) "users" key after = (Ok (Some updated), after)
          /\ (key <> "u1" ->
              fst (Db.getDocument (memoryOps 1) "users" "u1" after) = Ok (Some old))).
Proof.
  intros old stored this changes. eexists. eexists. split; [reflexivity|].
  apply (database_update_merges 1 "2026" "users" "u1" changes this _ stored old);
    reflexivity.
Defined.

(** X29. [Database.listDocuments] hands the adapter the clones of the queries
    of the options, which for queries the constructor returned are those
    queries, and no query when the options have none. *)
Theorem database_list_hands_queries {S : Type} (ops : AdapterOps S)
  (fuel : nat) (collection : string) (queries : list Query) (this : Database S) :
  (forall q, In q queries -> exists m a vs, Qry.construct fuel m a vs = Ok q) ->
  Db.listDocuments ops fuel collection (mkListDocumentsOptions (Some queries)) this
  = Db.delegate this (ops_listDocuments collection queries)
  /\ Db.listDocuments ops fuel collection (mkListDocumentsOptions None) this
     = Db.delegate this (ops_listDocuments collection []).
Proof.
  intros H. split; [|reflexivity].
  unfold Db.listDocuments. cbn [options_queries].
  assert (M : mapM (Qry.clone fuel) queries = Ok queries).
  { induction queries as [|q queries IH]; [reflexivity|].
    cbn [mapM]. destruct (H q (or_introl eq_refl)) as (m & a & vs & C).
    rewrite (QueryFacts.clone_built fuel q (proj1 (QueryFacts.built fuel) m a vs q C)).
    cbn [bind]. rewrite IH by (intros q' I; apply H; now right). reflexivity. }
  now rewrite M.
Qed.

Lemma database_list_hands_queries_witness :
  let queries := [mkQuery "greaterThanEqual" "age" [VNumber 60]] in
  let this := mkDatabase "default" (mkMemoryAdapter []) in
  Db.listDocuments (memoryOps 0) 0 "users" (mkListDocumentsOptions (Some queries)) this
  = Db.delegate this (@ops_listDocuments _ (memoryOps 0) "users" queries)
  /\ Db.listDocuments (memoryOps 0) 0 "users" (mkListDocumentsOptions None) this
     = Db.delegate this (@ops_listDocuments _ (memoryOps 0) "users" []).
Proof.
  intros queries this.
  apply (database_list_hands_queries (memoryOps 0) 0 "users" queries this).
  intros q [<-|[]]. exists "greaterThanEqual", "age", [VNumber 60]. reflexivity.
Defined.

Module NamespaceFacts.

Lemma delegate_alike {S A : Type} (run : S -> result A * S) (a : S) (ns ns' : string) :
  alike (Db.delegate (mkDatabase ns a) run) (Db.delegate (mkDatabase ns' a) run)
  /\ namespace (snd (Db.delegate (mkDatabase ns a) run)) = ns.
Proof.
  unfold alike, Db.delegate. cbn [adapter namespace].
  destruct (run a) as [outcome after]. repeat split.
Qed.

End NamespaceFacts.

(** X30. The namespace of a Database is kept by every call but [setNamespace],
    which [getNamespace] reads back, and no call depends on it: with
    another namespace each method returns the same outcome and leaves the
    adapter in the same state. *)
Theorem namespace_is_inert {S : Type} (ops : AdapterOps S) (a : S) (ns ns' : string) :
  Db.getNamespace (snd (Db.setNamespace ns' (mkDatabase ns a))) = ns'
  /\ (forall schema,
        alike (Db.createCollection ops schema (mkDatabase ns a))
              (Db.createCollection ops schema (mkDatabase ns' a))
        /\ namespace (snd (Db.createCollection ops schema (mkDatabase ns a))) = ns)
  /\ (forall name,
        alike (Db.deleteCollection ops name (mkDatabase ns a))
              (Db.deleteCollection ops name (mkDatabase ns' a))
        /\ namespace (snd (Db.deleteCollection ops name (mkDatabase ns a))) = ns)
  /\ (alike (Db.listCollections ops (mkDatabase ns a))
            (Db.listCollections ops (mkDatabase ns' a))
      /\ namespace (snd (Db.listCollections ops (mkDatabase ns a))) = ns)
  /\ (forall fuel now generated collection data options,
        alike (Db.createDocument ops fuel now generated collection data options
                 (mkDatabase ns a))
              (Db.createDocument ops fuel now generated collection data options
                 (mkDatabase ns' a))
        /\ namespace (snd (Db.createDocument ops fuel now generated collection data options
                             (mkDatabase ns a))) = ns)
  /\ (forall fuel now collection id data,
        alike (Db.updateDocument ops fuel now collection id data (mkDatabase ns a))
              (Db.updateDocument ops fuel now collection id data (mkDatabase ns' a))
        /\ namespace (snd (Db.updateDocument ops fuel now collection id data
                             (mkDatabase ns a))) = ns)
  /\ (forall collection id,
        alike (Db.getDocument ops collection id (mkDatabase ns a))
              (Db.getDocument ops collection id (mkDatabase ns' a))
        /\ namespace (snd (Db.getDocument ops collection id (mkDatabase ns a))) = ns)
  /\ (forall collection id,
        alike (Db.deleteDocument ops collection id (mkDatabase ns a))
              (Db.deleteDocument ops collection id (mkDatabase ns' a))
        /\ namespace (snd (Db.deleteDocument ops collection id (mkDatabase ns a))) = ns)
  /\ (forall fuel collection options,
        alike (Db.listDocuments ops fuel collection options (mkDatabase ns a))
              (Db.listDocuments ops fuel collection options (mkDatabase ns' a))
        /\ namespace (snd (Db.listDocuments ops fuel collection options (mkDatabase ns a)))
           = ns).
Proof.
  split; [reflexivity|].
  split; [intros; apply NamespaceFacts.delegate_alike|].
  split; [intros; apply NamespaceFacts.delegate_alike|].
  split; [apply NamespaceFacts.delegate_alike|].
  split.
  { intros. unfold Db.createDocument.
    destruct (Doc.construct _ _); [apply NamespaceFacts.delegate_alike| |];
      repeat split. }
  split.
  { intros. unfold Db.updateDocument, alike, Db.delegate. cbn [adapter namespace].
    destruct (ops_getDocument collection id a) as [found a'].
    destruct found as [[existing|]| |]; cbn [fst snd adapter namespace];
      try (repeat split; fail).
    destruct (Doc.construct _ _) as [document| |]; cbn [fst snd adapter namespace];
      try (repeat split; fail).
    destruct (ops_updateDocument collection document a'). repeat split. }
  split; [intros; apply NamespaceFacts.delegate_alike|].
  split; [intros; apply NamespaceFacts.delegate_alike|].
  intros. unfold Db.listDocuments.
  destruct (mapM _ _); [apply NamespaceFacts.delegate_alike| |]; repeat split.
Qed.
